(** * Spec Hub sync: a shallow embedding of the synchronisation engine

    Definitions, following the JavaScript sources:
    - [Collection] : the collection tree the injector rewrites;
    - [Js]         : the JavaScript values the client handles (parsed JSON),
                     truthiness, property reads, thrown errors;
    - [Tag]        : [SpecHubClient.validateTag];
    - [OpenApi]    : what is read of the parsed specification;
    - [Generator]  : test-generator.js (smoke and contract scripts, and
                     the object that maps names to them);
    - [Injector]   : [SpecHubClient.addTestsToItems], and what it reads
                     of the object it is given;
    - [Env]        : [generateEnvironment] of spec-hub-sync.js;
    - [Remote]     : the HTTP side of [SpecHubClient] and the orchestrator
                     [sync], over an arbitrary remote service;
    - [Routes]     : the calls of the client, by name;
    - [Polls]      : services as the two poll loops see them;
    - [PreRequest] : [generatePreRequestScript] of test-generator.js;
    - [Cli]        : [parseArgs], [showHelp] and the run of spec-hub-sync.js;
    - [Cleanup]    : scripts/cleanup-collections.js;
    - [Samples]    : concrete inputs and a small remote service;
    - [Scenario]   : generated scripts written out as JavaScript text.

    Facts: [TagFacts], [EnvFacts], [GeneratorFacts], [InjectorFacts] and
    [RemoteFacts]; then [TagContract], [EnvironmentFacts], [ScriptFacts],
    [ReinjectionFacts], [ClientFacts], [SyncFacts], [PollFacts],
    [PreRequestFacts], [CliFacts] and [CleanupFacts]. *)

From Stdlib Require Import String Ascii List ZArith Lia Bool.
From stdpp Require Import base strings gmap list pretty.

Open Scope list_scope.
Import ListNotations.
Set Warnings "-register-all,-clear-no-such-hyp".

(* ===================================================================== *)
(** * Collection documents *)
(* ===================================================================== *)

Module Collection.

(** [{ type, exec }] *)
Record script : Type := { type : string; exec : list string }.

(** An event object of a node.  [ref] names the object itself: two events
    are the same object exactly when they carry the same [ref]. *)
Record event : Type := { ref : N; listen : string; event_script : script }.

(** The request a leaf carries; the injector only tests its presence. *)
Record request : Type := { request_method : string; request_url : string }.

(** A node of the collection tree, with the four properties the injector
    reads: [name], [request], [event] and [item] ([None] when the node has
    no such property).  A node may carry both a request and children. *)
Inductive item : Type :=
  | Item (name : string) (request : option request)
         (event : option (list event)) (children : option (list item)).

Definition item_name (it : item) : string :=
  match it with Item n _ _ _ => n end.
Definition item_request (it : item) : option request :=
  match it with Item _ r _ _ => r end.
Definition item_event (it : item) : option (list event) :=
  match it with Item _ _ e _ => e end.
Definition item_item (it : item) : option (list item) :=
  match it with Item _ _ _ c => c end.

(** Induction over a tree and the lists of its children at once. *)
Section ItemInd.

Variable P : item -> Prop.
Variable Q : list item -> Prop.
Hypothesis H_folder : forall n r e l, Q l -> P (Item n r e (Some l)).
Hypothesis H_plain : forall n r e, P (Item n r e None).
Hypothesis H_nil : Q [].
Hypothesis H_cons : forall it l, P it -> Q l -> Q (it :: l).

Fixpoint item_tree_ind (it : item) : P it :=
  match it with
  | Item n r e (Some l) =>
      H_folder n r e l
        ((fix items_ind (l : list item) : Q l :=
            match l with
            | [] => H_nil
            | x :: r => H_cons x r (item_tree_ind x) (items_ind r)
            end) l)
  | Item n r e None => H_plain n r e
  end.

Fixpoint items_tree_ind (l : list item) : Q l :=
  match l with
  | [] => H_nil
  | x :: r => H_cons x r (item_tree_ind x) (items_tree_ind r)
  end.

End ItemInd.

End Collection.

(* ===================================================================== *)
(** * JavaScript values and thrown errors *)
(* ===================================================================== *)

Module Js.

(** A value as [response.json()] or an object literal yields it.  Objects
    are kept as association lists in property enumeration order; numbers
    are the integers (identifiers and status codes are all the sources
    read).  The [item] array of a collection document is held in its
    structured form, [VItems]. *)
Inductive val : Type :=
  | VUndef
  | VNull
  | VBool (b : bool)
  | VNum (n : Z)
  | VStr (s : string)
  | VArr (elems : list val)
  | VObj (props : list (string * val))
  | VItems (items : list Collection.item).

(** What a [throw] carries.  [ApiError status detail] is
    [new Error(`API Error ${status}: ${JSON.stringify(detail)}`)];
    [Error msg] is [new Error(msg)]; [TypeError] is the engine's own error
    on a property read from [null]/[undefined] or a call of a non-function;
    [BodyNotJson] is the rejection of [response.json()]; [FetchFailed] the
    rejection of [fetch]; [ProcessExit code] stands for [process.exit(code)],
    which the sources call outside every [try] block only. *)
Inductive exn : Type :=
  | Error (message : string)
  | ApiError (status : nat) (detail : val)
  | TypeError
  | BodyNotJson
  | FetchFailed
  | ProcessExit (code : nat).

Inductive outcome (A : Type) : Type :=
  | Ok (a : A)
  | Throw (e : exn).
Arguments Ok {A} a.
Arguments Throw {A} e.

Definition obind {A B} (r : outcome A) (f : A -> outcome B) : outcome B :=
  match r with
  | Ok a => f a
  | Throw e => Throw e
  end.

(** [if (v)], [v || w], [!v] *)
Definition truthy (v : val) : bool :=
  match v with
  | VUndef | VNull => false
  | VBool b => b
  | VNum n => negb (Z.eqb n 0)
  | VStr s => negb (String.eqb s "")
  | VArr _ | VObj _ | VItems _ => true
  end.

Definition or_else (v w : val) : val := if truthy v then v else w.

Fixpoint assoc {A} (k : string) (l : list (string * A)) : option A :=
  match l with
  | [] => None
  | (k', a) :: r => if String.eqb k k' then Some a else assoc k r
  end.

(** [v.k] : a read from [null] or [undefined] throws, a missing property
    reads as [undefined]. *)
Definition get (v : val) (k : string) : outcome val :=
  match v with
  | VUndef | VNull => Throw TypeError
  | VObj props => Ok (default VUndef (assoc k props))
  | _ => Ok VUndef
  end.

(** [v?.k] *)
Definition get_opt (v : val) (k : string) : outcome val :=
  match v with
  | VUndef | VNull => Ok VUndef
  | _ => get v k
  end.

(** [v === s] for a string [s] *)
Definition is_str (v : val) (s : string) : bool :=
  match v with
  | VStr s' => String.eqb s' s
  | _ => false
  end.

Fixpoint join (sep : string) (l : list string) : string :=
  match l with
  | [] => ""
  | [x] => x
  | x :: r => x +:+ sep +:+ join sep r
  end.

(** [`${v}`] *)
Fixpoint to_string (v : val) : string :=
  match v with
  | VUndef => "undefined"
  | VNull => "null"
  | VBool true => "true"
  | VBool false => "false"
  | VNum n => pretty n
  | VStr s => s
  | VArr l =>
      join "," (map (fun x => match x with
                              | VUndef | VNull => ""
                              | _ => to_string x
                              end) l)
  | VObj _ => "[object Object]"
  | VItems l => join "," (map (fun _ => "[object Object]") l)
  end.

(** [arr.find(c => c.name === name)] : the receiver must be an array (any
    other value has no [find]); the callback reads [c.name]. *)
Fixpoint find_named (name : string) (l : list val) : outcome val :=
  match l with
  | [] => Ok VUndef
  | c :: r =>
      obind (get c "name") (fun n =>
        if is_str n name then Ok c else find_named name r)
  end.

Definition find_by_name (arr : val) (name : string) : outcome val :=
  match arr with
  | VArr l => find_named name l
  | _ => Throw TypeError
  end.

(** [arr?.find(c => c.name === name)] *)
Definition find_by_name_opt (arr : val) (name : string) : outcome val :=
  match arr with
  | VUndef | VNull => Ok VUndef
  | _ => find_by_name arr name
  end.

(** The properties every object literal inherits from [Object.prototype]:
    a read [obj[name]] of one of them that [obj] does not own yields a
    function, or for [__proto__] the prototype itself. *)
Definition inherited_names : list string := [
  "constructor"; "__proto__"; "__defineGetter__"; "__defineSetter__";
  "__lookupGetter__"; "__lookupSetter__"; "hasOwnProperty"; "isPrototypeOf";
  "propertyIsEnumerable"; "toLocaleString"; "toString"; "valueOf" ].

Definition inherited (name : string) : bool :=
  existsb (String.eqb name) inherited_names.

End Js.

(* ===================================================================== *)
(** * Tag validation *)
(* ===================================================================== *)

Module Tag.
Import Js.

Definition between (lo hi c : ascii) : bool :=
  (nat_of_ascii lo <=? nat_of_ascii c)%nat && (nat_of_ascii c <=? nat_of_ascii hi)%nat.

Definition is_lower (c : ascii) : bool := between "a" "z" c.
Definition is_upper (c : ascii) : bool := between "A" "Z" c.
Definition is_digit (c : ascii) : bool := between "0" "9" c.
Definition is_hyphen (c : ascii) : bool := Ascii.eqb c "-".

(** the class [[a-z0-9-]] *)
Definition tag_char (c : ascii) : bool := is_lower c || is_digit c || is_hyphen c.

(** [String.prototype.toLowerCase], for the strings this development can
    write down: sequences of code units below 256.  On the units below 128
    the method moves the letters A-Z to a-z and leaves every other unit,
    which is what [lower_char] does.  A unit from 128 to 255 stays or moves
    to another unit of that range; [lower_char] leaves it, and [validateTag]
    replaces either by a hyphen.  Units from 256 on are outside the model:
    the method can map one of them to a letter (U+212A to k) or to two units
    (U+0130 to i and U+0307), so what is proved of [validateTag] is proved
    of strings of units below 256, and stated for ASCII input where the
    claim is about every string. *)
Definition lower_char (c : ascii) : ascii :=
  if is_upper c then ascii_of_nat (nat_of_ascii c + 32) else c.

Fixpoint toLowerCase (s : string) : string :=
  match s with
  | EmptyString => EmptyString
  | String c r => String (lower_char c) (toLowerCase r)
  end.

(** [.replace(/[^a-z0-9-]+/g, '-')] : every maximal run of characters
    outside the class becomes one hyphen; [in_run] says the previous
    character already belonged to the run being replaced. *)
Fixpoint replace_invalid (in_run : bool) (s : string) : string :=
  match s with
  | EmptyString => EmptyString
  | String c r =>
      if tag_char c then String c (replace_invalid false r)
      else if in_run then replace_invalid true r
      else String "-" (replace_invalid true r)
  end.

(** [.replace(/^-+/, '')] *)
Fixpoint strip_leading (s : string) : string :=
  match s with
  | EmptyString => EmptyString
  | String c r => if is_hyphen c then strip_leading r else s
  end.

(** [.replace(/-+$/, '')] *)
Fixpoint strip_trailing (s : string) : string :=
  match s with
  | EmptyString => EmptyString
  | String c r =>
      match strip_trailing r with
      | EmptyString => if is_hyphen c then EmptyString else String c EmptyString
      | r' => String c r'
      end
  end.

(** [.replace(/^-+|-+$/g, '')] *)
Definition trim_hyphens (s : string) : string := strip_trailing (strip_leading s).

(** [/^[a-z]/.test(s)] *)
Definition starts_with_letter (s : string) : bool :=
  match s with
  | EmptyString => false
  | String c _ => is_lower c
  end.

Fixpoint last_char (s : string) : option ascii :=
  match s with
  | EmptyString => None
  | String c EmptyString => Some c
  | String _ r => last_char r
  end.

(** [/[a-z0-9]$/.test(s)] *)
Definition ends_with_alnum (s : string) : bool :=
  match last_char s with
  | Some c => is_lower c || is_digit c
  | None => false
  end.

(** [s.substring(0, n)] *)
Fixpoint take_chars (n : nat) (s : string) : string :=
  match n, s with
  | O, _ => EmptyString
  | _, EmptyString => EmptyString
  | S n', String c r => String c (take_chars n' r)
  end.

Definition validate_string (tag : string) : string :=
  let clean := trim_hyphens (replace_invalid false (toLowerCase tag)) in
  let clean := if negb (starts_with_letter clean) then "tag-" +:+ clean else clean in
  let clean := if negb (ends_with_alnum clean) then clean +:+ "0" else clean in
  let clean := if (String.length clean <? 2)%nat then "tag-" +:+ clean else clean in
  if (64 <? String.length clean)%nat then
    let clean := strip_trailing (take_chars 64 clean) in
    if negb (ends_with_alnum clean) then take_chars 63 clean +:+ "0" else clean
  else clean.

Definition validateTag (tag : val) : outcome string :=
  match tag with
  | VStr s =>
      if negb (truthy tag) then Throw (Error "Tag must be a non-empty string")
      else Ok (validate_string s)
  | _ => Throw (Error "Tag must be a non-empty string")
  end.

Fixpoint all_chars (p : ascii -> bool) (s : string) : bool :=
  match s with
  | EmptyString => true
  | String c r => p c && all_chars p r
  end.

(** The contract the method documents: a letter first, a letter or digit
    last, lowercase letters, digits and hyphens throughout
    ([^[a-z][a-z0-9-]*[a-z0-9]+$]), and 2 to 64 characters. *)
Definition tag_shape (s : string) : bool :=
  starts_with_letter s && ends_with_alnum s && all_chars tag_char s.

Definition tag_ok (s : string) : bool :=
  tag_shape s && (2 <=? String.length s)%nat && (String.length s <=? 64)%nat.

Fixpoint repeat_char (c : ascii) (n : nat) : string :=
  match n with
  | O => EmptyString
  | S n' => String c (repeat_char c n')
  end.

(** a code unit below 128 *)
Definition is_ascii (c : ascii) : bool := (nat_of_ascii c <? 128)%nat.

(** a string of ASCII characters only *)
Definition ascii_only (s : string) : bool := all_chars is_ascii s.

End Tag.

(* ===================================================================== *)
(** * The parsed specification *)
(* ===================================================================== *)

Module OpenApi.
Import Js.

(** A server object; OpenAPI makes [url] a required string. *)
Record server : Type := { url : string }.

(** What the orchestrator and the generators read of the document the
    parser returns: [api.info?.title], [api.info?.version], [api.servers]
    ([None] when the document has no [servers] member) and the rest of the
    document, from which the parser extracts the endpoints. *)
Record api : Type := {
  title : val;
  version : val;
  servers : option (list server);
  document : val
}.

(** One media-type keyed [content] object and one response object, in
    property enumeration order. *)
Record response : Type := { content : option (list (string * val)) }.

(** An endpoint descriptor as [extractEndpoints] returns it. *)
Record endpoint : Type := {
  method : string;
  path : string;
  name : val;
  responses : list (string * response)
}.

(** What [getResponseSchema] returns when it finds a response: an object
    whose [schema] member is the JSON schema, [undefined] when absent. *)
Record schemaInfo : Type := { schema : val }.

End OpenApi.

(* ===================================================================== *)
(** * Test script generation (test-generator.js) *)
(* ===================================================================== *)

Module Generator.
Import Js OpenApi.

(** the double quote, for the generated JavaScript *)
Definition dq : string := String "034"%char EmptyString.

Definition SMOKE : string := "smoke".
Definition CONTRACT : string := "contract".

(** [Object.keys(obj)] *)
Definition keys {A} (obj : list (string * A)) : list string := map fst obj.

(** [code.startsWith(p)] *)
Definition startsWith (p code : string) : bool := String.prefix p code.

(** [s.split(';')[0]] *)
Fixpoint before_semicolon (s : string) : string :=
  match s with
  | EmptyString => EmptyString
  | String c r => if Ascii.eqb c ";" then EmptyString else String c (before_semicolon r)
  end.

Definition latency_assertion : string :=
  "    pm.expect(pm.response.responseTime).to.be.below(threshold);".

Definition threshold_line : string :=
  "    const threshold = parseInt(pm.environment.get(" +:+ dq +:+ "RESPONSE_TIME_THRESHOLD"
    +:+ dq +:+ ") || " +:+ dq +:+ "2000" +:+ dq +:+ ");".

Definition response_time_test : string :=
  "pm.test(" +:+ dq +:+ "Response time is acceptable" +:+ dq +:+ ", function () {".

Definition oneOf_assertion (successCodes : list string) : string :=
  "    pm.expect(pm.response.code).to.be.oneOf([" +:+ join ", " successCodes +:+ "]);".

Definition body_defined_assertion : string :=
  "            pm.expect(jsonData).to.not.be.undefined;".

Definition successCodes (e : endpoint) : list string :=
  List.filter (fun code => startsWith "2" code) (keys (responses e)).

Definition generateSmokeTestScript (e : endpoint) : list string :=
  let tests := [
    "// Smoke tests for: " +:+ method e +:+ " " +:+ path e;
    "// Basic health checks - generated from OpenAPI spec";
    "" ] in
  let tests :=
    if (0 <? length (successCodes e))%nat then
      tests ++ [
        "// Status code validation";
        "pm.test(" +:+ dq +:+ "Status code is success" +:+ dq +:+ ", function () {";
        oneOf_assertion (successCodes e);
        "});";
        "" ]
    else tests in
  let tests := tests ++ [
    "// Performance check";
    response_time_test;
    threshold_line;
    latency_assertion;
    "});";
    "" ] in
  tests ++ [
    "// Response body exists";
    "pm.test(" +:+ dq +:+ "Response body is not empty" +:+ dq +:+ ", function () {";
    "    if (pm.response.code >= 200 && pm.response.code < 300) {";
    "        const contentType = pm.response.headers.get(" +:+ dq +:+ "Content-Type" +:+ dq +:+ ");";
    "        if (contentType && contentType.includes(" +:+ dq +:+ "application/json" +:+ dq +:+ ")) {";
    "            const jsonData = pm.response.json();";
    body_defined_assertion;
    "        }";
    "    }";
    "});" ].

Definition status_assertion (expectedCode : string) : string :=
  "    pm.response.to.have.status(" +:+ expectedCode +:+ ");".

Definition header_assertion : string :=
  "    pm.response.to.have.header(" +:+ dq +:+ "Content-Type" +:+ dq +:+ ");".

Definition include_assertion (expectedType : string) : string :=
  "    pm.expect(contentType).to.include(" +:+ dq +:+ expectedType +:+ dq +:+ ");".

Definition type_assertion (t : string) : string :=
  "    pm.expect(jsonData).to.be.an('" +:+ t +:+ "');".

Definition property_assertion (field : string) : string :=
  "    pm.expect(dataToCheck).to.have.property('" +:+ field +:+ "');".

Definition dataToCheck_line : string :=
  "    const dataToCheck = Array.isArray(jsonData) ? (jsonData[0] || {}) : jsonData;".

Definition error_assertion : string :=
  "        pm.expect(hasErrorField).to.be.true;".

Definition errorCodes (e : endpoint) : list string :=
  List.filter (fun code => startsWith "4" code || startsWith "5" code) (keys (responses e)).

(** [endpoint.responses['200'] || endpoint.responses['201']] *)
Definition successResponse (e : endpoint) : option response :=
  match assoc "200" (responses e) with
  | Some r => Some r
  | None => assoc "201" (responses e)
  end.

(** The object [generateTestScriptsForSpec] fills: an object literal,
    described by its own properties and by its prototype.  [proto] is
    [None] while the prototype is [Object.prototype], and [Some script]
    once an assignment to the key [__proto__] has replaced it by an array
    of lines. *)
Record scriptObject : Type := {
  own : gmap string (list string);
  proto : option (list string)
}.

(** [{}] *)
Definition emptyObject : scriptObject := {| own := ∅; proto := None |}.

(** [testScripts[key] = script] for an array [script]: the key
    [__proto__] is the accessor of [Object.prototype], whose setter makes
    the array the object's prototype and adds no property; every other key
    becomes, or stays, an own property. *)
Definition assign_script (key : string) (script : list string) (o : scriptObject)
  : scriptObject :=
  if String.eqb key "__proto__" then {| own := own o; proto := Some script |}
  else {| own := <[key := script]> (own o); proto := proto o |}.

(** [Object.keys(testScripts).length] *)
Definition keyCount (o : scriptObject) : nat := size (own o).

Section WithParser.

(** parser.js is not part of the sources at hand: its three exports are
    taken as they are imported. *)
Variable extractEndpoints : api -> list endpoint.
Variable getResponseSchema : list (string * response) -> string -> option schemaInfo.
Variable getRequiredFields : val -> list string.

(** [getResponseSchema(r, '200') || getResponseSchema(r, '201')] *)
Definition responseSchema (e : endpoint) : option schemaInfo :=
  match getResponseSchema (responses e) "200" with
  | Some si => Some si
  | None => getResponseSchema (responses e) "201"
  end.

Definition status_block (e : endpoint) : list string :=
  match successCodes e with
  | expectedCode :: _ => [
      "// Status code validation";
      "pm.test(" +:+ dq +:+ "Status code is " +:+ expectedCode +:+ dq +:+ ", function () {";
      status_assertion expectedCode;
      "});";
      "" ]
  | [] => []
  end.

Definition content_type_block (e : endpoint) : list string :=
  match successResponse e with
  | Some {| content := Some media |} =>
      match keys media with
      | first :: _ =>
          let expectedType := before_semicolon first in [
            "// Content-Type validation";
            "pm.test(" +:+ dq +:+ "Content-Type is " +:+ expectedType +:+ dq +:+ ", function () {";
            header_assertion;
            "    const contentType = pm.response.headers.get(" +:+ dq +:+ "Content-Type" +:+ dq +:+ ");";
            include_assertion expectedType;
            "});";
            "" ]
      | [] => []
      end
  | _ => []
  end.

Definition required_block (s : val) : list string :=
  let requiredFields := getRequiredFields s in
  if (0 <? length requiredFields)%nat then
    [ "// Required field validation";
      "pm.test(" +:+ dq +:+ "Response has required fields" +:+ dq +:+ ", function () {";
      "    const jsonData = pm.response.json();";
      dataToCheck_line;
      "    " ]
    ++ map property_assertion requiredFields
    ++ [ "});"; "" ]
  else [].

Definition schema_block (e : endpoint) : list string :=
  match responseSchema e with
  | Some si =>
      if truthy (schema si) then
        [ "// JSON Schema validation";
          "pm.test(" +:+ dq +:+ "Response matches schema structure" +:+ dq +:+ ", function () {";
          "    const jsonData = pm.response.json();";
          "    ";
          "    // Basic type validation" ]
        ++ (match get (schema si) "type" with
            | Ok t =>
                if is_str t "object" then [type_assertion "object"]
                else if is_str t "array" then [type_assertion "array"]
                else []
            | Throw _ => []
            end)
        ++ [ "});"; "" ]
        ++ required_block (schema si)
      else []
  | None => []
  end.

(** the schema the two schema blocks are generated from, when there is
    one: [schemaInfo?.schema] of the [200] lookup, else of the [201] one *)
Definition checkedSchema (e : endpoint) : option val :=
  match responseSchema e with
  | Some si => if truthy (schema si) then Some (schema si) else None
  | None => None
  end.

Definition error_block (e : endpoint) : list string :=
  if (0 <? length (errorCodes e))%nat then [
    "// Error response structure validation";
    "pm.test(" +:+ dq +:+ "Error responses have proper structure" +:+ dq +:+ ", function () {";
    "    if (pm.response.code >= 400) {";
    "        const jsonData = pm.response.json();";
    "        const hasErrorField = jsonData.hasOwnProperty('error') || jsonData.hasOwnProperty('message') || jsonData.hasOwnProperty('detail');";
    error_assertion;
    "    }";
    "});";
    "" ]
  else [].

Definition generateContractTestScript (e : endpoint) : list string :=
  [ "// Contract tests for: " +:+ method e +:+ " " +:+ path e;
    "// Comprehensive validation - generated from OpenAPI spec";
    "" ]
  ++ status_block e
  ++ [ "// Performance baseline check";
       response_time_test;
       threshold_line;
       latency_assertion;
       "});";
       "" ]
  ++ content_type_block e
  ++ schema_block e
  ++ error_block e.

Definition generateTestScript (e : endpoint) (level : string) : list string :=
  if String.eqb level SMOKE then generateSmokeTestScript e
  else generateContractTestScript e.

Definition generateDefaultSmokeTestScript : list string := [
  "// Default smoke tests";
  "pm.test(" +:+ dq +:+ "Status code is success" +:+ dq +:+ ", function () {";
  "    pm.expect(pm.response.code).to.be.oneOf([200, 201, 204]);";
  "});";
  "";
  response_time_test;
  threshold_line;
  latency_assertion;
  "});" ].

Definition generateDefaultContractTestScript : list string := [
  "// Default contract tests";
  "pm.test(" +:+ dq +:+ "Status code is valid" +:+ dq +:+ ", function () {";
  "    pm.expect(pm.response.code).to.be.oneOf([200, 201, 204]);";
  "});";
  "";
  response_time_test;
  threshold_line;
  latency_assertion;
  "});";
  "";
  "pm.test(" +:+ dq +:+ "Response body is valid JSON" +:+ dq +:+ ", function () {";
  "    pm.response.to.be.json;";
  "});" ].

(** [endpoint.name || `${endpoint.method} ${endpoint.path}`], as the
    property key it is used for *)
Definition testName (e : endpoint) : string :=
  to_string (or_else (name e) (VStr (method e +:+ " " +:+ path e))).

Definition defaultScript (level : string) : list string :=
  if String.eqb level SMOKE then generateDefaultSmokeTestScript
  else generateDefaultContractTestScript.

Definition generateTestScriptsForSpec (a : api) (level : string) : scriptObject :=
  let testScripts :=
    fold_left (fun (o : scriptObject) e =>
                 assign_script (testName e) (generateTestScript e level) o)
              (extractEndpoints a) emptyObject in
  assign_script "default" (defaultScript level) testScripts.

End WithParser.

(** ** Reading a script *)

(** the display name of an endpoint: its name when it has one, else its
    method and path *)
Definition displayName (e : endpoint) : string :=
  if truthy (name e) then to_string (name e) else method e +:+ " " +:+ path e.

(** the last endpoint of a list whose display name is [k] *)
Fixpoint lastNamed (k : string) (es : list endpoint) : option endpoint :=
  match es with
  | [] => None
  | e :: rest =>
      match lastNamed k rest with
      | Some e' => Some e'
      | None => if String.eqb (displayName e) k then Some e else None
      end
  end.

Fixpoint trimStart (s : string) : string :=
  match s with
  | String c r => if Ascii.eqb c " " then trimStart r else s
  | EmptyString => EmptyString
  end.

(** The assertion statements of a script are its [pm.expect(...)] and
    [pm.response.to...] lines. *)
Definition is_assertion (line : string) : bool :=
  String.prefix "pm.expect(" (trimStart line)
  || String.prefix "pm.response.to." (trimStart line).

Definition assertions (script : list string) : list string :=
  List.filter is_assertion script.

Definition is_property_assertion (line : string) : bool :=
  String.prefix "    pm.expect(dataToCheck).to.have.property('" line.

(** the seven forms an assertion of a contract script can take *)
Inductive contract_form : string -> Prop :=
  | form_status c : contract_form (status_assertion c)
  | form_latency : contract_form latency_assertion
  | form_header : contract_form header_assertion
  | form_include t : contract_form (include_assertion t)
  | form_type t : contract_form (type_assertion t)
  | form_property f : contract_form (property_assertion f)
  | form_error : contract_form error_assertion.

End Generator.

(* ===================================================================== *)
(** * Test injection ([SpecHubClient.addTestsToItems]) *)
(* ===================================================================== *)

Module Injector.
Import Collection.

(** A value of the script map: the source accepts an array of lines or
    a string it splits at line feeds. *)
Inductive testScript : Type :=
  | Lines (lines : list string)
  | Text (text : string).

(** [if (testScript)] : every array is truthy, a string unless empty *)
Definition script_truthy (t : testScript) : bool :=
  match t with
  | Lines _ => true
  | Text s => negb (String.eqb s "")
  end.

(** [text.split('\n')] *)
Fixpoint split_lines (s : string) : list string :=
  match s with
  | EmptyString => [EmptyString]
  | String c r =>
      if Ascii.eqb c "010"%char then EmptyString :: split_lines r
      else match split_lines r with
           | first :: rest => String c first :: rest
           | [] => [String c EmptyString]
           end
  end.

(** [Array.isArray(testScript) ? testScript : testScript.split('\n')] *)
Definition exec_of (t : testScript) : list string :=
  match t with
  | Lines l => l
  | Text s => split_lines s
  end.

(** What a read [testScripts[key]] yields, as far as the injector can tell
    the values apart: a script (an array of lines or a string), a truthy
    value that is neither (a function, an object that is no array, a
    number other than zero: such a value has no [split] method), or a
    falsy value that is no string ([undefined], zero). *)
Inductive reading : Type :=
  | Script (t : testScript)
  | Opaque
  | Absent.

Definition reading_truthy (r : reading) : bool :=
  match r with
  | Script t => script_truthy t
  | Opaque => true
  | Absent => false
  end.

(** The script map is an object the injector only reads, at the names of
    the request nodes and at ['default']: it is described by what those
    reads yield. *)
Definition reader : Type := string -> reading.

(** An object literal whose own properties are the scripts [m]: a name it
    does not own is looked up in [Object.prototype]. *)
Definition plain (m : gmap string testScript) : reader :=
  fun key =>
    match m !! key with
    | Some t => Script t
    | None => if Js.inherited key then Opaque else Absent
    end.

(** [lines[key]] for an array index [key]: the canonical decimal numeral
    of a position of the array *)
Fixpoint element_from (i : nat) (key : string) (lines : list string) : option string :=
  match lines with
  | [] => None
  | x :: rest => if String.eqb key (pretty i) then Some x else element_from (S i) key rest
  end.

Definition element (key : string) (lines : list string) : option string :=
  element_from 0 key lines.

(** The object [generateTestScriptsForSpec] returns.  A name it does not
    own is looked up in its prototype: [Object.prototype], or the array
    that replaced it, then [Array.prototype], then [Object.prototype].  In
    the array the name finds a line, or the length; [__proto__] reads the
    prototype, which is then the array.  [arrayMembers] are the names
    [Array.prototype] holds, which depend on the engine; all are
    functions. *)
Definition generated (arrayMembers : list string) (o : Generator.scriptObject) : reader :=
  fun key =>
    match Generator.own o !! key with
    | Some lines => Script (Lines lines)
    | None =>
        match Generator.proto o with
        | None => if Js.inherited key then Opaque else Absent
        | Some array =>
            if String.eqb key "__proto__" then Script (Lines array)
            else match element key array with
                 | Some line => Script (Text line)
                 | None =>
                     if String.eqb key "length" then
                       match array with [] => Absent | _ => Opaque end
                     else if existsb (String.eqb key) arrayMembers || Js.inherited key
                     then Opaque
                     else Absent
                 end
        end
    end.

(** [testScripts[item.name] || testScripts['default']] *)
Definition lookup_script (testScripts : reader) (name : string) : reading :=
  let named := testScripts name in
  if reading_truthy named then named else testScripts "default".

(** [e => e.listen !== 'test'] *)
Definition not_test (e : event) : bool := negb (String.eqb (listen e) "test").

(** the object literal pushed onto [item.event]; [r] names the new object *)
Definition test_event (r : N) (t : testScript) : event :=
  {| ref := r; listen := "test";
     event_script := {| type := "text/javascript"; exec := exec_of t |} |}.

(** The body of [if (item.request) { ... }] on the node's events: the
    events after it, the next free object name, and how the body ends.
    Under [if (testScript)] the events are first replaced by those that
    are no test, then the new event is built and pushed; building it calls
    [testScript.split] unless the value is an array, which throws for a
    value that is neither array nor string, after the replacement and
    before the push. *)
Definition inject (testScripts : reader) (name : string)
    (ev : option (list event)) (next : N)
  : option (list event) * N * Js.outcome unit :=
  match lookup_script testScripts name with
  | Script t =>
      if script_truthy t then
        (Some (List.filter not_test (default [] ev) ++ [test_event next t]),
         N.succ next, Js.Ok tt)
      else (ev, next, Js.Ok tt)
  | Opaque => (Some (List.filter not_test (default [] ev)), next, Js.Throw Js.TypeError)
  | Absent => (ev, next, Js.Ok tt)
  end.

Section WithScripts.

Variable testScripts : reader.

(** One turn of the [for] loop: the node itself, then its children.  The
    nodes are rewritten in place, so a turn that throws leaves the tree as
    far as it got: the result is the tree after the turn, the next free
    object name, and how the turn ends. *)
Fixpoint addTestsToItem (it : item) (next : N) : item * N * Js.outcome unit :=
  match it with
  | Item n r ev sub =>
      let '(ev', next1, done) :=
        match r with
        | Some _ => inject testScripts n ev next
        | None => (ev, next, Js.Ok tt)
        end in
      match done with
      | Js.Throw e => (Item n r ev' sub, next1, Js.Throw e)
      | Js.Ok _ =>
          match sub with
          | Some l =>
              let '(l', next2, done2) :=
                (fix loop (l : list item) (next : N)
                   : list item * N * Js.outcome unit :=
                   match l with
                   | [] => ([], next, Js.Ok tt)
                   | x :: rest =>
                       let '(x', n1, d1) := addTestsToItem x next in
                       match d1 with
                       | Js.Throw e => (x' :: rest, n1, Js.Throw e)
                       | Js.Ok _ =>
                           let '(rest', n2, d2) := loop rest n1 in
                           (x' :: rest', n2, d2)
                       end
                   end) l next1 in
              (Item n r ev' (Some l'), next2, done2)
          | None => (Item n r ev' None, next1, Js.Ok tt)
          end
      end
  end.

Fixpoint addTestsToItems (items : list item) (next : N)
  : list item * N * Js.outcome unit :=
  match items with
  | [] => ([], next, Js.Ok tt)
  | x :: rest =>
      let '(x', n1, d1) := addTestsToItem x next in
      match d1 with
      | Js.Throw e => (x' :: rest, n1, Js.Throw e)
      | Js.Ok _ =>
          let '(rest', n2, d2) := addTestsToItems rest n1 in
          (x' :: rest', n2, d2)
      end
  end.

End WithScripts.

(** the tree a run leaves, and how the run ends *)
Definition tree_of {A} (r : A * N * Js.outcome unit) : A := fst (fst r).
Definition done_of {A} (r : A * N * Js.outcome unit) : Js.outcome unit := snd r.

(** ** Observations on trees *)

(** an event that listens on ['test'], and one that listens on anything
    else, as a reader of the tree tells them apart *)
Definition is_test (e : event) : bool := String.eqb (listen e) "test".
Definition is_other (e : event) : bool := negb (is_test e).

Definition events (it : item) : list event := default [] (item_event it).

Definition is_leaf (it : item) : bool :=
  match item_request it with Some _ => true | None => false end.

(** every node carrying a request, in the order the loop meets them *)
Fixpoint leaves_of (it : item) : list item :=
  match it with
  | Item n r ev sub =>
      (if is_leaf it then [it] else [])
      ++ match sub with
         | Some l => (fix go (l : list item) : list item :=
                        match l with
                        | [] => []
                        | x :: rest => leaves_of x ++ go rest
                        end) l
         | None => []
         end
  end.

Fixpoint leaves (items : list item) : list item :=
  match items with
  | [] => []
  | x :: rest => leaves_of x ++ leaves rest
  end.

(** The tree with the events of its request nodes forgotten: names,
    requests, the events of pure folders, and the number, order and nesting
    of all nodes remain. *)
Fixpoint frame_of (it : item) : item :=
  match it with
  | Item n r ev sub =>
      Item n r (match r with Some _ => None | None => ev end)
           (match sub with
            | Some l => Some ((fix go (l : list item) : list item :=
                                 match l with
                                 | [] => []
                                 | x :: rest => frame_of x :: go rest
                                 end) l)
            | None => None
            end)
  end.

Fixpoint frame (items : list item) : list item :=
  match items with
  | [] => []
  | x :: rest => frame_of x :: frame rest
  end.

(** a ["default"] entry the source's [if (testScript)] accepts: a script,
    and truthy *)
Definition has_default (testScripts : reader) : Prop :=
  exists d, testScripts "default" = Script d /\ script_truthy d = true.

(** a request node whose name reads a value that is no script *)
Definition opaque_at (testScripts : reader) (it : item) : Prop :=
  testScripts (item_name it) = Opaque.

(** What the claim asks of one leaf, before and after. *)
Definition leaf_injected (before after : item) : Prop :=
  length (List.filter is_test (events after)) = 1%nat
  /\ List.filter is_other (events after) = List.filter is_other (events before)
  /\ item_name after = item_name before
  /\ item_request after = item_request before.

(** A tree as the service stores it: what its events say, not which
    objects they were in the client. *)
Definition stored_event (e : event) : event :=
  {| ref := 0; listen := listen e; event_script := event_script e |}.

Fixpoint stored_of (it : item) : item :=
  match it with
  | Item n r ev sub =>
      Item n r (option_map (map stored_event) ev)
           (match sub with
            | Some l => Some ((fix go (l : list item) : list item :=
                                 match l with
                                 | [] => []
                                 | x :: rest => stored_of x :: go rest
                                 end) l)
            | None => None
            end)
  end.

Fixpoint stored (items : list item) : list item :=
  match items with
  | [] => []
  | x :: rest => stored_of x :: stored rest
  end.

End Injector.

(* ===================================================================== *)
(** * The generated environment ([generateEnvironment]) *)
(* ===================================================================== *)

Module Env.
Import Js OpenApi.

Record variable : Type := {
  key : string;
  value : string;
  var_type : string;
  enabled : bool
}.

Record environment : Type := {
  env_name : string;
  values : list variable;
  _postman_variable_scope : string
}.

Definition generateEnvironment (a : api) : outcome environment :=
  let servers := default [ {| url := "https://api.example.com" |} ] (servers a) in
  match servers with
  | first :: _ =>
      let baseUrl := url first in
      Ok {| env_name := to_string (or_else (title a) (VStr "API")) +:+ " Environment";
            values := [
              {| key := "baseUrl"; value := baseUrl;
                 var_type := "default"; enabled := true |};
              {| key := "RESPONSE_TIME_THRESHOLD"; value := "2000";
                 var_type := "default"; enabled := true |};
              {| key := "auth_token"; value := "";
                 var_type := "secret"; enabled := true |} ];
            _postman_variable_scope := "environment" |}
  | [] => Throw TypeError
  end.

(** the document as the request body carries it *)
Definition variable_val (v : variable) : val :=
  VObj [ ("key", VStr (key v)); ("value", VStr (value v));
         ("type", VStr (var_type v)); ("enabled", VBool (enabled v)) ].

Definition environment_val (e : environment) : val :=
  VObj [ ("name", VStr (env_name e));
         ("values", VArr (map variable_val (values e)));
         ("_postman_variable_scope", VStr (_postman_variable_scope e)) ].

End Env.

(* ===================================================================== *)
(** * The remote service, the client and the orchestrator *)
(* ===================================================================== *)

Module Remote.
Import Js.

Definition POSTMAN_API_BASE : string := "https://api.getpostman.com".

(** One [fetch]: method, URL, the [X-Api-Key] header, and the JSON body
    when one is sent. *)
Record call : Type := {
  call_method : string;
  call_url : string;
  call_key : string;
  call_body : option val
}.

(** What comes back: nothing ([fetch] rejects), or a status with a body
    that parses as JSON ([Some]) or does not ([None]). *)
Inductive reply : Type :=
  | NoReply
  | Reply (status : nat) (data : option val).

(** [response.ok] *)
Definition ok (status : nat) : bool := (200 <=? status)%nat && (status <=? 299)%nat.

(** Everything a run does that the outside can see, in order.  The log
    helpers of spec-hub-sync.js are recorded by name, without colours;
    [LogFailure msg e] is [logError(`${msg}${e.message}`)]. *)
Inductive event : Type :=
  | Fetch (c : call)
  | Sleep (ms : nat)
  | ConsoleLog (msg : string)
  | ConsoleWarn (msg : string)
  | Log (msg : string)
  | LogStep (step msg : string)
  | LogSuccess (msg : string)
  | LogInfo (msg : string)
  | LogError (msg : string)
  | LogFailure (msg : string) (cause : exn).

(** [new SpecHubClient(apiKey, workspaceId)] *)
Record client : Type := { apiKey : val; workspaceId : val }.

Section Service.

(** The remote service is any state machine answering calls. *)
Variable St : Type.
Variable serve : St -> call -> reply * St.

(** The state a run threads: the service, and the next free name for an
    object the client creates. *)
Record world : Type := { remote : St; next_ref : N }.

(** An asynchronous function: from a world to its outcome, the world after
    it, and the events it produced. *)
Definition M (A : Type) : Type := world -> outcome A * world * list event.

Definition ret {A} (a : A) : M A := fun w => (Ok a, w, []).
Definition throw {A} (e : exn) : M A := fun w => (Throw e, w, []).

Definition bind {A B} (m : M A) (f : A -> M B) : M B :=
  fun w =>
    let '(r, w1, t1) := m w in
    match r with
    | Ok a => let '(r2, w2, t2) := f a w1 in (r2, w2, t1 ++ t2)
    | Throw e => (Throw e, w1, t1)
    end.

(** [try { m } catch (error) { handler }] *)
Definition try_catch {A} (m : M A) (handler : exn -> M A) : M A :=
  fun w =>
    let '(r, w1, t1) := m w in
    match r with
    | Ok a => (Ok a, w1, t1)
    | Throw e => let '(r2, w2, t2) := handler e w1 in (r2, w2, t1 ++ t2)
    end.

Definition emit (e : event) : M unit := fun w => (Ok tt, w, [e]).

(** a synchronous step that may throw *)
Definition lift {A} (r : outcome A) : M A := fun w => (r, w, []).

Definition fetch (c : call) : M reply :=
  fun w =>
    let '(r, s) := serve (remote w) c in
    (Ok r, {| remote := s; next_ref := next_ref w |}, [Fetch c]).

(** [await new Promise(resolve => setTimeout(resolve, ms))] *)
Definition sleep (ms : nat) : M unit := emit (Sleep ms).

Notation "'do' x <- m ; k" := (bind m (fun x => k))
  (at level 10, x name, m at level 100, k at level 200).

(** ** [SpecHubClient] *)

(** the [fetch] a [request] makes *)
Definition call_of (cl : client) (method endpoint : string) (body : val) : call :=
  {| call_method := method; call_url := POSTMAN_API_BASE +:+ endpoint;
     call_key := to_string (apiKey cl);
     call_body := if truthy body then Some body else None |}.

Definition request (cl : client) (method endpoint : string) (body : val) : M val :=
  let options := call_of cl method endpoint body in
  do response <- fetch options ;
  match response with
  | NoReply => throw FetchFailed
  | Reply status None => throw BodyNotJson
  | Reply status (Some data) =>
      if negb (ok status) then
        do detail <- lift (get data "error") ;
        throw (ApiError status (or_else detail data))
      else ret data
  end.

(** [specContent] is the text of the spec file (the orchestrator passes
    what [readFileSync] returned), so [typeof specContent === 'string']. *)
Definition uploadSpec (cl : client) (name : string) (specContent : string) (specId : val)
  : M val :=
  let specId := match specId with VUndef => VNull | _ => specId end in
  let content := VStr specContent in
  let payload := VObj [
    ("name", VStr name);
    ("type", VStr "OPENAPI:3.0");
    ("files", VArr [ VObj [ ("path", VStr "index.json"); ("content", content) ] ]) ] in
  if truthy specId then
    do _ <- request cl "PATCH" ("/specs/" +:+ to_string specId +:+ "/files/index.json")
                    (VObj [ ("content", content) ]) ;
    ret specId
  else
    do result <- request cl "POST" ("/specs?workspaceId=" +:+ to_string (workspaceId cl)) payload ;
    lift (get result "id").

Definition getSpecGeneratedCollections (cl : client) (specId : val) : M val :=
  try_catch
    (do result <- request cl "GET" ("/specs/" +:+ to_string specId +:+ "/generations/collection") VNull ;
     do collections <- lift (get result "collections") ;
     ret (or_else collections (VArr [])))
    (fun _ => ret (VArr [])).

Definition syncCollectionWithSpec (cl : client) (collectionId specId : val) : M val :=
  request cl "PUT"
    ("/collections/" +:+ to_string collectionId +:+ "/synchronizations?specId=" +:+ to_string specId)
    VNull.

Definition getCollection (cl : client) (collectionUid : val) : M val :=
  request cl "GET" ("/collections/" +:+ to_string collectionUid) VNull.

Definition updateCollection (cl : client) (collectionUid collection : val) : M val :=
  request cl "PUT" ("/collections/" +:+ to_string collectionUid)
          (VObj [ ("collection", collection) ]).

(** The [for] loop of [waitForCollectionSync] from attempt [i], with
    [remaining] attempts left. *)
Fixpoint waitForCollectionSync_from (cl : client) (collectionId : val)
    (maxAttempts i remaining : nat) : M unit :=
  match remaining with
  | O => emit (ConsoleWarn "  Sync wait timed out, but collection should be updated")
  | S k =>
      do _ <- sleep 2000 ;
      do found <- try_catch
                    (do collection <- getCollection cl collectionId ;
                     ret (truthy collection))
                    (fun _ =>
                       do _ <- emit (ConsoleLog ("  Waiting for sync... (" +:+ pretty (i + 1)%nat
                                                   +:+ "/" +:+ pretty maxAttempts +:+ ")")) ;
                       ret false) ;
      if found then ret tt
      else waitForCollectionSync_from cl collectionId maxAttempts (S i) k
  end.

Definition waitForCollectionSync (cl : client) (collectionId : val) (maxAttempts : nat)
  : M unit :=
  waitForCollectionSync_from cl collectionId maxAttempts 0 maxAttempts.

Definition listCollections (cl : client) : M val :=
  request cl "GET" ("/collections?workspace=" +:+ to_string (workspaceId cl)) VNull.

(** [collections.collections?.find(c => c.name === name)] *)
Definition findCollection (collections : val) (name : string) : outcome val :=
  obind (get collections "collections") (fun l => find_by_name_opt l name).

Fixpoint waitForCollectionGeneration_from (cl : client) (name : string)
    (maxAttempts remaining : nat) : M unit :=
  match remaining with
  | O => throw (Error ("Collection generation timed out after "
                         +:+ pretty (maxAttempts * 2)%nat +:+ " seconds"))
  | S k =>
      do _ <- sleep 2000 ;
      do collections <- listCollections cl ;
      do collection <- lift (findCollection collections name) ;
      if truthy collection then ret tt
      else waitForCollectionGeneration_from cl name maxAttempts k
  end.

Definition waitForCollectionGeneration (cl : client) (name : string) (maxAttempts : nat)
  : M unit :=
  waitForCollectionGeneration_from cl name maxAttempts maxAttempts.

(** [{ a, b, ...options }] : the properties of [options] overwrite those
    already written and otherwise follow them. *)
Fixpoint set_prop (k : string) (v : val) (props : list (string * val))
  : list (string * val) :=
  match props with
  | [] => [(k, v)]
  | (k', v') :: r =>
      if String.eqb k k' then (k, v) :: r else (k', v') :: set_prop k v r
  end.

Definition spread (base options : list (string * val)) : list (string * val) :=
  fold_left (fun acc kv => set_prop (fst kv) (snd kv) acc) options base.

(** [v ?? d] *)
Definition nullish (v d : val) : val :=
  match v with VUndef | VNull => d | _ => v end.

Definition generateOrSyncCollection (cl : client) (specId : val) (name : string)
    (options : list (string * val)) : M val :=
  do existingCollections <- getSpecGeneratedCollections cl specId ;
  do existingCollection <- lift (find_by_name existingCollections name) ;
  if truthy existingCollection then
    do id <- lift (get existingCollection "id") ;
    do _ <- emit (ConsoleLog ("  Syncing existing collection: " +:+ to_string id)) ;
    do _ <- syncCollectionWithSpec cl id specId ;
    do _ <- waitForCollectionSync cl id 10 ;
    do collections <- listCollections cl ;
    do collection <- lift (findCollection collections name) ;
    if negb (truthy collection) then
      throw (Error ("Synced collection " +:+ Generator.dq +:+ name +:+ Generator.dq +:+ " not found"))
    else lift (get collection "uid")
  else
    do _ <- emit (ConsoleLog ("  Generating new collection: " +:+ name)) ;
    let payload := VObj [
      ("name", VStr name);
      ("options", VObj (spread [
          ("enableOptionalParameters",
             nullish (default VUndef (assoc "enableOptionalParameters" options)) (VBool true));
          ("folderStrategy",
             or_else (default VUndef (assoc "folderStrategy" options)) (VStr "Tags")) ]
          options)) ] in
    do _ <- request cl "POST" ("/specs/" +:+ to_string specId +:+ "/generations/collection") payload ;
    do _ <- waitForCollectionGeneration cl name 10 ;
    do collections <- listCollections cl ;
    do collection <- lift (findCollection collections name) ;
    if negb (truthy collection) then
      throw (Error ("Generated collection " +:+ Generator.dq +:+ name +:+ Generator.dq +:+ " not found"))
    else lift (get collection "uid").

(** [this.addTestsToItems(items, testScripts)] on the client's heap: what
    it throws, the caller throws *)
Definition injecting (f : N -> list Collection.item * N * outcome unit)
  : M (list Collection.item) :=
  fun w =>
    let '(l, n, done) := f (next_ref w) in
    (obind done (fun _ => Ok l), {| remote := remote w; next_ref := n |}, []).

(** [collection.item] is iterated by [addTestsToItems], which rewrites the
    nodes in place; a value that is no array cannot be iterated. *)
Definition addTestScripts (cl : client) (collectionUid : val)
    (testScripts : Injector.reader) : M val :=
  do collectionData <- getCollection cl collectionUid ;
  do collection <- lift (get collectionData "collection") ;
  do items <- lift (get collection "item") ;
  match collection, items with
  | VObj props, VItems l =>
      do l' <- injecting (Injector.addTestsToItems testScripts l) ;
      let collection := VObj (set_prop "item" (VItems l') props) in
      do _ <- updateCollection cl collectionUid collection ;
      ret collection
  | VObj props, VArr [] =>
      do _ <- updateCollection cl collectionUid collection ;
      ret collection
  | _, _ => throw TypeError
  end.

Definition deleteSpec (cl : client) (specId : val) : M val :=
  request cl "DELETE" ("/specs/" +:+ to_string specId) VNull.

Definition deleteCollection (cl : client) (collectionUid : val) : M val :=
  request cl "DELETE" ("/collections/" +:+ to_string collectionUid) VNull.

Definition listSpecs (cl : client) : M val :=
  do result <- request cl "GET" ("/specs?workspaceId=" +:+ to_string (workspaceId cl)) VNull ;
  do specs <- lift (get result "specs") ;
  ret (or_else specs (VArr [])).

Definition findSpecByName (cl : client) (name : string) : M val :=
  do specs <- listSpecs cl ;
  lift (find_by_name specs name).

Definition getCollectionTags (cl : client) (collectionUid : val) : M val :=
  request cl "GET" ("/collections/" +:+ to_string collectionUid +:+ "/tags") VNull.

(** [tags.map(tag => ({ slug: this.validateTag(tag) }))] *)
Fixpoint formatTags (tags : list val) : outcome (list val) :=
  match tags with
  | [] => Ok []
  | tag :: rest =>
      obind (Tag.validateTag tag) (fun slug =>
      obind (formatTags rest) (fun formatted =>
      Ok (VObj [ ("slug", VStr slug) ] :: formatted)))
  end.

Definition updateCollectionTags (cl : client) (collectionUid : val) (tags : list val)
  : M val :=
  do formattedTags <- lift (formatTags tags) ;
  request cl "PUT" ("/collections/" +:+ to_string collectionUid +:+ "/tags")
          (VObj [ ("tags", VArr formattedTags) ]).

(** [client.generateCollection(specId, name, options)]: the class declares
    no method of that name (the one it declares is
    [generateOrSyncCollection]), so the callee is [undefined] and the call
    throws. *)
Definition generateCollection_undeclared (cl : client) (specId : val) (name : string)
    (options : list (string * val)) : M val :=
  throw TypeError.

(** [tagMap[type]] is one of the three arrays, or [undefined], or, for an
    inherited name, a function or the prototype: a truthy value without a
    [map] method, on which [tags.map(...)] throws. *)
Definition applyCollectionTags (cl : client) (collectionUid : val) (type : string) : M val :=
  if String.eqb type "main" then
    updateCollectionTags cl collectionUid [VStr "generated"; VStr "docs"]
  else if String.eqb type "smoke" then
    updateCollectionTags cl collectionUid [VStr "generated"; VStr "smoke"]
  else if String.eqb type "contract" then
    updateCollectionTags cl collectionUid [VStr "generated"; VStr "contract"]
  else if existsb (String.eqb type) inherited_names then
    throw TypeError
  else
    throw (Error ("Unknown collection type: " +:+ type
                    +:+ ". Use 'main', 'smoke', or 'contract'.")).

(** ** Reading a run *)

(** what [request] makes of the reply to its call *)
Definition request_outcome (r : reply) : outcome val :=
  match r with
  | NoReply => Throw FetchFailed
  | Reply status None => Throw BodyNotJson
  | Reply status (Some data) =>
      if negb (ok status) then
        obind (get data "error") (fun detail => Throw (ApiError status (or_else detail data)))
      else Ok data
  end.

(** the world after the service has answered [c] *)
Definition answered (w : world) (c : call) : world :=
  {| remote := snd (serve (remote w) c); next_ref := next_ref w |}.

(** the calls of [listSpecs] and of the two branches of [uploadSpec] *)
Definition specs_call (cl : client) : call :=
  call_of cl "GET" ("/specs?workspaceId=" +:+ to_string (workspaceId cl)) VNull.

Definition patch_call (cl : client) (specId : val) (specContent : string) : call :=
  call_of cl "PATCH" ("/specs/" +:+ to_string specId +:+ "/files/index.json")
          (VObj [ ("content", VStr specContent) ]).

Definition create_call (cl : client) (name specContent : string) : call :=
  call_of cl "POST" ("/specs?workspaceId=" +:+ to_string (workspaceId cl))
    (VObj [ ("name", VStr name);
            ("type", VStr "OPENAPI:3.0");
            ("files", VArr [ VObj [ ("path", VStr "index.json");
                                    ("content", VStr specContent) ] ]) ]).

(** the listing call of the two lookups by name, and the fetch of one
    collection *)
Definition list_call (cl : client) : call :=
  call_of cl "GET" ("/collections?workspace=" +:+ to_string (workspaceId cl)) VNull.

Definition collection_call (cl : client) (collectionId : val) : call :=
  call_of cl "GET" ("/collections/" +:+ to_string collectionId) VNull.

(** The service, asked for its collections [n] times in a row from state
    [s], answers each time with a listing that holds no collection named
    [name]. *)
Fixpoint unlisted_for (cl : client) (name : string) (n : nat) (s : St) : Prop :=
  match n with
  | O => True
  | S k =>
      let '(r, s') := serve s (list_call cl) in
      (exists data, request_outcome r = Ok data
                    /\ exists c, findCollection data name = Ok c /\ truthy c = false)
      /\ unlisted_for cl name k s'
  end.

(** The service, asked for the collection [n] times in a row from state
    [s], each time fails or answers with a falsy body. *)
Fixpoint unready_for (cl : client) (collectionId : val) (n : nat) (s : St) : Prop :=
  match n with
  | O => True
  | S k =>
      let '(r, s') := serve s (collection_call cl collectionId) in
      match request_outcome r with
      | Ok collection => truthy collection = false
      | Throw _ => True
      end
      /\ unready_for cl collectionId k s'
  end.

End Service.

Arguments remote {St} _.
Arguments next_ref {St} _.

(** the messages of the two poll loops *)
Definition timeout_message (maxAttempts : nat) : string :=
  "Collection generation timed out after " +:+ pretty (maxAttempts * 2)%nat +:+ " seconds".

Definition waiting_message (i maxAttempts : nat) : string :=
  "  Waiting for sync... (" +:+ pretty (i + 1)%nat +:+ "/" +:+ pretty maxAttempts +:+ ")".

Definition sync_warning : string :=
  "  Sync wait timed out, but collection should be updated".

(** the events of [n] turns of a poll that finds nothing *)
Fixpoint turns (c : call) (n : nat) : list event :=
  match n with
  | O => []
  | S k => Sleep 2000 :: Fetch c :: turns c k
  end.


(** the calls of a run, in order *)
Fixpoint fetches (t : list event) : list call :=
  match t with
  | [] => []
  | Fetch c :: rest => c :: fetches rest
  | _ :: rest => fetches rest
  end.

(** ** [sync] (spec-hub-sync.js) *)

Module Options.

(** what [parseArgs] returns *)
Record t : Type := {
  spec : val;
  workspaceId : val;
  apiKey : val;
  dryRun : bool;
  testLevel : val;
  help : bool
}.

End Options.

(** an entry of [generatedCollections] *)
Record generated : Type := { gen_name : string; gen_uid : val; gen_type : string }.

Definition nl : string := String "010"%char EmptyString.

Definition rule : string :=
  "═══════════════════════════════════════════════════════════".

Definition show_bool (b : bool) : string := if b then "true" else "false".

(** [type.toUpperCase()] *)
Fixpoint toUpperCase (s : string) : string :=
  match s with
  | EmptyString => EmptyString
  | String c r =>
      String (if Tag.is_lower c then ascii_of_nat (nat_of_ascii c - 32) else c)
             (toUpperCase r)
  end.

Section Orchestrator.

Variable St : Type.
Variable serve : St -> call -> reply * St.

(** parser.js and the file system are outside the sources at hand. *)
Variable parseSpec : val -> outcome OpenApi.api.
Variable readFileSync : val -> outcome string.
Variable extractEndpoints : OpenApi.api -> list OpenApi.endpoint.
Variable getResponseSchema :
  list (string * OpenApi.response) -> string -> option OpenApi.schemaInfo.
Variable getRequiredFields : val -> list string.

(** [sync] calls [client.generateCollection], which the client class does
    not declare: as the sources stand, the call is
    [generateCollection_undeclared] and throws.  The stages are written
    over the call, so that what is proved of them for every method holds
    of that one too; the sample runs are runs with
    [generateCollection_undeclared]. *)
Variable generateCollection :
  client -> val -> string -> list (string * val) -> M St val.

(** the names [Array.prototype] holds in the engine at hand; they are read
    only through a script object whose prototype an endpoint named
    [__proto__] has replaced (see [Injector.generated]) *)
Variable arrayMembers : list string.

Notation "'do' x <- m ; k" := (bind St m (fun x => k))
  (at level 10, x name, m at level 100, k at level 200).

Abbreviation emit := (emit St).
Abbreviation ret := (ret St).
Abbreviation throw := (throw St).
Abbreviation lift := (lift St).

Definition generationOptions : list (string * val) :=
  [ ("enableOptionalParameters", VBool true); ("folderStrategy", VStr "Tags") ].

Definition generateSmoke (o : Options.t) : bool :=
  is_str (Options.testLevel o) "all" || is_str (Options.testLevel o) "smoke".

Definition generateContract (o : Options.t) : bool :=
  is_str (Options.testLevel o) "all" || is_str (Options.testLevel o) "contract".

(** the three option checks, each ending the process *)
Definition validateOptions (o : Options.t) : M St unit :=
  do _ <- (if negb (truthy (Options.spec o)) then
             do _ <- emit (LogError "Spec file path is required (--spec)") ;
             throw (ProcessExit 1)
           else ret tt) ;
  do _ <- (if negb (truthy (Options.apiKey o)) then
             do _ <- emit (LogError "Postman API key is required (--api-key or env.POSTMAN_API_KEY)") ;
             throw (ProcessExit 1)
           else ret tt) ;
  if negb (truthy (Options.workspaceId o)) then
    do _ <- emit (LogError "Workspace ID is required (--workspace or env.POSTMAN_WORKSPACE_ID)") ;
    throw (ProcessExit 1)
  else ret tt.

(** Step 2: Check for existing spec *)
Definition checkExistingSpec (cl : client) (specName : string) : M St val :=
  do _ <- emit (LogStep "Step 2" "Checking for existing spec in Spec Hub") ;
  try_catch St
    (do existingSpec <- findSpecByName St serve cl specName ;
     if truthy existingSpec then
       do specId <- lift (get existingSpec "id") ;
       do _ <- emit (LogInfo ("Found existing spec: " +:+ to_string specId)) ;
       ret specId
     else
       do _ <- emit (LogInfo "No existing spec found - will create new") ;
       ret VNull)
    (fun _ =>
       do _ <- emit (LogInfo "Could not check for existing spec - will create new") ;
       ret VNull).

(** Step 3: Upload spec to Spec Hub *)
Definition uploadStage (o : Options.t) (cl : client) (specName : string) (specId : val)
  : M St val :=
  do _ <- emit (LogStep "Step 3" "Uploading spec to Spec Hub") ;
  do specContent <- lift (readFileSync (Options.spec o)) ;
  do specId <- uploadSpec St serve cl specName specContent specId ;
  do _ <- emit (LogSuccess ("Spec uploaded: " +:+ to_string specId)) ;
  ret specId.

(** Steps 2 and 3 *)
Definition resolveAndUpload (o : Options.t) (cl : client) (specName : string) : M St val :=
  do specId <- checkExistingSpec cl specName ;
  uploadStage o cl specName specId.

(** Step 4: Generate docs collection (always, no tests) *)
Definition docsStage (cl : client) (specName : string) (specId : val)
  : M St (list generated) :=
  do _ <- emit (LogStep "Step 4" "Generating docs collection from Spec Hub") ;
  let docsCollectionName := specName +:+ " - Docs" in
  try_catch St
    (do docsCollectionUid <- generateCollection cl specId docsCollectionName generationOptions ;
     do _ <- emit (LogSuccess ("Docs collection generated: " +:+ to_string docsCollectionUid)) ;
     ret [ {| gen_name := docsCollectionName; gen_uid := docsCollectionUid;
              gen_type := "docs" |} ])
    (fun error =>
       do _ <- emit (LogFailure "Failed to generate docs collection: " error) ;
       ret []).

(** Step 5: Generate smoke test collection *)
Definition smokeStage (a : OpenApi.api) (cl : client) (specName : string) (specId : val)
  : M St (list generated) :=
  do _ <- emit (LogInfo "Waiting for Spec Hub...") ;
  do _ <- sleep St 3000 ;
  do _ <- emit (LogStep "Step 5" "Generating smoke test collection from Spec Hub") ;
  let smokeCollectionName := specName +:+ " - Smoke Tests" in
  do smokeCollectionUid <- generateCollection cl specId smokeCollectionName generationOptions ;
  do _ <- emit (LogSuccess ("Smoke test collection generated: " +:+ to_string smokeCollectionUid)) ;
  do _ <- emit (LogStep "Step 6" "Generating and injecting smoke tests") ;
  let smokeTestScripts :=
    Generator.generateTestScriptsForSpec extractEndpoints getResponseSchema getRequiredFields
      a Generator.SMOKE in
  let smokeTestCount := (Z.of_nat (Generator.keyCount smokeTestScripts) - 1)%Z in
  do _ <- emit (LogInfo ("Generated " +:+ pretty smokeTestCount +:+ " smoke test scripts")) ;
  do _ <- addTestScripts St serve cl smokeCollectionUid
            (Injector.generated arrayMembers smokeTestScripts) ;
  do _ <- emit (LogSuccess "Smoke tests injected into collection") ;
  ret [ {| gen_name := smokeCollectionName; gen_uid := smokeCollectionUid;
           gen_type := "smoke" |} ].

(** Step 6: Generate contract test collection *)
Definition contractStage (o : Options.t) (a : OpenApi.api) (cl : client) (specName : string)
    (specId : val) : M St (list generated) :=
  do _ <- emit (LogInfo "Waiting for Spec Hub...") ;
  do _ <- sleep St 3000 ;
  let contractStepNum := if generateSmoke o then "7" else "5" in
  do _ <- emit (LogStep ("Step " +:+ contractStepNum)
                        "Generating contract test collection from Spec Hub") ;
  let contractCollectionName := specName +:+ " - Contract Tests" in
  do contractCollectionUid <-
       generateCollection cl specId contractCollectionName generationOptions ;
  do _ <- emit (LogSuccess ("Contract test collection generated: "
                              +:+ to_string contractCollectionUid)) ;
  let injectStepNum := if generateSmoke o then "8" else "6" in
  do _ <- emit (LogStep ("Step " +:+ injectStepNum) "Generating and injecting contract tests") ;
  let contractTestScripts :=
    Generator.generateTestScriptsForSpec extractEndpoints getResponseSchema getRequiredFields
      a Generator.CONTRACT in
  let contractTestCount := (Z.of_nat (Generator.keyCount contractTestScripts) - 1)%Z in
  do _ <- emit (LogInfo ("Generated " +:+ pretty contractTestCount +:+ " contract test scripts")) ;
  do _ <- addTestScripts St serve cl contractCollectionUid
            (Injector.generated arrayMembers contractTestScripts) ;
  do _ <- emit (LogSuccess "Contract tests injected into collection") ;
  ret [ {| gen_name := contractCollectionName; gen_uid := contractCollectionUid;
           gen_type := "contract" |} ].

(** Step 7: Create/update environment *)
Definition environmentStage (o : Options.t) (a : OpenApi.api) (cl : client) : M St unit :=
  let envStepNum :=
    if generateSmoke o && generateContract o then "9"
    else if generateSmoke o || generateContract o then "7" else "5" in
  do _ <- emit (LogStep ("Step " +:+ envStepNum) "Creating environment") ;
  do environment <- lift (Env.generateEnvironment a) ;
  do environments <-
       request St serve cl "GET"
         ("/environments?workspace=" +:+ to_string (Options.workspaceId o)) VNull ;
  do existingEnv <-
       lift (obind (get environments "environments")
                   (fun l => find_by_name_opt l (Env.env_name environment))) ;
  if truthy existingEnv then
    do uid <- lift (get existingEnv "uid") ;
    do _ <- request St serve cl "PUT" ("/environments/" +:+ to_string uid)
              (VObj [ ("environment", Env.environment_val environment) ]) ;
    emit (LogSuccess ("Environment updated: " +:+ to_string uid))
  else
    do envResult <-
         request St serve cl "POST"
           ("/environments?workspace=" +:+ to_string (Options.workspaceId o))
           (VObj [ ("environment", Env.environment_val environment) ]) ;
    do env <- lift (get envResult "environment") ;
    do uid <- lift (get_opt env "uid") ;
    emit (LogSuccess ("Environment created: " +:+ to_string uid)).

Fixpoint summariseCollections (l : list generated) : M St unit :=
  match l with
  | [] => ret tt
  | coll :: rest =>
      do _ <- emit (LogSuccess (toUpperCase (gen_type coll) +:+ ": " +:+ gen_name coll)) ;
      do _ <- emit (Log ("   UID: " +:+ to_string (gen_uid coll))) ;
      summariseCollections rest
  end.

Definition summary (o : Options.t) (specName : string) (specId : val)
    (generatedCollections : list generated) : M St unit :=
  do _ <- emit (Log (nl +:+ rule)) ;
  do _ <- emit (Log "  SYNC SUMMARY") ;
  do _ <- emit (Log (rule +:+ nl)) ;
  do _ <- emit (LogSuccess ("Spec: " +:+ specName)) ;
  do _ <- emit (LogSuccess ("Spec Hub ID: " +:+ to_string specId)) ;
  do _ <- summariseCollections generatedCollections ;
  do _ <- emit (Log (nl +:+ "📋 Next Steps:")) ;
  do _ <- emit (Log "  1. Open Postman and verify collections in workspace") ;
  do _ <- (if generateSmoke o then
             emit (Log ("  2. Run smoke tests: postman collection run " +:+ Generator.dq
                          +:+ specName +:+ " - Smoke Tests" +:+ Generator.dq))
           else ret tt) ;
  do _ <- (if generateContract o then
             emit (Log ("  3. Run contract tests: postman collection run " +:+ Generator.dq
                          +:+ specName +:+ " - Contract Tests" +:+ Generator.dq))
           else ret tt) ;
  do _ <- emit (Log ("  4. On spec change, re-run: node src/spec-hub-sync.js --spec "
                       +:+ to_string (Options.spec o))) ;
  emit (Log (nl +:+ rule +:+ nl)).

(** the three options [sync] insists on *)
Definition valid (o : Options.t) : Prop :=
  truthy (Options.spec o) = true
  /\ truthy (Options.apiKey o) = true
  /\ truthy (Options.workspaceId o) = true.

(** what a run that is no dry run has logged when Step 2 begins *)
Definition prelude (o : Options.t) (a : OpenApi.api) : list event :=
  [ Log (nl +:+ rule);
    Log "  Spec Hub Sync";
    Log (rule +:+ nl);
    LogInfo ("Test level: " +:+ to_string (Options.testLevel o));
    LogInfo ("Generate smoke tests: " +:+ show_bool (generateSmoke o));
    LogInfo ("Generate contract tests: " +:+ show_bool (generateContract o) +:+ nl);
    LogStep "Step 1" "Parsing OpenAPI spec";
    LogSuccess ("Parsed: " +:+ to_string (or_else (OpenApi.title a) (VStr "Untitled API"))
                  +:+ " ("
                  +:+ to_string (or_else (OpenApi.version a) (VStr "unknown version"))
                  +:+ ")") ].

Definition specNameOf (a : OpenApi.api) : string :=
  to_string (or_else (OpenApi.title a) (VStr "Untitled API")).

Definition clientOf (o : Options.t) : client :=
  {| apiKey := Options.apiKey o; workspaceId := Options.workspaceId o |}.

(** the smoke and the contract stage as [sync] runs them: only when the
    test level selects them *)
Definition smokeTier (o : Options.t) (a : OpenApi.api) (cl : client) (specName : string)
    (specId : val) : M St (list generated) :=
  if generateSmoke o then smokeStage a cl specName specId else ret [].

Definition contractTier (o : Options.t) (a : OpenApi.api) (cl : client) (specName : string)
    (specId : val) : M St (list generated) :=
  if generateContract o then contractStage o a cl specName specId else ret [].

(** the stages after the docs collection *)
Definition testStages (o : Options.t) (a : OpenApi.api) (cl : client) (specName : string)
    (specId : val) (generatedCollections : list generated) : M St unit :=
  do smoke <- smokeTier o a cl specName specId ;
  do contract <- contractTier o a cl specName specId ;
  do _ <- environmentStage o a cl ;
  summary o specName specId (generatedCollections ++ smoke ++ contract).

Definition sync (o : Options.t) : M St unit :=
  do _ <- emit (Log (nl +:+ rule)) ;
  do _ <- emit (Log "  Spec Hub Sync") ;
  do _ <- emit (Log (rule +:+ nl)) ;
  do _ <- validateOptions o ;
  do _ <- emit (LogInfo ("Test level: " +:+ to_string (Options.testLevel o))) ;
  do _ <- emit (LogInfo ("Generate smoke tests: " +:+ show_bool (generateSmoke o))) ;
  do _ <- emit (LogInfo ("Generate contract tests: " +:+ show_bool (generateContract o) +:+ nl)) ;
  do _ <- (if Options.dryRun o then
             emit (LogInfo ("DRY RUN MODE - No changes will be made" +:+ nl))
           else ret tt) ;
  let cl := {| apiKey := Options.apiKey o; workspaceId := Options.workspaceId o |} in
  do _ <- emit (LogStep "Step 1" "Parsing OpenAPI spec") ;
  do a <- lift (parseSpec (Options.spec o)) ;
  let specName := to_string (or_else (OpenApi.title a) (VStr "Untitled API")) in
  do _ <- emit (LogSuccess ("Parsed: " +:+ specName +:+ " ("
                              +:+ to_string (or_else (OpenApi.version a) (VStr "unknown version"))
                              +:+ ")")) ;
  if Options.dryRun o then
    emit (LogInfo "Dry run complete - spec is valid")
  else
    do specId <- resolveAndUpload o cl specName ;
    do docs <- docsStage cl specName specId ;
    testStages o a cl specName specId docs.

End Orchestrator.

End Remote.

(* ===================================================================== *)
(** * The calls of the client, by name *)
(* ===================================================================== *)

Module Routes.
Import Js Remote.

(** the call of [getSpecGeneratedCollections] *)
Definition generations_call (cl : client) (specId : val) : call :=
  call_of cl "GET" ("/specs/" +:+ to_string specId +:+ "/generations/collection") VNull.

(** the call of [syncCollectionWithSpec] *)
Definition synchronization_call (cl : client) (collectionId specId : val) : call :=
  call_of cl "PUT"
    ("/collections/" +:+ to_string collectionId +:+ "/synchronizations?specId="
       +:+ to_string specId)
    VNull.

(** what the generation payload holds for a caller who passes no option *)
Definition generation_defaults : list (string * val) :=
  [ ("enableOptionalParameters", VBool true); ("folderStrategy", VStr "Tags") ].

(** the [options] member of the generation payload:
    [{ enableOptionalParameters: options.enableOptionalParameters ?? true,
       folderStrategy: options.folderStrategy || 'Tags', ...options }] *)
Definition generation_options (options : list (string * val)) : list (string * val) :=
  spread [
      ("enableOptionalParameters",
         nullish (default VUndef (assoc "enableOptionalParameters" options)) (VBool true));
      ("folderStrategy",
         or_else (default VUndef (assoc "folderStrategy" options)) (VStr "Tags")) ]
    options.

(** the POST of [generateOrSyncCollection] *)
Definition generation_call (cl : client) (specId : val) (name : string)
    (options : list (string * val)) : call :=
  call_of cl "POST" ("/specs/" +:+ to_string specId +:+ "/generations/collection")
    (VObj [ ("name", VStr name); ("options", VObj (generation_options options)) ]).

(** the call of [updateCollection] *)
Definition update_call (cl : client) (collectionUid collection : val) : call :=
  call_of cl "PUT" ("/collections/" +:+ to_string collectionUid)
    (VObj [ ("collection", collection) ]).

(** [{ slug }] *)
Definition slug_val (slug : string) : val := VObj [ ("slug", VStr slug) ].

(** the call of [updateCollectionTags] once the tags are formatted *)
Definition tags_call (cl : client) (collectionUid : val) (slugs : list string) : call :=
  call_of cl "PUT" ("/collections/" +:+ to_string collectionUid +:+ "/tags")
    (VObj [ ("tags", VArr (map slug_val slugs)) ]).

(** the three calls of the environment stage of [sync] *)
Definition environments_call (o : Options.t) (cl : client) : call :=
  call_of cl "GET" ("/environments?workspace=" +:+ to_string (Options.workspaceId o)) VNull.

Definition environment_update_call (cl : client) (uid : val) (e : Env.environment) : call :=
  call_of cl "PUT" ("/environments/" +:+ to_string uid)
    (VObj [ ("environment", Env.environment_val e) ]).

Definition environment_create_call (o : Options.t) (cl : client) (e : Env.environment)
  : call :=
  call_of cl "POST" ("/environments?workspace=" +:+ to_string (Options.workspaceId o))
    (VObj [ ("environment", Env.environment_val e) ]).

(** [environments.environments?.find(e => e.name === name)] *)
Definition findEnvironment (environments : val) (name : string) : outcome val :=
  obind (get environments "environments") (fun l => find_by_name_opt l name).

(** what [getSpecGeneratedCollections] returns, read off the reply to its
    call: the [collections] member, or an empty array when the request
    fails or the member is falsy *)
Definition generated_of (r : reply) : val :=
  match obind (request_outcome r) (fun result => get result "collections") with
  | Ok collections => or_else collections (VArr [])
  | Throw _ => VArr []
  end.

(** the three types [applyCollectionTags] knows, each with its second tag *)
Definition tag_kinds : list (string * string) :=
  [ ("main", "docs"); ("smoke", "smoke"); ("contract", "contract") ].

Definition unknown_type_message (type : string) : string :=
  "Unknown collection type: " +:+ type +:+ ". Use 'main', 'smoke', or 'contract'.".

(** a call to the environments of the workspace *)
Definition to_environments (c : call) : Prop :=
  exists rest, call_url c = POSTMAN_API_BASE +:+ "/environments" +:+ rest.

End Routes.

(* ===================================================================== *)
(** * Services seen by the poll loops *)
(* ===================================================================== *)

Module Polls.
Import Js Remote.

Section Service.

Variable St : Type.
Variable serve : St -> call -> reply * St.

(** The service, asked for its collections from state [s], answers [k]
    times with a listing that holds no collection named [name], and then
    with one that does. *)
Fixpoint listed_at (cl : client) (name : string) (k : nat) (s : St) : Prop :=
  match k with
  | O =>
      exists data c,
        request_outcome (fst (serve s (list_call cl))) = Ok data
        /\ findCollection data name = Ok c /\ truthy c = true
  | S k' =>
      let '(r, s') := serve s (list_call cl) in
      (exists data, request_outcome r = Ok data
                    /\ exists c, findCollection data name = Ok c /\ truthy c = false)
      /\ listed_at cl name k' s'
  end.

(** The service, asked for the collection from state [s], fails or
    answers with a falsy body [k] times, and then answers with a truthy
    one. *)
Fixpoint ready_at (cl : client) (collectionId : val) (k : nat) (s : St) : Prop :=
  match k with
  | O =>
      exists collection,
        request_outcome (fst (serve s (collection_call cl collectionId))) = Ok collection
        /\ truthy collection = true
  | S k' =>
      let '(r, s') := serve s (collection_call cl collectionId) in
      match request_outcome r with
      | Ok collection => truthy collection = false
      | Throw _ => True
      end
      /\ ready_at cl collectionId k' s'
  end.

End Service.

End Polls.

(* ===================================================================== *)
(** * Pre-request scripts ([generatePreRequestScript]) *)
(* ===================================================================== *)

Module PreRequest.
Import Js OpenApi.

Definition is_open (c : ascii) : bool := Ascii.eqb c "{".
Definition is_close (c : ascii) : bool := Ascii.eqb c "}".

(** [[^}]+] up to a [}] : the characters of [s] before its first closing
    brace, when it has one. *)
Fixpoint before_close (s : string) : option string :=
  match s with
  | EmptyString => None
  | String c r =>
      if is_close c then Some EmptyString
      else option_map (String c) (before_close r)
  end.

(** [/\{([^}]+)\}/] tried where [s] starts: the text it matches.  The
    class [[^}]] takes every character up to the first closing brace, and
    the [+] wants at least one. *)
Definition match_here (s : string) : option string :=
  match s with
  | String c r =>
      if is_open c then
        match before_close r with
        | Some (String a inner) => Some (String c (String a inner +:+ "}"))
        | _ => None
        end
      else None
  | EmptyString => None
  end.

(** The matches of the global pattern, left to right: a match is tried at
    each position that no earlier match covers; [skip] counts the
    characters of [s] the last match still covers. *)
Fixpoint matches (skip : nat) (s : string) : list string :=
  match s with
  | EmptyString => []
  | String c r =>
      match skip with
      | S k => matches k r
      | O =>
          match match_here s with
          | Some m => m :: matches (String.length m - 1) r
          | None => matches 0 r
          end
      end
  end.

(** [endpoint.path.match(/\{([^}]+)\}/g) || []] *)
Definition pathParams (path : string) : list string := matches 0 path.

(** [param.replace(/[{}]/g, '')] *)
Fixpoint strip_braces (s : string) : string :=
  match s with
  | EmptyString => EmptyString
  | String c r =>
      if is_open c || is_close c then strip_braces r else String c (strip_braces r)
  end.

Definition guard_line (paramName : string) : string :=
  "if (!pm.variables.get(" +:+ Generator.dq +:+ paramName +:+ Generator.dq +:+ ")) {".

Definition setter_line (paramName : string) : string :=
  "    pm.variables.set(" +:+ Generator.dq +:+ paramName +:+ Generator.dq +:+ ", "
    +:+ Generator.dq +:+ "test-" +:+ paramName +:+ "-001" +:+ Generator.dq +:+ ");".

(** the three lines pushed for one parameter *)
Definition parameter_lines (param : string) : list string :=
  let paramName := strip_braces param in
  [ guard_line paramName; setter_line paramName; "}" ].

(** [security] is [endpoint.security], an array of requirement objects
    when the operation declares one ([None] when it does not); the
    descriptor record of the test generators does not carry it. *)
Definition generatePreRequestScript (e : endpoint) (security : option (list val))
  : list string :=
  let scripts := [ "// Pre-request script for: " +:+ method e +:+ " " +:+ path e; "" ] in
  let pathParams := pathParams (path e) in
  let scripts :=
    if (0 <? length pathParams)%nat then
      scripts ++ [ "// Set path parameters if not defined" ]
        ++ flat_map parameter_lines pathParams
        ++ [ "" ]
    else scripts in
  match security with
  | Some (_ :: _) =>
      scripts ++ [
        "// Authentication setup";
        "// Set auth token via environment: pm.environment.set(" +:+ Generator.dq
          +:+ "auth_token" +:+ Generator.dq +:+ ", " +:+ Generator.dq +:+ "your-token"
          +:+ Generator.dq +:+ ")";
        "" ]
  | _ => scripts
  end.

(** ** Reading a path and a script *)

(** A path template written from its parts: each part is the literal text
    before a parameter and the parameter's name; [tail] follows the last. *)
Fixpoint template (parts : list (string * string)) (tail : string) : string :=
  match parts with
  | [] => tail
  | (literal, name) :: rest => literal +:+ "{" +:+ name +:+ "}" +:+ template rest tail
  end.

Definition brace_free (s : string) : bool :=
  Tag.all_chars (fun c => negb (is_open c || is_close c)) s.

Definition is_setter (line : string) : bool :=
  String.prefix "    pm.variables.set(" line.

(** a part of a template: text and a name without braces, the name not
    empty *)
Definition plain_part (p : string * string) : Prop :=
  brace_free (fst p) = true /\ brace_free (snd p) = true /\ snd p <> EmptyString.

(** What [matches] yields is a match: braces around at least one
    character that is no closing brace *)
Definition well_matched (m : string) : Prop :=
  exists a inner,
    m = "{" +:+ String a inner +:+ "}"
    /\ Tag.all_chars (fun c => negb (is_close c)) (String a inner) = true.

End PreRequest.

(* ===================================================================== *)
(** * The command line of spec-hub-sync.js *)
(* ===================================================================== *)

Module Cli.
Import Js Remote.

(** the two variables read from [process.env]: a string, or [undefined] *)
Record env : Type := { POSTMAN_WORKSPACE_ID : val; POSTMAN_API_KEY : val }.

(** [options.spec = v] and the like *)
Definition with_spec (v : val) (o : Options.t) : Options.t :=
  {| Options.spec := v; Options.workspaceId := Options.workspaceId o;
     Options.apiKey := Options.apiKey o; Options.dryRun := Options.dryRun o;
     Options.testLevel := Options.testLevel o; Options.help := Options.help o |}.

Definition with_workspaceId (v : val) (o : Options.t) : Options.t :=
  {| Options.spec := Options.spec o; Options.workspaceId := v;
     Options.apiKey := Options.apiKey o; Options.dryRun := Options.dryRun o;
     Options.testLevel := Options.testLevel o; Options.help := Options.help o |}.

Definition with_apiKey (v : val) (o : Options.t) : Options.t :=
  {| Options.spec := Options.spec o; Options.workspaceId := Options.workspaceId o;
     Options.apiKey := v; Options.dryRun := Options.dryRun o;
     Options.testLevel := Options.testLevel o; Options.help := Options.help o |}.

Definition with_testLevel (v : val) (o : Options.t) : Options.t :=
  {| Options.spec := Options.spec o; Options.workspaceId := Options.workspaceId o;
     Options.apiKey := Options.apiKey o; Options.dryRun := Options.dryRun o;
     Options.testLevel := v; Options.help := Options.help o |}.

Definition with_dryRun (o : Options.t) : Options.t :=
  {| Options.spec := Options.spec o; Options.workspaceId := Options.workspaceId o;
     Options.apiKey := Options.apiKey o; Options.dryRun := true;
     Options.testLevel := Options.testLevel o; Options.help := Options.help o |}.

Definition with_help (o : Options.t) : Options.t :=
  {| Options.spec := Options.spec o; Options.workspaceId := Options.workspaceId o;
     Options.apiKey := Options.apiKey o; Options.dryRun := Options.dryRun o;
     Options.testLevel := Options.testLevel o; Options.help := true |}.

(** the [case] labels of the switch *)
Definition is_spec (arg : string) : bool := String.eqb arg "--spec" || String.eqb arg "-s".
Definition is_workspace (arg : string) : bool :=
  String.eqb arg "--workspace" || String.eqb arg "-w".
Definition is_api_key (arg : string) : bool :=
  String.eqb arg "--api-key" || String.eqb arg "-k".
Definition is_test_level (arg : string) : bool :=
  String.eqb arg "--test-level" || String.eqb arg "-t".
Definition is_dry_run (arg : string) : bool :=
  String.eqb arg "--dry-run" || String.eqb arg "-d".
Definition is_help (arg : string) : bool := String.eqb arg "--help" || String.eqb arg "-h".

(** The [for] loop of [parseArgs] from the argument it has reached.  A
    label that takes a value reads [args[++i]], the next argument whatever
    it is, or [undefined] after the last one. *)
Fixpoint parseArgs_from (args : list string) (options : Options.t) : Options.t :=
  match args with
  | [] => options
  | arg :: rest =>
      if is_spec arg then
        match rest with
        | v :: rest' => parseArgs_from rest' (with_spec (VStr v) options)
        | [] => with_spec VUndef options
        end
      else if is_workspace arg then
        match rest with
        | v :: rest' => parseArgs_from rest' (with_workspaceId (VStr v) options)
        | [] => with_workspaceId VUndef options
        end
      else if is_api_key arg then
        match rest with
        | v :: rest' => parseArgs_from rest' (with_apiKey (VStr v) options)
        | [] => with_apiKey VUndef options
        end
      else if is_test_level arg then
        match rest with
        | v :: rest' => parseArgs_from rest' (with_testLevel (VStr v) options)
        | [] => with_testLevel VUndef options
        end
      else if is_dry_run arg then parseArgs_from rest (with_dryRun options)
      else if is_help arg then parseArgs_from rest (with_help options)
      else parseArgs_from rest options
  end.

(** the object [parseArgs] starts from *)
Definition defaults (e : env) : Options.t :=
  {| Options.spec := VNull;
     Options.workspaceId := POSTMAN_WORKSPACE_ID e;
     Options.apiKey := POSTMAN_API_KEY e;
     Options.dryRun := false;
     Options.testLevel := VStr "all";
     Options.help := false |}.

(** [argv] is [process.argv.slice(2)] *)
Definition parseArgs (e : env) (argv : list string) : Options.t :=
  parseArgs_from argv (defaults e).

(** the text [showHelp] prints *)
Definition helpText : string := "
Spec Hub Sync - Upload specs and generate collections with contract tests

Usage:
  node src/spec-hub-sync.js --spec <path> [options]

Options:
  --spec, -s        Path to OpenAPI spec file (required)
  --workspace, -w   Postman workspace ID (default: env.POSTMAN_WORKSPACE_ID)
  --api-key, -k     Postman API key (default: env.POSTMAN_API_KEY)
  --test-level, -t  Test level to generate: smoke, contract, or all (default: all)
  --dry-run, -d     Validate without uploading
  --help, -h        Show this help message

Environment Variables:
  POSTMAN_API_KEY       Required - Your Postman API key
  POSTMAN_WORKSPACE_ID  Required - Target workspace ID

Examples:
  # Generate all collections (docs + smoke + contract)
  node src/spec-hub-sync.js --spec specs/api.yaml

  # Generate only smoke tests
  node src/spec-hub-sync.js --spec specs/api.yaml --test-level smoke

  # Generate only contract tests
  node src/spec-hub-sync.js --spec specs/api.yaml --test-level contract

  # With explicit credentials
  node src/spec-hub-sync.js --spec specs/api.yaml --workspace <id> --api-key <key>

  # Dry run (validate only)
  node src/spec-hub-sync.js --spec specs/api.yaml --dry-run
".

(** What a program leaves behind: its exit code, the service and the heap
    as it left them, what it logged, and what it reported on the error
    stream. *)
Record finished (W E : Type) : Type := {
  exit_code : nat;
  final : W;
  stdout : list event;
  stderr : list E
}.
Arguments exit_code {W E} _.
Arguments final {W E} _.
Arguments stdout {W E} _.
Arguments stderr {W E} _.

Section Program.

Variable St : Type.
Variable serve : St -> call -> reply * St.
Variable parseSpec : val -> outcome OpenApi.api.
Variable readFileSync : val -> outcome string.
Variable extractEndpoints : OpenApi.api -> list OpenApi.endpoint.
Variable getResponseSchema :
  list (string * OpenApi.response) -> string -> option OpenApi.schemaInfo.
Variable getRequiredFields : val -> list string.
Variable generateCollection :
  client -> val -> string -> list (string * val) -> M St val.
Variable arrayMembers : list string.

(** The statements under [// Run]: parse the arguments, show the help and
    exit with 0 when asked to, else run [sync]; an error it throws is
    logged, written to the error stream, and the process exits with 1.
    [process.exit] inside [sync] ends the process there, with its code. *)
Definition main (e : env) (argv : list string) (w : world St)
  : finished (world St) exn :=
  let options := parseArgs e argv in
  if Options.help options then
    {| exit_code := 0; final := w; stdout := [ConsoleLog helpText]; stderr := [] |}
  else
    let '(r, w', t) :=
      sync St serve parseSpec readFileSync extractEndpoints getResponseSchema
           getRequiredFields generateCollection arrayMembers options w in
    match r with
    | Ok _ => {| exit_code := 0; final := w'; stdout := t; stderr := [] |}
    | Throw (ProcessExit code) =>
        {| exit_code := code; final := w'; stdout := t; stderr := [] |}
    | Throw error =>
        {| exit_code := 1; final := w';
           stdout := t ++ [LogFailure "Sync failed: " error];
           stderr := [error] |}
    end.

End Program.

(** ** Reading a command line *)

(** One thing a command line says; [short] picks the one-letter label. *)
Inductive setting : Type :=
  | Spec (short : bool) (v : string)
  | Workspace (short : bool) (v : string)
  | ApiKey (short : bool) (v : string)
  | TestLevel (short : bool) (v : string)
  | DryRun (short : bool)
  | Help (short : bool)
  | Other (arg : string).

(** the arguments that say it *)
Definition tokens (s : setting) : list string :=
  match s with
  | Spec short v => [ if short then "-s" else "--spec"; v ]
  | Workspace short v => [ if short then "-w" else "--workspace"; v ]
  | ApiKey short v => [ if short then "-k" else "--api-key"; v ]
  | TestLevel short v => [ if short then "-t" else "--test-level"; v ]
  | DryRun short => [ if short then "-d" else "--dry-run" ]
  | Help short => [ if short then "-h" else "--help" ]
  | Other arg => [ arg ]
  end.

(** what it does to the options *)
Definition assign (o : Options.t) (s : setting) : Options.t :=
  match s with
  | Spec _ v => with_spec (VStr v) o
  | Workspace _ v => with_workspaceId (VStr v) o
  | ApiKey _ v => with_apiKey (VStr v) o
  | TestLevel _ v => with_testLevel (VStr v) o
  | DryRun _ => with_dryRun o
  | Help _ => with_help o
  | Other _ => o
  end.

(** a label that reads the argument after it *)
Definition takes_value (arg : string) : bool :=
  is_spec arg || is_workspace arg || is_api_key arg || is_test_level arg.

Definition is_label (arg : string) : bool :=
  takes_value arg || is_dry_run arg || is_help arg.

(** an argument given as [Other] is none of the labels *)
Definition well_formed (s : setting) : Prop :=
  match s with
  | Other arg => is_label arg = false
  | _ => True
  end.

End Cli.

(* ===================================================================== *)
(** * The cleanup script (scripts/cleanup-collections.js) *)
(* ===================================================================== *)

Module Cleanup.
Import Js Remote.

(** the workspace used when [POSTMAN_WORKSPACE_ID] is not set *)
Definition DEFAULT_WORKSPACE : string := "06d2843a-af55-4443-a628-83a45a979403".

Definition KEEP_COLLECTIONS : list string := [
  "17929829-be7ebff7-004e-4119-a147-6366aff706ce";
  "17929829-87ba4ad4-47ec-4c0e-828e-15be17146612";
  "17929829-0dd01e53-6869-48c4-b746-9daa32438582";
  "17929829-c0e8f9e8-d8ab-4dfa-8713-7671848e667b" ].

(** [KEEP_COLLECTIONS.includes(uid)] : only a string can equal a member *)
Definition kept (uid : val) : bool :=
  match uid with
  | VStr s => existsb (String.eqb s) KEEP_COLLECTIONS
  | _ => false
  end.

(** [collections.length], for the truthy values [collections] can be *)
Definition length_of (v : val) : val :=
  match v with
  | VArr l => VNum (Z.of_nat (length l))
  | VItems l => VNum (Z.of_nat (length l))
  | VStr s => VNum (Z.of_nat (String.length s))
  | VObj props => default VUndef (assoc "length" props)
  | _ => VUndef
  end.

(** [for (const collection of collections)] : an array yields its
    elements and a string its characters; nothing else among the values at
    hand can be iterated.  Of a collection node only [name] is visible to
    the loop bodies, which read [uid] and [name]. *)
Definition iterate (v : val) : outcome (list val) :=
  match v with
  | VArr l => Ok l
  | VItems l => Ok (map (fun it => VObj [ ("name", VStr (Collection.item_name it)) ]) l)
  | VStr s => Ok (map (fun c => VStr (String c EmptyString)) (list_ascii_of_string s))
  | _ => Throw TypeError
  end.

(** The first loop of [main]: [toKeep] and [toDelete], each in the order
    of the listing. *)
Fixpoint categorise (collections : list val) : outcome (list val * list val) :=
  match collections with
  | [] => Ok ([], [])
  | collection :: rest =>
      obind (get collection "uid") (fun uid =>
      obind (categorise rest) (fun '(toKeep, toDelete) =>
        if kept uid then Ok (collection :: toKeep, toDelete)
        else Ok (toKeep, collection :: toDelete)))
  end.

Section Script.

Variable St : Type.
Variable serve : St -> call -> reply * St.

(** [error.message]: the text of an error is built by the sources for the
    errors they throw and by the engine for its own; it is taken as given. *)
Variable message : exn -> string.

(** [process.env.POSTMAN_API_KEY] and [process.env.POSTMAN_WORKSPACE_ID] *)
Variable POSTMAN_API_KEY : val.
Variable POSTMAN_WORKSPACE_ID : val.

Notation "'do' x <- m ; k" := (bind St m (fun x => k))
  (at level 10, x name, m at level 100, k at level 200).

Definition WORKSPACE_ID : val := or_else POSTMAN_WORKSPACE_ID (VStr DEFAULT_WORKSPACE).

(** the [fetch] of [apiRequest]: no body is ever sent *)
Definition api_call (method endpoint : string) : call :=
  {| call_method := method; call_url := POSTMAN_API_BASE +:+ endpoint;
     call_key := to_string POSTMAN_API_KEY; call_body := None |}.

(** The body is read only where the source reads it: for the error of a
    status that is neither 2xx nor 404, and for the result of a 2xx. *)
Definition apiRequest (method endpoint : string) : M St val :=
  do response <- fetch St serve (api_call method endpoint) ;
  match response with
  | NoReply => throw St FetchFailed
  | Reply status body =>
      if negb (ok status) && negb (status =? 404)%nat then
        match body with
        | None => throw St BodyNotJson
        | Some data =>
            do detail <- lift St (get data "error") ;
            throw St (ApiError status (or_else detail data))
        end
      else if (status =? 404)%nat then ret St VNull
      else
        match body with
        | None => throw St BodyNotJson
        | Some data => ret St data
        end
  end.

(** [`  - ${c.name} (${c.uid})`] for each member of a list *)
Fixpoint describe (l : list val) : M St unit :=
  match l with
  | [] => ret St tt
  | c :: rest =>
      do name <- lift St (get c "name") ;
      do uid <- lift St (get c "uid") ;
      do _ <- emit St (ConsoleLog ("  - " +:+ to_string name +:+ " (" +:+ to_string uid +:+ ")")) ;
      describe rest
  end.

(** the last loop of [main]: one guarded deletion per member of [toDelete] *)
Fixpoint deleteEach (toDelete : list val) : M St unit :=
  match toDelete with
  | [] => ret St tt
  | collection :: rest =>
      do _ <- try_catch St
                (do uid <- lift St (get collection "uid") ;
                 do _ <- apiRequest "DELETE" ("/collections/" +:+ to_string uid) ;
                 do name <- lift St (get collection "name") ;
                 emit St (ConsoleLog ("✅ Deleted: " +:+ to_string name)))
                (fun error =>
                   do name <- lift St (get collection "name") ;
                   emit St (ConsoleLog ("❌ Failed to delete " +:+ to_string name +:+ ": "
                                          +:+ message error))) ;
      deleteEach rest
  end.

Definition main : M St unit :=
  do _ <- emit St (ConsoleLog ("🔍 Fetching collections from workspace..." +:+ nl)) ;
  do result <- apiRequest "GET" ("/collections?workspace=" +:+ to_string WORKSPACE_ID) ;
  do listed <- lift St (get result "collections") ;
  let collections := or_else listed (VArr []) in
  do _ <- emit St (ConsoleLog ("Found " +:+ to_string (length_of collections)
                                 +:+ " collections:" +:+ nl)) ;
  do members <- lift St (iterate collections) ;
  do sorted <- lift St (categorise members) ;
  let '(toKeep, toDelete) := sorted in
  do _ <- emit St (ConsoleLog "✅ Keeping (canonical):") ;
  do _ <- describe toKeep ;
  do _ <- emit St (ConsoleLog (nl +:+ "🗑️  Deleting (orphaned/test):")) ;
  do _ <- describe toDelete ;
  do _ <- emit St (ConsoleLog (nl +:+ "Delete " +:+ pretty (length toDelete)
                                 +:+ " collections? (y/N)")) ;
  do _ <- emit St (ConsoleLog ("Auto-confirming..." +:+ nl)) ;
  do _ <- deleteEach toDelete ;
  emit St (ConsoleLog (nl +:+ "✨ Cleanup complete!")).

(** [main().catch(error => { console.error('Error:', error.message);
    process.exit(1); })] *)
Definition program (w : world St) : Cli.finished (world St) string :=
  let '(r, w', t) := main w in
  match r with
  | Ok _ => {| Cli.exit_code := 0; Cli.final := w'; Cli.stdout := t; Cli.stderr := [] |}
  | Throw error =>
      {| Cli.exit_code := 1; Cli.final := w'; Cli.stdout := t;
         Cli.stderr := [ "Error: " +:+ message error ] |}
  end.

(** ** Reading a run *)

(** the listing call and the deletion of one member *)
Definition listing_call : call :=
  api_call "GET" ("/collections?workspace=" +:+ to_string WORKSPACE_ID).

Definition delete_call (uid : val) : call :=
  api_call "DELETE" ("/collections/" +:+ to_string uid).

(** what [apiRequest] makes of the reply to its call *)
Definition apiRequest_outcome (r : reply) : outcome val :=
  match r with
  | NoReply => Throw FetchFailed
  | Reply status body =>
      if (status =? 404)%nat then Ok VNull
      else
        match body with
        | None => Throw BodyNotJson
        | Some data =>
            if ok status then Ok data
            else obind (get data "error") (fun detail =>
                   Throw (ApiError status (or_else detail data)))
        end
  end.

End Script.

(** the uid of a listed collection, [undefined] where it cannot be read *)
Definition uid_of (collection : val) : val :=
  match get collection "uid" with
  | Ok uid => uid
  | Throw _ => VUndef
  end.

(** the members of a listing that are not kept *)
Definition orphans (members : list val) : list val :=
  List.filter (fun c => negb (kept (uid_of c))) members.

(** a member of the listing whose properties can be read: any value but
    [undefined] and [null] *)
Definition readable (c : val) : Prop := c <> VUndef /\ c <> VNull.

End Cleanup.

(* ===================================================================== *)
(** * Sample inputs *)
(* ===================================================================== *)

Module Samples.
Import Js OpenApi.

(** Modelled from the spec: parser.js ([getResponseSchema]) is not among
    the sources; the spec has the generator take the schema found under a
    response key.  This stand-in returns the schema of the first media type
    of the response stored under the key. *)
Definition getResponseSchema (responses : list (string * response)) (statusCode : string)
  : option schemaInfo :=
  match assoc statusCode responses with
  | Some {| content := Some ((_, media) :: _) |} =>
      match get media "schema" with
      | Ok s => Some {| schema := s |}
      | Throw _ => None
      end
  | _ => None
  end.

Fixpoint strings_of (l : list val) : list string :=
  match l with
  | [] => []
  | VStr s :: r => s :: strings_of r
  | _ :: r => strings_of r
  end.

(** Modelled from the spec: parser.js ([getRequiredFields]) is not among
    the sources; the spec calls its result the transitively-collected
    [required] field list of a schema.  This stand-in returns the names
    under the schema's own [required], where that collection starts. *)
Definition getRequiredFields (s : val) : list string :=
  match get s "required" with
  | Ok (VArr l) => strings_of l
  | _ => []
  end.

Definition taskSchema : val :=
  VObj [ ("type", VStr "object"); ("required", VArr [VStr "id"; VStr "title"]) ].

(** [GET /tasks/{taskId}] with a JSON [200] response *)
Definition getTask : endpoint :=
  {| method := "GET"; path := "/tasks/{taskId}"; name := VStr "Get a specific task";
     responses := [ ("200", {| content := Some [ ("application/json",
                                                   VObj [ ("schema", taskSchema) ]) ] |}) ] |}.

(** an endpoint whose display name is the reserved key *)
Definition namedDefault : endpoint :=
  {| method := "GET"; path := "/default"; name := VStr "default";
     responses := [ ("200", {| content := None |}) ] |}.

(** an endpoint whose display name is [__proto__] *)
Definition namedProto : endpoint :=
  {| method := "GET"; path := "/proto"; name := VStr "__proto__";
     responses := [ ("200", {| content := None |}) ] |}.

Definition listTasks : endpoint :=
  {| method := "GET"; path := "/tasks"; name := VStr "Get a specific task";
     responses := [ ("200", {| content := None |}); ("500", {| content := None |}) ] |}.

(** Modelled from the spec: parser.js ([extractEndpoints]) is not among
    the sources; this stand-in yields the endpoints of the sample
    document, whatever the document. *)
Definition extractEndpoints (a : api) : list endpoint := [ getTask ].

Definition taskApi : api :=
  {| title := VStr "Task API"; version := VStr "1.0.0";
     servers := Some [ {| url := "https://tasks.example.org/v1" |} ];
     document := VNull |}.

(** a document whose [servers] array is empty *)
Definition noServerApi : api :=
  {| title := VStr "Task API"; version := VStr "1.0.0";
     servers := Some [];
     document := VNull |}.

(** a pre-request hook and a stale test hook, objects 1 and 2 *)
Definition prerequestEvent : Collection.event :=
  {| Collection.ref := 1; Collection.listen := "prerequest";
     Collection.event_script :=
       {| Collection.type := "text/javascript"; Collection.exec := ["// setup"] |} |}.

Definition staleTestEvent : Collection.event :=
  {| Collection.ref := 2; Collection.listen := "test";
     Collection.event_script :=
       {| Collection.type := "text/javascript"; Collection.exec := ["// old"] |} |}.

Definition getRequest : Collection.request :=
  {| Collection.request_method := "GET"; Collection.request_url := "{{baseUrl}}/tasks/:taskId" |}.

(** a leaf named [X] *)
Definition leafX : Collection.item :=
  Collection.Item "X" (Some getRequest) (Some [prerequestEvent; staleTestEvent]) None.

(** a folder holding [X] and a leaf without events *)
Definition tasksFolder : Collection.item :=
  Collection.Item "Tasks" None None
    (Some [ leafX; Collection.Item "Get a specific task" (Some getRequest) None None ]).

(** a leaf named [constructor] *)
Definition leafConstructor : Collection.item :=
  Collection.Item "constructor" (Some getRequest) (Some [prerequestEvent; staleTestEvent]) None.

(** a script map with no entry for [X] and no ["default"] entry *)
Definition scriptsWithoutDefault : gmap string Injector.testScript :=
  {[ "Y" := Injector.Lines ["// tests for Y"] ]}.

Definition scriptsWithDefault : gmap string (list string) :=
  {[ "default" := ["// default tests"] ]}.

(** ** A small Spec Hub *)

Definition taskClient : Remote.client :=
  {| Remote.apiKey := VStr "key"; Remote.workspaceId := VStr "ws" |}.

Definition base : string := Remote.POSTMAN_API_BASE.

Definition ok200 (data : val) : Remote.reply := Remote.Reply 200 (Some data).

Definition listed (name : string) : val :=
  VObj [ ("id", VStr ("id:" +:+ name)); ("name", VStr name);
         ("uid", VStr ("uid:" +:+ name)) ].

Definition generationFailure : val :=
  VObj [ ("error", VObj [ ("name", VStr "serverError");
                          ("message", VStr "generation failed") ]) ].

(** A workspace that already holds the spec [Task API] as [spec-1].  Its
    state is the list of the collections generated so far; generation
    succeeds at once, except for the docs collection, which it refuses with
    status 500. *)
Definition hub (s : list string) (c : Remote.call) : Remote.reply * list string :=
  let m := Remote.call_method c in
  let u := Remote.call_url c in
  if String.eqb u (base +:+ "/specs?workspaceId=ws") then
    if String.eqb m "GET" then
      (ok200 (VObj [ ("specs", VArr [ VObj [ ("id", VStr "spec-1");
                                             ("name", VStr "Task API") ] ]) ]), s)
    else (ok200 (VObj [ ("id", VStr "spec-2") ]), s)
  else if String.eqb u (base +:+ "/specs/spec-1/files/index.json") then
    (ok200 (VObj []), s)
  else if String.eqb u (base +:+ "/specs/spec-1/generations/collection") then
    if String.eqb m "GET" then (ok200 (VObj [ ("collections", VArr []) ]), s)
    else
      match Remote.call_body c with
      | Some (VObj (("name", VStr name) :: _)) =>
          if String.eqb name "Task API - Docs"
          then (Remote.Reply 500 (Some generationFailure), s)
          else (ok200 (VObj []), s ++ [name])
      | _ => (Remote.Reply 400 (Some (VObj [])), s)
      end
  else if String.eqb u (base +:+ "/collections?workspace=ws") then
    (ok200 (VObj [ ("collections", VArr (map listed s)) ]), s)
  else if String.prefix (base +:+ "/collections/") u then
    if String.eqb m "GET" then
      (ok200 (VObj [ ("collection",
                      VObj [ ("info", VObj [ ("name", VStr "generated") ]);
                             ("item", VItems [ tasksFolder ]) ]) ]), s)
    else (ok200 (VObj []), s)
  else if String.eqb u (base +:+ "/environments?workspace=ws") then
    if String.eqb m "GET" then (ok200 (VObj [ ("environments", VArr []) ]), s)
    else (ok200 (VObj [ ("environment", VObj [ ("uid", VStr "env-1") ]) ]), s)
  else (Remote.Reply 404 (Some (VObj [])), s).

Definition hubWorld : Remote.world (list string) :=
  {| Remote.remote := []; Remote.next_ref := 3%N |}.

(** a service whose listings stay empty *)
Definition emptyHub (s : unit) (c : Remote.call) : Remote.reply * unit :=
  (ok200 (VObj [ ("collections", VArr []) ]), s).

(** a service that answers nothing *)
Definition deadHub (s : unit) (c : Remote.call) : Remote.reply * unit :=
  (Remote.NoReply, s).

Definition unitWorld : Remote.world unit :=
  {| Remote.remote := tt; Remote.next_ref := 0%N |}.

Definition allOptions : Remote.Options.t :=
  {| Remote.Options.spec := VStr "specs/api.yaml";
     Remote.Options.workspaceId := VStr "ws";
     Remote.Options.apiKey := VStr "key";
     Remote.Options.dryRun := false;
     Remote.Options.testLevel := VStr "all";
     Remote.Options.help := false |}.

Definition parseSpec (file : val) : outcome api := Ok taskApi.
Definition readFileSync (file : val) : outcome string := Ok "openapi: 3.0.3".

(** the names [Array.prototype] holds in an engine of ECMAScript 2023 *)
Definition arrayMembers : list string := [
  "at"; "concat"; "constructor"; "copyWithin"; "entries"; "every"; "fill";
  "filter"; "find"; "findIndex"; "findLast"; "findLastIndex"; "flat";
  "flatMap"; "forEach"; "includes"; "indexOf"; "join"; "keys"; "lastIndexOf";
  "map"; "pop"; "push"; "reduce"; "reduceRight"; "reverse"; "shift"; "slice";
  "some"; "sort"; "splice"; "toLocaleString"; "toReversed"; "toSorted";
  "toSpliced"; "toString"; "unshift"; "values"; "with" ].





(** the 65-character tag [a], 63 hyphens, [b] *)
Definition longTag : string := "a" +:+ Tag.repeat_char "-" 63 +:+ "b".

(** a service whose spec [spec-1] already has its docs collection *)
Definition syncedHub (s : unit) (c : Remote.call) : Remote.reply * unit :=
  let u := Remote.call_url c in
  if String.eqb u (base +:+ "/specs/spec-1/generations/collection")
     || String.eqb u (base +:+ "/collections?workspace=ws")
  then (ok200 (VObj [ ("collections", VArr [ listed "Task API - Docs" ]) ]), s)
  else (ok200 (VObj []), s).

(** the sample options as a dry run, and with a test level that is none
    of the three *)
Definition dryOptions : Remote.Options.t :=
  {| Remote.Options.spec := VStr "specs/api.yaml";
     Remote.Options.workspaceId := VStr "ws";
     Remote.Options.apiKey := VStr "key";
     Remote.Options.dryRun := true;
     Remote.Options.testLevel := VStr "all";
     Remote.Options.help := false |}.

Definition typoOptions : Remote.Options.t :=
  {| Remote.Options.spec := VStr "specs/api.yaml";
     Remote.Options.workspaceId := VStr "ws";
     Remote.Options.apiKey := VStr "key";
     Remote.Options.dryRun := false;
     Remote.Options.testLevel := VStr "full";
     Remote.Options.help := false |}.

(** [GET /projects/{projectId}/tasks/{taskId}] *)
Definition getProjectTask : endpoint :=
  {| method := "GET"; path := "/projects/{projectId}/tasks/{taskId}";
     name := VStr "Get a task of a project";
     responses := [ ("200", {| content := None |}) ] |}.

(** ** A workspace to clean up *)

(** the first of the kept collections, and two that are not kept *)
Definition keptEntry : val :=
  VObj [ ("name", VStr "Task Management API");
         ("uid", VStr "17929829-be7ebff7-004e-4119-a147-6366aff706ce") ].

Definition orphanEntry (n : string) : val :=
  VObj [ ("name", VStr ("Copy " +:+ n)); ("uid", VStr ("17929829-" +:+ n)) ].

(** A workspace listing an orphan, the kept collection and another
    orphan; it refuses to delete the first orphan, with status 500. *)
Definition workspace (s : unit) (c : Remote.call) : Remote.reply * unit :=
  if String.eqb (Remote.call_method c) "GET" then
    (ok200 (VObj [ ("collections", VArr [ orphanEntry "a"; keptEntry; orphanEntry "b" ]) ]), s)
  else if String.eqb (Remote.call_url c) (base +:+ "/collections/17929829-a") then
    (Remote.Reply 500 (Some (VObj [ ("error", VStr "locked") ])), s)
  else (ok200 (VObj []), s).

(** the text of an error, for the runs below *)
Definition message (e : exn) : string :=
  match e with
  | Error m => m
  | _ => "failed"
  end.

(** a service that lists the collection from the third listing on *)
Definition slowHub (s : nat) (c : Remote.call) : Remote.reply * nat :=
  (ok200 (VObj [ ("collections",
                  VArr (if (2 <=? s)%nat then [ listed "Task API - Docs" ] else [])) ]),
   S s).

End Samples.

(* ===================================================================== *)
(** * The text of a contract script, line by line *)
(* ===================================================================== *)

Module Scenario.

(** the double quote of the generated JavaScript *)
Definition quote : string := String (ascii_of_nat 34) EmptyString.

(** The test a contract script holds for the required fields [fields], as
    the template literals of [generateContractTestScript] spell it: the
    body, or its first element when the body is an array, is asked for
    each field. *)
Definition required_fields_test (fields : list string) : list string :=
  [ "// Required field validation";
    "pm.test(" +:+ quote +:+ "Response has required fields" +:+ quote +:+ ", function () {";
    "    const jsonData = pm.response.json();";
    "    const dataToCheck = Array.isArray(jsonData) ? (jsonData[0] || {}) : jsonData;";
    "    " ]
  ++ map (fun field => "    pm.expect(dataToCheck).to.have.property('" +:+ field +:+ "');")
         fields
  ++ [ "});"; "" ].

(** The contract script of an endpoint [method path] whose only response,
    [200], is [application/json] with the schema
    [{type: object, required: [id, title]}]. *)
Definition contract_script (method path : string) : list string := [
  "// Contract tests for: " +:+ method +:+ " " +:+ path;
  "// Comprehensive validation - generated from OpenAPI spec";
  "";
  "// Status code validation";
  "pm.test(" +:+ quote +:+ "Status code is 200" +:+ quote +:+ ", function () {";
  "    pm.response.to.have.status(200);";
  "});";
  "";
  "// Performance baseline check";
  "pm.test(" +:+ quote +:+ "Response time is acceptable" +:+ quote +:+ ", function () {";
  "    const threshold = parseInt(pm.environment.get(" +:+ quote +:+ "RESPONSE_TIME_THRESHOLD"
    +:+ quote +:+ ") || " +:+ quote +:+ "2000" +:+ quote +:+ ");";
  "    pm.expect(pm.response.responseTime).to.be.below(threshold);";
  "});";
  "";
  "// Content-Type validation";
  "pm.test(" +:+ quote +:+ "Content-Type is application/json" +:+ quote +:+ ", function () {";
  "    pm.response.to.have.header(" +:+ quote +:+ "Content-Type" +:+ quote +:+ ");";
  "    const contentType = pm.response.headers.get(" +:+ quote +:+ "Content-Type" +:+ quote +:+ ");";
  "    pm.expect(contentType).to.include(" +:+ quote +:+ "application/json" +:+ quote +:+ ");";
  "});";
  "";
  "// JSON Schema validation";
  "pm.test(" +:+ quote +:+ "Response matches schema structure" +:+ quote +:+ ", function () {";
  "    const jsonData = pm.response.json();";
  "    ";
  "    // Basic type validation";
  "    pm.expect(jsonData).to.be.an('object');";
  "});";
  "";
  "// Required field validation";
  "pm.test(" +:+ quote +:+ "Response has required fields" +:+ quote +:+ ", function () {";
  "    const jsonData = pm.response.json();";
  "    const dataToCheck = Array.isArray(jsonData) ? (jsonData[0] || {}) : jsonData;";
  "    ";
  "    pm.expect(dataToCheck).to.have.property('id');";
  "    pm.expect(dataToCheck).to.have.property('title');";
  "});";
  "" ].

(** the test a contract script holds for error responses *)
Definition error_test : list string := [
  "// Error response structure validation";
  "pm.test(" +:+ quote +:+ "Error responses have proper structure" +:+ quote +:+ ", function () {";
  "    if (pm.response.code >= 400) {";
  "        const jsonData = pm.response.json();";
  "        const hasErrorField = jsonData.hasOwnProperty('error') || jsonData.hasOwnProperty('message') || jsonData.hasOwnProperty('detail');";
  "        pm.expect(hasErrorField).to.be.true;";
  "    }";
  "});";
  "" ].

(** the default template of the smoke tier, and that of the contract tier *)
Definition default_smoke_script : list string := [
  "// Default smoke tests";
  "pm.test(" +:+ quote +:+ "Status code is success" +:+ quote +:+ ", function () {";
  "    pm.expect(pm.response.code).to.be.oneOf([200, 201, 204]);";
  "});";
  "";
  "pm.test(" +:+ quote +:+ "Response time is acceptable" +:+ quote +:+ ", function () {";
  "    const threshold = parseInt(pm.environment.get(" +:+ quote +:+ "RESPONSE_TIME_THRESHOLD"
    +:+ quote +:+ ") || " +:+ quote +:+ "2000" +:+ quote +:+ ");";
  "    pm.expect(pm.response.responseTime).to.be.below(threshold);";
  "});" ].

Definition default_contract_script : list string := [
  "// Default contract tests";
  "pm.test(" +:+ quote +:+ "Status code is valid" +:+ quote +:+ ", function () {";
  "    pm.expect(pm.response.code).to.be.oneOf([200, 201, 204]);";
  "});";
  "";
  "pm.test(" +:+ quote +:+ "Response time is acceptable" +:+ quote +:+ ", function () {";
  "    const threshold = parseInt(pm.environment.get(" +:+ quote +:+ "RESPONSE_TIME_THRESHOLD"
    +:+ quote +:+ ") || " +:+ quote +:+ "2000" +:+ quote +:+ ");";
  "    pm.expect(pm.response.responseTime).to.be.below(threshold);";
  "});";
  "";
  "pm.test(" +:+ quote +:+ "Response body is valid JSON" +:+ quote +:+ ", function () {";
  "    pm.response.to.be.json;";
  "});" ].

End Scenario.

(* ===================================================================== *)
(** * Facts about tag validation *)
(* ===================================================================== *)

Module TagFacts.
Import Js Tag.

(** ** Characters *)

Ltac by_cases_on c :=
  destruct c as [[|] [|] [|] [|] [|] [|] [|] [|]]; vm_compute; intros; congruence.

Lemma lower_not_hyphen c : is_lower c = true -> is_hyphen c = false.
Proof. by_cases_on c. Qed.

Lemma digit_not_hyphen c : is_digit c = true -> is_hyphen c = false.
Proof. by_cases_on c. Qed.

Lemma tag_char_not_upper c : tag_char c = true -> is_upper c = false.
Proof. by_cases_on c. Qed.

Lemma tag_char_alnum c :
  tag_char c = true -> is_hyphen c = false -> is_lower c || is_digit c = true.
Proof.
  unfold tag_char. intros H Hh. rewrite Hh, orb_false_r in H. exact H.
Qed.

Lemma alnum_tag_char c : is_lower c || is_digit c = true -> tag_char c = true.
Proof. unfold tag_char. intros ->. reflexivity. Qed.

(** ** Strings over the tag alphabet *)

Lemma all_chars_append p s1 s2 :
  all_chars p (s1 +:+ s2) = all_chars p s1 && all_chars p s2.
Proof.
  induction s1 as [|c r IH]; [reflexivity|]. simpl. by rewrite IH, andb_assoc.
Qed.

Lemma all_chars_last p s c :
  all_chars p s = true -> last_char s = Some c -> p c = true.
Proof.
  induction s as [|a r IH]; [discriminate|]. simpl.
  intros [Ha Hr]%andb_true_iff. destruct r as [|b r']; [by intros [= <-]|].
  apply IH, Hr.
Qed.

Lemma replace_invalid_chars b s : all_chars tag_char (replace_invalid b s) = true.
Proof.
  revert b. induction s as [|c r IH]; intros b; [reflexivity|]. simpl.
  destruct (tag_char c) eqn:E; simpl; [by rewrite E, IH|].
  destruct b; [apply IH|]. simpl. apply IH.
Qed.

Lemma strip_leading_chars p s :
  all_chars p s = true -> all_chars p (strip_leading s) = true.
Proof.
  induction s as [|c r IH]; [reflexivity|]. simpl.
  intros H. destruct (is_hyphen c); [|exact H].
  apply IH. by apply andb_true_iff in H as [_ H].
Qed.

Lemma strip_trailing_chars p s :
  all_chars p s = true -> all_chars p (strip_trailing s) = true.
Proof.
  induction s as [|c r IH]; [reflexivity|]. simpl.
  intros [Hc Hr]%andb_true_iff. specialize (IH Hr).
  destruct (strip_trailing r) as [|c' r'].
  - destruct (is_hyphen c); [reflexivity|]. simpl. by rewrite Hc.
  - simpl in *. by rewrite Hc, IH.
Qed.

Lemma take_chars_chars p n s :
  all_chars p s = true -> all_chars p (take_chars n s) = true.
Proof.
  revert s. induction n as [|n IH]; intros [|c r]; try reflexivity. simpl.
  intros [Hc Hr]%andb_true_iff. by rewrite Hc, IH.
Qed.

Lemma toLowerCase_clean s : all_chars tag_char s = true -> toLowerCase s = s.
Proof.
  induction s as [|c r IH]; [reflexivity|]. simpl.
  intros [Hc Hr]%andb_true_iff. unfold lower_char.
  by rewrite (tag_char_not_upper c Hc), IH.
Qed.

Lemma replace_invalid_clean s :
  all_chars tag_char s = true -> replace_invalid false s = s.
Proof.
  induction s as [|c r IH]; [reflexivity|]. simpl.
  intros [Hc Hr]%andb_true_iff. by rewrite Hc, IH.
Qed.

(** ** Ends *)

Lemma last_char_append s1 s2 : s2 <> EmptyString -> last_char (s1 +:+ s2) = last_char s2.
Proof.
  intros Hne. induction s1 as [|c r IH]; [reflexivity|].
  change (String c r +:+ s2) with (String c (r +:+ s2)).
  assert (Hr : r +:+ s2 <> EmptyString) by (destruct r; [exact Hne|discriminate]).
  rewrite <- IH. destruct (r +:+ s2); [congruence|reflexivity].
Qed.

Lemma strip_trailing_last s :
  match last_char (strip_trailing s) with
  | Some c => is_hyphen c = false
  | None => strip_trailing s = EmptyString
  end.
Proof.
  induction s as [|c r IH]; [reflexivity|]. simpl.
  destruct (strip_trailing r) as [|c' r'].
  - destruct (is_hyphen c) eqn:E; [reflexivity|exact E].
  - change (last_char (String c (String c' r'))) with (last_char (String c' r')).
    destruct (last_char (String c' r')); [exact IH|discriminate IH].
Qed.

Lemma strip_trailing_head c r :
  is_hyphen c = false -> exists r', strip_trailing (String c r) = String c r'.
Proof.
  intros H. simpl. destruct (strip_trailing r); [rewrite H|]; eauto.
Qed.

Lemma strip_trailing_fixed s c :
  last_char s = Some c -> is_hyphen c = false -> strip_trailing s = s.
Proof.
  induction s as [|a r IH]; [discriminate|]. intros Hl Hc. simpl.
  destruct r as [|b r'].
  - injection Hl as ->. simpl. by rewrite Hc.
  - rewrite (IH Hl Hc). reflexivity.
Qed.

Lemma strip_trailing_length s : String.length (strip_trailing s) <= String.length s.
Proof.
  induction s as [|c r IH]; [reflexivity|]. simpl.
  destruct (strip_trailing r); [destruct (is_hyphen c)|]; simpl in *; lia.
Qed.

Lemma take_chars_length n s : String.length (take_chars n s) <= n.
Proof.
  revert s. induction n as [|n IH]; intros [|c r]; simpl; try lia.
  specialize (IH r). lia.
Qed.

Lemma append_length s1 s2 :
  String.length (s1 +:+ s2) = String.length s1 + String.length s2.
Proof. induction s1 as [|c r IH]; [reflexivity|]. simpl. by rewrite IH. Qed.

(** ** The stages of [validateTag] *)

(** what holds of [clean] once both ends are repaired *)
Lemma repaired_ends (c0 : string) :
  all_chars tag_char c0 = true ->
  let c1 := if negb (starts_with_letter c0) then "tag-" +:+ c0 else c0 in
  let c2 := if negb (ends_with_alnum c1) then c1 +:+ "0" else c1 in
  let c3 := if (String.length c2 <? 2)%nat then "tag-" +:+ c2 else c2 in
  tag_shape c3 = true /\ 2 <= String.length c3.
Proof.
  intros H0. cbv zeta.
  set (c1 := if negb (starts_with_letter c0) then _ else _).
  assert (H1 : starts_with_letter c1 = true /\ all_chars tag_char c1 = true).
  { subst c1. destruct (starts_with_letter c0) eqn:E; simpl; [auto|].
    split; [reflexivity|]. exact H0. }
  destruct H1 as [S1 A1].
  set (c2 := if negb (ends_with_alnum c1) then _ else _).
  assert (H2 : starts_with_letter c2 = true /\ ends_with_alnum c2 = true
               /\ all_chars tag_char c2 = true).
  { subst c2. destruct (ends_with_alnum c1) eqn:E; simpl; [auto|].
    split; [destruct c1; [discriminate|exact S1]|].
    split; [unfold ends_with_alnum; by rewrite last_char_append|].
    by rewrite all_chars_append, A1. }
  destruct H2 as (S2 & E2 & A2).
  destruct (String.length c2 <? 2)%nat eqn:L.
  - unfold tag_shape. split; [|simpl; lia].
    rewrite all_chars_append, A2. simpl.
    unfold ends_with_alnum in *.
    rewrite last_char_append by (destruct c2; [discriminate|congruence]).
    by rewrite E2.
  - apply Nat.ltb_ge in L. unfold tag_shape. by rewrite S2, E2, A2.
Qed.

(** Cutting a well-shaped tag to 64 characters and dropping the hyphens
    this leaves at its end keeps the shape, but not the length of two. *)
Lemma truncated_shape (c3 : string) :
  tag_shape c3 = true ->
  let cut := strip_trailing (take_chars 64 c3) in
  tag_shape cut = true /\ 1 <= String.length cut <= 64.
Proof.
  unfold tag_shape. intros [[S3 E3]%andb_true_iff A3]%andb_true_iff. cbv zeta.
  destruct c3 as [|c r]; [discriminate|]. simpl in S3.
  change (take_chars 64 (String c r)) with (String c (take_chars 63 r)).
  destruct (strip_trailing_head c (take_chars 63 r) (lower_not_hyphen c S3)) as [r' Hr'].
  assert (A : all_chars tag_char (strip_trailing (String c (take_chars 63 r))) = true).
  { apply strip_trailing_chars.
    change (String c (take_chars 63 r)) with (take_chars 64 (String c r)).
    by apply take_chars_chars. }
  assert (L : String.length (strip_trailing (String c (take_chars 63 r))) <= 64).
  { etransitivity; [apply strip_trailing_length|]. cbn [String.length].
    pose proof (take_chars_length 63 r). lia. }
  pose proof (strip_trailing_last (String c (take_chars 63 r))) as Hlast.
  rewrite Hr' in *. split; [|cbn [String.length] in *; lia].
  simpl starts_with_letter. rewrite S3, A. simpl.
  unfold ends_with_alnum.
  destruct (last_char (String c r')) as [l|] eqn:El; [|discriminate].
  rewrite (tag_char_alnum l (all_chars_last _ _ _ A El) Hlast). reflexivity.
Qed.

(** The output always has the documented shape and at most 64 characters;
    it has at least two unless the truncation shortened it. *)
Lemma validate_string_shape (s : string) :
  tag_shape (validate_string s) = true
  /\ 1 <= String.length (validate_string s) <= 64.
Proof.
  unfold validate_string.
  set (c0 := trim_hyphens (replace_invalid false (toLowerCase s))).
  assert (H0 : all_chars tag_char c0 = true).
  { subst c0. unfold trim_hyphens.
    apply strip_trailing_chars, strip_leading_chars, replace_invalid_chars. }
  destruct (repaired_ends c0 H0) as [Hs Hl]. cbv zeta in Hs, Hl.
  set (c3 := if (String.length _ <? 2)%nat then _ else _) in *.
  destruct (64 <? String.length c3)%nat eqn:L.
  - destruct (truncated_shape c3 Hs) as [Ht Hl']. cbv zeta in Ht, Hl'.
    replace (ends_with_alnum (strip_trailing (take_chars 64 c3))) with true.
    + simpl. auto.
    + unfold tag_shape in Ht.
      apply andb_true_iff in Ht as [[_ E]%andb_true_iff _]. by rewrite E.
  - apply Nat.ltb_ge in L. split; [exact Hs|lia].
Qed.

(** A tag that meets the contract is returned as it is. *)
Lemma validate_string_fixed (t : string) : tag_ok t = true -> validate_string t = t.
Proof.
  unfold tag_ok, tag_shape.
  intros [[[[S E]%andb_true_iff A]%andb_true_iff L2]%andb_true_iff L64]%andb_true_iff.
  unfold validate_string, trim_hyphens.
  rewrite (toLowerCase_clean t A), (replace_invalid_clean t A).
  assert (Hlead : strip_leading t = t).
  { destruct t as [|c r]; [reflexivity|]. simpl in *.
    by rewrite (lower_not_hyphen c S). }
  rewrite Hlead.
  assert (Htrail : strip_trailing t = t).
  { unfold ends_with_alnum in E. destruct (last_char t) as [l|] eqn:El; [|discriminate].
    apply (strip_trailing_fixed t l El).
    apply orb_true_iff in E as [E|E];
      [by apply lower_not_hyphen|by apply digit_not_hyphen]. }
  rewrite Htrail, S. cbn [negb]. rewrite E. cbn [negb].
  apply Nat.leb_le in L2, L64.
  replace (String.length t <? 2)%nat with false by (symmetry; apply Nat.ltb_ge; lia).
  replace (64 <? String.length t)%nat with false by (symmetry; apply Nat.ltb_ge; lia).
  reflexivity.
Qed.

(** So validation is idempotent on every input whose output has at least
    two characters. *)
Lemma validateTag_idempotent_from_two (s t : string) :
  validateTag (VStr s) = Ok t ->
  tag_shape t = true
  /\ 1 <= String.length t <= 64
  /\ (2 <= String.length t -> validateTag (VStr t) = Ok t).
Proof.
  unfold validateTag. destruct (negb (truthy (VStr s))); [discriminate|].
  intros [= <-]. destruct (validate_string_shape s) as [Hs Hl].
  split; [exact Hs|]. split; [exact Hl|]. intros H2.
  assert (Hok : tag_ok (validate_string s) = true).
  { unfold tag_ok. rewrite Hs. cbn [andb].
    apply andb_true_iff. split; apply Nat.leb_le; lia. }
  rewrite (validate_string_fixed _ Hok).
  destruct (validate_string s); [simpl in Hl; lia|reflexivity].
Qed.

(** C4.  The tag [a], 63 hyphens, [b] is cut to 64 characters and loses its
    trailing hyphens, which leaves the one-character tag [a]: shorter than
    the documented minimum of two, and not a fixed point, since [a] itself
    is repaired to [tag-a]. *)
Theorem validateTag_truncation_breaks_contract :
  validateTag (VStr Samples.longTag) = Ok "a"
  /\ tag_ok "a" = false
  /\ obind (validateTag (VStr Samples.longTag)) (fun t => validateTag (VStr t)) = Ok "tag-a".
Proof. vm_compute. repeat split. Qed.

End TagFacts.

(* ===================================================================== *)
(** * Facts about the generated environment *)
(* ===================================================================== *)

Module EnvFacts.
Import Js OpenApi Env.

(** The variables are the fixed three whenever a document is returned. *)
Lemma generateEnvironment_keys (a : api) (e : environment) :
  generateEnvironment a = Ok e ->
  map key (values e) = ["baseUrl"; "RESPONSE_TIME_THRESHOLD"; "auth_token"]
  /\ map value (skipn 1 (values e)) = ["2000"; ""]
  /\ map var_type (values e) = ["default"; "default"; "secret"].
Proof.
  unfold generateEnvironment.
  destruct (default _ (servers a)) as [|first rest]; [discriminate|].
  intros [= <-]. auto.
Qed.

(** With a first declared server, [baseUrl] is its url. *)
Lemma generateEnvironment_declared (a : api) (first : server) (rest : list server) :
  servers a = Some (first :: rest) ->
  exists e, generateEnvironment a = Ok e
            /\ map value (values e) = [url first; "2000"; ""].
Proof.
  intros H. unfold generateEnvironment. rewrite H. simpl. eauto.
Qed.

(** Without a [servers] member, [baseUrl] is the placeholder. *)
Lemma generateEnvironment_absent (a : api) :
  servers a = None ->
  exists e, generateEnvironment a = Ok e
            /\ map value (values e) = ["https://api.example.com"; "2000"; ""].
Proof.
  intros H. unfold generateEnvironment. rewrite H. simpl. eauto.
Qed.

(** C9.  A document whose [servers] array is present but empty declares no
    server, yet no environment is returned for it: the fallback only
    replaces a missing array, and reading [servers[0].url] throws. *)
Theorem generateEnvironment_empty_servers_throws :
  servers Samples.noServerApi = Some []
  /\ generateEnvironment Samples.noServerApi = Throw TypeError.
Proof. split; reflexivity. Qed.

End EnvFacts.

(* ===================================================================== *)
(** * Facts about the script generators *)
(* ===================================================================== *)

Module GeneratorFacts.
Import Js OpenApi Generator.

Section WithParser.

Variable extractEndpoints : api -> list endpoint.
Variable getResponseSchema : list (string * response) -> string -> option schemaInfo.
Variable getRequiredFields : val -> list string.

Abbreviation contractScript := (generateContractTestScript getResponseSchema getRequiredFields).
Abbreviation scriptFor := (generateTestScript getResponseSchema getRequiredFields).
Abbreviation scriptsForSpec :=
  (generateTestScriptsForSpec extractEndpoints getResponseSchema getRequiredFields).

Abbreviation assign_loop level :=
  (fold_left (fun (o : scriptObject) e => assign_script (testName e) (scriptFor e level) o)).

(** The key the loop writes for an endpoint is its display name. *)
Lemma testName_displayName (e : endpoint) : testName e = displayName e.
Proof.
  unfold testName, displayName, or_else. destruct (truthy (name e)); reflexivity.
Qed.

(** The loop of [generateTestScriptsForSpec]: a key other than [__proto__]
    reads the script of the last endpoint that wrote it, else what the
    object held before. *)
Lemma assign_loop_own (level : string) (es : list endpoint) (o0 : scriptObject) (k : string) :
  k <> "__proto__" ->
  own (assign_loop level es o0) !! k
  = match lastNamed k es with
    | Some e => Some (scriptFor e level)
    | None => own o0 !! k
    end.
Proof.
  intros Hk. revert o0. induction es as [|e rest IH]; intros o0; simpl; [reflexivity|].
  rewrite IH. destruct (lastNamed k rest) as [e'|]; [reflexivity|].
  unfold assign_script. rewrite <- testName_displayName.
  destruct (String.eqb_spec (testName e) "__proto__") as [Hp|Hp]; simpl.
  - destruct (String.eqb_spec (testName e) k) as [He|He]; [congruence|reflexivity].
  - destruct (String.eqb_spec (testName e) k) as [->|Hne].
    + apply lookup_insert_eq.
    + by apply lookup_insert_ne.
Qed.

(** The loop never makes [__proto__] a property of the object. *)
Lemma assign_loop_no_proto_key (level : string) (es : list endpoint) (o0 : scriptObject) :
  own o0 !! "__proto__" = None ->
  own (assign_loop level es o0) !! "__proto__" = None.
Proof.
  revert o0. induction es as [|e rest IH]; intros o0 H0; simpl; [exact H0|].
  apply IH. unfold assign_script.
  destruct (String.eqb_spec (testName e) "__proto__") as [Hp|Hp]; simpl; [exact H0|].
  by rewrite lookup_insert_ne.
Qed.

(** The prototype after the loop: the script of the last endpoint named
    [__proto__], else the prototype before. *)
Lemma assign_loop_proto (level : string) (es : list endpoint) (o0 : scriptObject) :
  proto (assign_loop level es o0)
  = match lastNamed "__proto__" es with
    | Some e => Some (scriptFor e level)
    | None => proto o0
    end.
Proof.
  revert o0. induction es as [|e rest IH]; intros o0; simpl; [reflexivity|].
  rewrite IH. destruct (lastNamed "__proto__" rest) as [e'|]; [reflexivity|].
  unfold assign_script. rewrite <- testName_displayName.
  destruct (String.eqb (testName e) "__proto__"); reflexivity.
Qed.

Lemma default_templates (level : string) :
  defaultScript level
  = if String.eqb level "smoke" then Scenario.default_smoke_script
    else Scenario.default_contract_script.
Proof. unfold defaultScript, SMOKE. destruct (String.eqb level "smoke"); reflexivity. Qed.

(** Every property of the returned object, read through the loop. *)
Lemma scriptsForSpec_own (a : api) (level k : string) :
  own (scriptsForSpec a level) !! k
  = if String.eqb k "default" then Some (defaultScript level)
    else if String.eqb k "__proto__" then None
    else (fun e => scriptFor e level) <$> lastNamed k (extractEndpoints a).
Proof.
  unfold generateTestScriptsForSpec, assign_script at 1.
  change (String.eqb "default" "__proto__") with false. cbv iota. simpl own.
  destruct (String.eqb_spec k "default") as [->|Hk].
  - apply lookup_insert_eq.
  - rewrite lookup_insert_ne by congruence.
    destruct (String.eqb_spec k "__proto__") as [->|Hp].
    + apply assign_loop_no_proto_key. apply lookup_empty.
    + rewrite assign_loop_own by exact Hp.
      destruct (lastNamed k (extractEndpoints a)); [reflexivity|apply lookup_empty].
Qed.

Lemma scriptsForSpec_proto (a : api) (level : string) :
  proto (scriptsForSpec a level)
  = (fun e => scriptFor e level) <$> lastNamed "__proto__" (extractEndpoints a).
Proof.
  unfold generateTestScriptsForSpec, assign_script at 1.
  change (String.eqb "default" "__proto__") with false. cbv iota. simpl proto.
  rewrite assign_loop_proto.
  destruct (lastNamed "__proto__" (extractEndpoints a)); reflexivity.
Qed.

(** C10.  Whatever the endpoints, the returned object has the property
    ["default"], bound to the tier's default template (the smoke template
    for the level ["smoke"], the contract template for any other), because
    that property is written after the loop.  Every other property reads
    the script of the last endpoint carrying that display name (its name,
    or its method and path when it has none): so an endpoint named
    ["default"] loses its script to the template, and of two endpoints
    sharing a name the later one wins.  The display name [__proto__] is
    the one exception to "property": writing it replaces the object's
    prototype, so the object never has a property of that name, and its
    prototype is the script of the last endpoint so named. *)
Theorem generateTestScriptsForSpec_default_assigned_last (a : api) (level : string) :
  own (scriptsForSpec a level) !! "default"
  = Some (if String.eqb level "smoke" then Scenario.default_smoke_script
          else Scenario.default_contract_script)
  /\ (forall k, k <> "default" -> k <> "__proto__" ->
        own (scriptsForSpec a level) !! k
        = (fun e => scriptFor e level) <$> lastNamed k (extractEndpoints a))
  /\ own (scriptsForSpec a level) !! "__proto__" = None
  /\ proto (scriptsForSpec a level)
     = (fun e => scriptFor e level) <$> lastNamed "__proto__" (extractEndpoints a).
Proof.
  split; [rewrite scriptsForSpec_own, default_templates; reflexivity|].
  split.
  - intros k Hk Hp. rewrite scriptsForSpec_own.
    destruct (String.eqb_spec k "default"); [contradiction|].
    destruct (String.eqb_spec k "__proto__"); [contradiction|reflexivity].
  - split; [rewrite scriptsForSpec_own; reflexivity|apply scriptsForSpec_proto].
Qed.

(** ** The assertions of each tier *)

Lemma assertions_app (l1 l2 : list string) :
  assertions (l1 ++ l2) = assertions l1 ++ assertions l2.
Proof. apply List.filter_app. Qed.

Lemma assertions_properties (fields : list string) :
  assertions (map property_assertion fields) = map property_assertion fields.
Proof.
  induction fields as [|f l IH]; [reflexivity|].
  change (map property_assertion (f :: l))
    with (property_assertion f :: map property_assertion l).
  unfold assertions in *. simpl List.filter.
  replace (is_assertion (property_assertion f)) with true by reflexivity.
  by rewrite IH.
Qed.

Lemma assertions_smoke (e : endpoint) :
  assertions (generateSmokeTestScript e)
  = match successCodes e with
    | [] => []
    | codes => [oneOf_assertion codes]
    end ++ [latency_assertion; body_defined_assertion].
Proof.
  unfold generateSmokeTestScript.
  destruct (successCodes e) as [|c l]; reflexivity.
Qed.

Lemma assertions_status_block (e : endpoint) :
  assertions (status_block e)
  = match successCodes e with
    | c :: _ => [status_assertion c]
    | [] => []
    end.
Proof. unfold status_block. destruct (successCodes e); reflexivity. Qed.

Lemma assertions_content_type_block (e : endpoint) :
  assertions (content_type_block e) = []
  \/ exists t, assertions (content_type_block e) = [header_assertion; include_assertion t].
Proof.
  unfold content_type_block.
  destruct (successResponse e) as [[[media|]]|]; try (left; reflexivity).
  destruct (keys media) as [|first rest]; [left; reflexivity|].
  right. exists (before_semicolon first). reflexivity.
Qed.

Lemma assertions_required_block (s : val) :
  assertions (required_block getRequiredFields s)
  = map property_assertion (getRequiredFields s).
Proof.
  unfold required_block.
  destruct (getRequiredFields s) as [|f l]; [reflexivity|].
  change (0 <? length (f :: l))%nat with true. cbv iota.
  rewrite !assertions_app, assertions_properties.
  change (assertions ["});"; ""]) with (@nil string).
  rewrite app_nil_r. reflexivity.
Qed.

Lemma assertions_schema_block (e : endpoint) :
  exists ts,
    (ts = [] \/ ts = [type_assertion "object"] \/ ts = [type_assertion "array"])
    /\ assertions (schema_block getResponseSchema getRequiredFields e)
       = ts ++ match checkedSchema getResponseSchema e with
               | Some s => map property_assertion (getRequiredFields s)
               | None => []
               end.
Proof.
  unfold schema_block, checkedSchema.
  destruct (responseSchema getResponseSchema e) as [si|]; [|exists []; auto].
  destruct (truthy (schema si)); [|exists []; auto].
  rewrite !assertions_app, assertions_required_block.
  change (assertions ["});"; ""]) with (@nil string).
  destruct (get (schema si) "type") as [t|]; [|exists []; auto].
  destruct (is_str t "object"); [exists [type_assertion "object"]; auto|].
  destruct (is_str t "array"); [exists [type_assertion "array"]; auto|].
  exists []; auto.
Qed.

Lemma assertions_error_block (e : endpoint) :
  assertions (error_block e)
  = if (0 <? length (errorCodes e))%nat then [error_assertion] else [].
Proof. unfold error_block. destruct (0 <? length (errorCodes e))%nat; reflexivity. Qed.

Lemma assertions_contract (e : endpoint) :
  assertions (contractScript e)
  = assertions (status_block e) ++ [latency_assertion]
    ++ assertions (content_type_block e)
    ++ assertions (schema_block getResponseSchema getRequiredFields e)
    ++ assertions (error_block e).
Proof.
  unfold generateContractTestScript. rewrite !assertions_app. reflexivity.
Qed.

(** Every assertion of a contract script has one of the seven forms. *)
Lemma contract_assertion_forms (e : endpoint) (x : string) :
  In x (assertions (contractScript e)) -> contract_form x.
Proof.
  rewrite assertions_contract, assertions_status_block, assertions_error_block.
  destruct (assertions_content_type_block e) as [->|[t ->]];
    destruct (assertions_schema_block e) as (ts & Hts & ->);
    rewrite !in_app_iff;
    intros [H|[H|[H|[[H|H]|H]]]];
    repeat match goal with
    | H : In _ (match ?c with _ => _ end) |- _ => destruct c
    | H : In _ (if ?c then _ else _) |- _ => destruct c
    | H : In _ (map _ _) |- _ => apply in_map_iff in H as (f & <- & _)
    | H : In _ ts |- _ => destruct Hts as [->|[->| ->]]
    | H : In _ (_ :: _) |- _ => destruct H as [<-|H]
    | H : In _ [] |- _ => destruct H
    end; constructor.
Qed.

(** The smoke tier's two own assertions have none of them. *)
Lemma body_defined_not_contract_form : ~ contract_form body_defined_assertion.
Proof. intros H. inversion H. Qed.

Lemma oneOf_not_contract_form (codes : list string) :
  ~ contract_form (oneOf_assertion codes).
Proof. intros H. inversion H. Qed.

Lemma smoke_assertion_forms (e : endpoint) (x : string) :
  In x (assertions (generateSmokeTestScript e)) ->
  x = oneOf_assertion (successCodes e) \/ x = latency_assertion
  \/ x = body_defined_assertion.
Proof.
  rewrite assertions_smoke.
  destruct (successCodes e); simpl; intuition.
Qed.

(** C5, as the code has it.  The two tiers share the latency assertion and
    nothing else.  With a declared 2xx code each has a status assertion, but
    not the same one: oneOf over all declared 2xx codes in the smoke tier,
    equality with the first in the contract tier.  The content-type,
    schema-type, required-field and error-shape assertions are in contract
    scripts only; the body-is-defined assertion is in every smoke script and
    in no contract script. *)
Theorem tiers_share_only_latency (e : endpoint) :
  let smoke := assertions (generateSmokeTestScript e) in
  let contract := assertions (contractScript e) in
  (In latency_assertion smoke /\ In latency_assertion contract)
  /\ (forall c rest, successCodes e = c :: rest ->
        In (oneOf_assertion (c :: rest)) smoke /\ In (status_assertion c) contract)
  /\ (In body_defined_assertion smoke /\ ~ In body_defined_assertion contract)
  /\ (forall x, In x contract -> x <> latency_assertion -> ~ In x smoke)
  /\ (forall media first rest,
        successResponse e = Some {| content := Some media |} ->
        keys media = first :: rest ->
        In header_assertion contract
        /\ In (include_assertion (before_semicolon first)) contract)
  /\ (forall s f, checkedSchema getResponseSchema e = Some s ->
        In f (getRequiredFields s) -> In (property_assertion f) contract)
  /\ (forall s t, checkedSchema getResponseSchema e = Some s ->
        get s "type" = Ok (VStr t) -> t = "object" \/ t = "array" ->
        In (type_assertion t) contract)
  /\ (errorCodes e <> [] -> In error_assertion contract).
Proof.
  cbv zeta.
  split; [split|].
  { rewrite assertions_smoke, in_app_iff. right. simpl. auto. }
  { rewrite assertions_contract, !in_app_iff. right. left. simpl. auto. }
  split.
  { intros c rest Hc. split.
    - rewrite assertions_smoke, Hc, in_app_iff. left. simpl. auto.
    - rewrite assertions_contract, assertions_status_block, Hc, in_app_iff.
      left. simpl. auto. }
  split; [split|].
  { rewrite assertions_smoke, in_app_iff. right. simpl. auto. }
  { intros H. apply contract_assertion_forms in H.
    exact (body_defined_not_contract_form H). }
  split.
  { intros x Hc Hne Hs. apply contract_assertion_forms in Hc.
    apply smoke_assertion_forms in Hs as [->|[->| ->]].
    - exact (oneOf_not_contract_form _ Hc).
    - congruence.
    - exact (body_defined_not_contract_form Hc). }
  split.
  { intros media first rest Hr Hk.
    rewrite assertions_contract, !in_app_iff.
    unfold content_type_block. rewrite Hr, Hk.
    split; right; right; left; simpl; auto. }
  split.
  { intros s f Hs Hf.
    rewrite assertions_contract, !in_app_iff. do 3 right. left.
    destruct (assertions_schema_block e) as (ts & _ & ->).
    rewrite Hs, in_app_iff. right. by apply in_map. }
  split.
  { intros s t Hs Ht Hobj.
    rewrite assertions_contract, !in_app_iff. do 3 right. left.
    unfold checkedSchema in Hs. unfold schema_block.
    destruct (responseSchema getResponseSchema e) as [si|]; [|discriminate].
    destruct (truthy (schema si)); [|discriminate].
    injection Hs as <-. rewrite Ht.
    rewrite !assertions_app, !in_app_iff. right. left.
    destruct Hobj as [-> | ->]; simpl; auto. }
  { intros He. rewrite assertions_contract, assertions_error_block, !in_app_iff.
    do 4 right. destruct (errorCodes e); [congruence|]. simpl. auto. }
Qed.

(** ** Required fields in the contract tier *)

Lemma properties_app (l1 l2 : list string) :
  List.filter is_property_assertion (l1 ++ l2)
  = List.filter is_property_assertion l1 ++ List.filter is_property_assertion l2.
Proof. apply List.filter_app. Qed.

Lemma properties_map (fields : list string) :
  List.filter is_property_assertion (map property_assertion fields)
  = map property_assertion fields.
Proof.
  induction fields as [|f l IH]; [reflexivity|].
  change (map property_assertion (f :: l))
    with (property_assertion f :: map property_assertion l).
  simpl List.filter.
  replace (is_property_assertion (property_assertion f)) with true
    by (destruct f; reflexivity).
  by rewrite IH.
Qed.

Lemma properties_required_block (s : val) :
  List.filter is_property_assertion (required_block getRequiredFields s)
  = map property_assertion (getRequiredFields s).
Proof.
  unfold required_block.
  destruct (getRequiredFields s) as [|f l]; [reflexivity|].
  change (0 <? length (f :: l))%nat with true. cbv iota.
  rewrite !properties_app, properties_map.
  change (List.filter is_property_assertion ["});"; ""]) with (@nil string).
  rewrite app_nil_r. reflexivity.
Qed.

Lemma properties_schema_block (e : endpoint) :
  List.filter is_property_assertion (schema_block getResponseSchema getRequiredFields e)
  = match checkedSchema getResponseSchema e with
    | Some s => map property_assertion (getRequiredFields s)
    | None => []
    end.
Proof.
  unfold schema_block, checkedSchema.
  destruct (responseSchema getResponseSchema e) as [si|]; [|reflexivity].
  destruct (truthy (schema si)); [|reflexivity].
  rewrite !properties_app, properties_required_block.
  destruct (get (schema si) "type") as [t|]; [|reflexivity].
  destruct (is_str t "object"); [reflexivity|].
  destruct (is_str t "array"); reflexivity.
Qed.

Lemma properties_contract (e : endpoint) :
  List.filter is_property_assertion (contractScript e)
  = match checkedSchema getResponseSchema e with
    | Some s => map property_assertion (getRequiredFields s)
    | None => []
    end.
Proof.
  unfold generateContractTestScript.
  rewrite !properties_app, properties_schema_block.
  replace (List.filter is_property_assertion (status_block e)) with (@nil string)
    by (unfold status_block; destruct (successCodes e); reflexivity).
  replace (List.filter is_property_assertion (content_type_block e)) with (@nil string)
    by (unfold content_type_block;
        destruct (successResponse e) as [[[media|]]|]; try reflexivity;
        destruct (keys media); reflexivity).
  replace (List.filter is_property_assertion (error_block e)) with (@nil string)
    by (unfold error_block; destruct (0 <? length (errorCodes e))%nat; reflexivity).
  simpl. by rewrite app_nil_r.
Qed.

Lemma property_assertion_text (fields : list string) :
  map property_assertion fields
  = map (fun field => "    pm.expect(dataToCheck).to.have.property('" +:+ field +:+ "');")
        fields.
Proof. reflexivity. Qed.

Lemma required_block_text (s : val) :
  getRequiredFields s <> [] ->
  required_block getRequiredFields s = Scenario.required_fields_test (getRequiredFields s).
Proof.
  intros Hne. unfold required_block, Scenario.required_fields_test.
  destruct (getRequiredFields s) as [|f l]; [contradiction|]. reflexivity.
Qed.

Lemma filter_nonempty {A} (p : A -> bool) (l : list A) :
  (0 <? length (List.filter p l))%nat = existsb p l.
Proof.
  induction l as [|x l IH]; [reflexivity|]. simpl.
  destruct (p x); [reflexivity|exact IH].
Qed.

Lemma error_block_text (e : endpoint) :
  error_block e
  = if existsb (fun code => String.prefix "4" code || String.prefix "5" code)
         (map fst (responses e))
    then Scenario.error_test else [].
Proof.
  unfold error_block, errorCodes, keys, startsWith. rewrite filter_nonempty.
  destruct (existsb _ _); reflexivity.
Qed.

(** C6.  Take an endpoint whose first 2xx code, in the order its
    responses are listed, is [200], whose [200] response lists
    [application/json] first and whose schema, as the parser finds it under
    [200], has type [object] and required fields [id] and [title].  The
    assertions of its contract script are, in this
    order and as JavaScript text: the status is 200, the latency, the
    Content-Type header is present, its value includes application/json,
    the body is an object, the data has the property id, the data has the
    property title (then the error shape, if a 4xx or 5xx code is
    declared); and the script is, line by line, the text written out in
    [Scenario.contract_script], where the two property assertions stand in
    a test that first binds the data to the body, or to its first element
    when the body is an array.  For every endpoint, the first assertion is
    that the status is the first 2xx code listed, that code alone; and the
    schema looked at is the one the parser finds under [200], else under
    [201]: when it is there, the property assertions of the contract script
    are one per name of its required list, in order, and they stand in that
    same test; when it is not, there is none. *)
Theorem contract_script_required_fields (e : endpoint) :
  let codes := map fst (responses e) in
  let declares_error :=
    existsb (fun code => String.prefix "4" code || String.prefix "5" code) codes in
  let schemaFound :=
    match getResponseSchema (responses e) "200" with
    | Some si => Some si
    | None => getResponseSchema (responses e) "201"
    end in
  (forall rest media others S,
     List.filter (fun code => String.prefix "2" code) codes = "200" :: rest ->
     assoc "200" (responses e)
       = Some {| content := Some (("application/json", media) :: others) |} ->
     getResponseSchema (responses e) "200" = Some {| schema := S |} ->
     get S "type" = Ok (VStr "object") ->
     getRequiredFields S = ["id"; "title"] ->
     assertions (contractScript e)
       = [ "    pm.response.to.have.status(200);";
           "    pm.expect(pm.response.responseTime).to.be.below(threshold);";
           "    pm.response.to.have.header(" +:+ Scenario.quote +:+ "Content-Type"
             +:+ Scenario.quote +:+ ");";
           "    pm.expect(contentType).to.include(" +:+ Scenario.quote +:+ "application/json"
             +:+ Scenario.quote +:+ ");";
           "    pm.expect(jsonData).to.be.an('object');";
           "    pm.expect(dataToCheck).to.have.property('id');";
           "    pm.expect(dataToCheck).to.have.property('title');" ]
         ++ (if declares_error then ["        pm.expect(hasErrorField).to.be.true;"] else [])
     /\ contractScript e
        = Scenario.contract_script (method e) (path e)
          ++ (if declares_error then Scenario.error_test else []))
  /\ (forall code rest,
        List.filter (fun code => String.prefix "2" code) codes = code :: rest ->
        exists others,
          assertions (contractScript e)
          = ("    pm.response.to.have.status(" +:+ code +:+ ");")
            :: "    pm.expect(pm.response.responseTime).to.be.below(threshold);"
            :: others)
  /\ (forall si,
        schemaFound = Some si ->
        truthy (schema si) = true ->
        List.filter is_property_assertion (contractScript e)
        = map (fun field =>
                 "    pm.expect(dataToCheck).to.have.property('" +:+ field +:+ "');")
              (getRequiredFields (schema si))
        /\ (getRequiredFields (schema si) <> [] ->
            exists before after,
              contractScript e
              = before ++ Scenario.required_fields_test (getRequiredFields (schema si))
                ++ after))
  /\ (schemaFound = None
      \/ (exists si, schemaFound = Some si /\ truthy (schema si) = false) ->
      List.filter is_property_assertion (contractScript e) = []).
Proof.
  cbv zeta. split; [|split; [|split]].
  - intros rest media others S Hcodes H200 Hschema Htype Hreq.
    change (successCodes e = "200" :: rest) in Hcodes.
    assert (HS : truthy S = true) by (destruct S; try discriminate; reflexivity).
    assert (Hscript : contractScript e
                      = Scenario.contract_script (method e) (path e) ++ error_block e).
    { unfold generateContractTestScript, status_block, content_type_block,
        successResponse, schema_block, responseSchema, required_block.
      rewrite Hcodes, H200, Hschema. cbn [schema keys map fst]. rewrite HS, Htype, Hreq.
      reflexivity. }
    split.
    + rewrite assertions_contract, assertions_status_block, Hcodes.
      unfold content_type_block, successResponse, schema_block, responseSchema.
      rewrite H200, Hschema. cbn [schema keys map fst]. rewrite HS, Htype.
      rewrite !assertions_app, assertions_required_block, Hreq.
      rewrite error_block_text. destruct (existsb _ _); reflexivity.
    + rewrite Hscript, error_block_text. reflexivity.
  - intros code rest Hcodes. change (successCodes e = code :: rest) in Hcodes.
    rewrite assertions_contract, assertions_status_block, Hcodes.
    eexists. reflexivity.
  - intros si Hfound Htruthy.
    assert (Hchecked : checkedSchema getResponseSchema e = Some (schema si)).
    { unfold checkedSchema, responseSchema. rewrite Hfound, Htruthy. reflexivity. }
    split.
    + rewrite properties_contract, Hchecked. apply property_assertion_text.
    + intros Hne. unfold generateContractTestScript, schema_block, responseSchema.
      rewrite Hfound, Htruthy. rewrite (required_block_text _ Hne).
      match goal with
      | |- exists before after,
             ?h ++ ?sb ++ ?pf ++ ?ct ++ (?l1 ++ ?m ++ ?l3 ++ ?rb) ++ ?err = _ =>
          exists (h ++ sb ++ pf ++ ct ++ l1 ++ m ++ l3), err;
          generalize h sb pf ct l1 m l3 rb err
      end.
      intros. rewrite <- !app_assoc. reflexivity.
  - intros Hnone. rewrite properties_contract. unfold checkedSchema, responseSchema.
    destruct Hnone as [->|(si & -> & ->)]; reflexivity.
Qed.

End WithParser.

(** C6 on the sample endpoint [GET /tasks/{taskId}]: its contract script,
    line by line. *)
Lemma contract_script_required_fields_witness :
  assertions (generateContractTestScript Samples.getResponseSchema
                Samples.getRequiredFields Samples.getTask)
    = [ "    pm.response.to.have.status(200);";
        "    pm.expect(pm.response.responseTime).to.be.below(threshold);";
        "    pm.response.to.have.header(" +:+ Scenario.quote +:+ "Content-Type"
          +:+ Scenario.quote +:+ ");";
        "    pm.expect(contentType).to.include(" +:+ Scenario.quote +:+ "application/json"
          +:+ Scenario.quote +:+ ");";
        "    pm.expect(jsonData).to.be.an('object');";
        "    pm.expect(dataToCheck).to.have.property('id');";
        "    pm.expect(dataToCheck).to.have.property('title');" ]
  /\ generateContractTestScript Samples.getResponseSchema
       Samples.getRequiredFields Samples.getTask
     = Scenario.contract_script "GET" "/tasks/{taskId}".
Proof.
  destruct (proj1 (contract_script_required_fields Samples.getResponseSchema
                     Samples.getRequiredFields Samples.getTask)
              [] (VObj [("schema", Samples.taskSchema)]) [] Samples.taskSchema
              eq_refl eq_refl eq_refl eq_refl eq_refl) as (Hassert & Hwhole).
  split.
  - rewrite Hassert. reflexivity.
  - rewrite Hwhole. reflexivity.
Defined.

(** C5 as stated fails on the sample endpoint: the smoke script asserts
    that the parsed body is defined, the contract script does not. *)
Lemma contract_not_superset_of_smoke :
  ~ (forall x,
       In x (assertions (generateSmokeTestScript Samples.getTask)) ->
       In x (assertions (generateContractTestScript Samples.getResponseSchema
                           Samples.getRequiredFields Samples.getTask))).
Proof.
  intros H. specialize (H body_defined_assertion).
  assert (Hin : In body_defined_assertion
                   (assertions (generateSmokeTestScript Samples.getTask)))
    by (vm_compute; auto).
  apply H, contract_assertion_forms in Hin.
  exact (body_defined_not_contract_form Hin).
Qed.

(** C10 on sample endpoints: the script of the endpoint named ["default"]
    is replaced by the template; [listTasks], which shares its name with
    [getTask] and comes later, provides the script; the endpoint named
    [__proto__] adds no property and becomes the prototype. *)
Lemma generateTestScriptsForSpec_default_assigned_last_witness :
  let o := generateTestScriptsForSpec
             (fun _ => [Samples.namedDefault; Samples.getTask; Samples.namedProto;
                        Samples.listTasks])
             Samples.getResponseSchema Samples.getRequiredFields
             Samples.taskApi SMOKE in
  own o !! "default" = Some Scenario.default_smoke_script
  /\ own o !! "Get a specific task" = Some (generateSmokeTestScript Samples.listTasks)
  /\ generateSmokeTestScript Samples.namedDefault <> Scenario.default_smoke_script
  /\ own o !! "__proto__" = None
  /\ proto o = Some (generateSmokeTestScript Samples.namedProto).
Proof.
  cbv zeta.
  destruct (generateTestScriptsForSpec_default_assigned_last
              (fun _ => [Samples.namedDefault; Samples.getTask; Samples.namedProto;
                         Samples.listTasks])
              Samples.getResponseSchema Samples.getRequiredFields
              Samples.taskApi SMOKE) as (Hdefault & Hother & Hkey & Hproto).
  split; [exact Hdefault|].
  split; [exact (Hother "Get a specific task" ltac:(discriminate) ltac:(discriminate))|].
  split; [discriminate|].
  split; [exact Hkey|exact Hproto].
Defined.

(** C5 on sample endpoints: the two status assertions of [listTasks], its
    error-shape assertion, and the property assertions of [getTask]. *)
Lemma tiers_share_only_latency_witness :
  (In (oneOf_assertion ["200"]) (assertions (generateSmokeTestScript Samples.listTasks))
   /\ In (status_assertion "200")
         (assertions (generateContractTestScript Samples.getResponseSchema
                        Samples.getRequiredFields Samples.listTasks)))
  /\ In error_assertion
        (assertions (generateContractTestScript Samples.getResponseSchema
                       Samples.getRequiredFields Samples.listTasks))
  /\ In (property_assertion "title")
        (assertions (generateContractTestScript Samples.getResponseSchema
                       Samples.getRequiredFields Samples.getTask)).
Proof.
  destruct (tiers_share_only_latency Samples.getResponseSchema Samples.getRequiredFields
              Samples.listTasks) as (_ & Hstatus & _ & _ & _ & _ & _ & Herror).
  destruct (tiers_share_only_latency Samples.getResponseSchema Samples.getRequiredFields
              Samples.getTask) as (_ & _ & _ & _ & _ & Hfields & _).
  split; [exact (Hstatus "200" [] eq_refl)|].
  split; [apply Herror; discriminate|].
  apply (Hfields Samples.taskSchema "title"); [reflexivity|]. simpl. auto.
Defined.

End GeneratorFacts.

(* ===================================================================== *)
(** * Facts about test injection *)
(* ===================================================================== *)

Module InjectorFacts.
Import Collection Injector.

(** The loops inside the tree functions are the list functions. *)
Lemma addTestsToItem_unfold (testScripts : reader) n r ev sub next :
  addTestsToItem testScripts (Item n r ev sub) next
  = let '(ev', next1, done) :=
      match r with
      | Some _ => inject testScripts n ev next
      | None => (ev, next, Js.Ok tt)
      end in
    match done with
    | Js.Throw e => (Item n r ev' sub, next1, Js.Throw e)
    | Js.Ok _ =>
        match sub with
        | Some l => let '(l', next2, done2) := addTestsToItems testScripts l next1 in
                    (Item n r ev' (Some l'), next2, done2)
        | None => (Item n r ev' None, next1, Js.Ok tt)
        end
    end.
Proof. reflexivity. Qed.

Lemma leaves_of_unfold n r ev sub :
  leaves_of (Item n r ev sub)
  = (if is_leaf (Item n r ev sub) then [Item n r ev sub] else [])
    ++ match sub with Some l => leaves l | None => [] end.
Proof. reflexivity. Qed.

Lemma frame_of_unfold n r ev sub :
  frame_of (Item n r ev sub)
  = Item n r (match r with Some _ => None | None => ev end)
         (match sub with Some l => Some (frame l) | None => None end).
Proof. reflexivity. Qed.

(** ** One leaf *)

Lemma filter_test_of_others (l : list event) :
  List.filter is_test (List.filter not_test l) = [].
Proof.
  induction l as [|e l IH]; [reflexivity|]. simpl.
  unfold not_test, is_test in *.
  destruct (String.eqb (listen e) "test") eqn:E; simpl; [exact IH|].
  by rewrite E.
Qed.

Lemma filter_others_twice (l : list event) :
  List.filter not_test (List.filter not_test l) = List.filter not_test l.
Proof.
  induction l as [|e l IH]; [reflexivity|]. simpl.
  destruct (not_test e) eqn:E; simpl; [rewrite E; by f_equal|exact IH].
Qed.

Lemma injected_events (l : list event) (r : N) (t : testScript) :
  let l' := List.filter not_test l ++ [test_event r t] in
  List.filter is_test l' = [test_event r t]
  /\ List.filter is_other l' = List.filter is_other l.
Proof.
  cbv zeta. change (List.filter is_other) with (List.filter not_test).
  rewrite !List.filter_app, filter_test_of_others, filter_others_twice.
  simpl. split; [reflexivity|apply app_nil_r].
Qed.

(** What a read of an object literal yields. *)
Lemma plain_own (m : gmap string testScript) (k : string) (t : testScript) :
  m !! k = Some t -> plain m k = Script t.
Proof. intros H. unfold plain. by rewrite H. Qed.

Lemma plain_inherited (m : gmap string testScript) (k : string) :
  m !! k = None -> plain m k = if Js.inherited k then Opaque else Absent.
Proof. intros H. unfold plain. by rewrite H. Qed.

(** A name reads a value that is no script exactly when the object only
    inherits it. *)
Lemma plain_opaque (m : gmap string testScript) (k : string) :
  plain m k = Opaque <-> m !! k = None /\ Js.inherited k = true.
Proof.
  unfold plain. destruct (m !! k) as [t|].
  - split; [discriminate|intros [H _]; discriminate].
  - destruct (Js.inherited k); split; try discriminate; auto.
    intros [_ H]. discriminate.
Qed.

Lemma plain_default (m : gmap string testScript) :
  has_default (plain m) <-> exists d, m !! "default" = Some d /\ script_truthy d = true.
Proof.
  unfold has_default, plain. split.
  - intros (d & Hd & Ht). destruct (m !! "default") as [t|]; [|discriminate].
    injection Hd as ->. eauto.
  - intros (d & Hd & Ht). rewrite Hd. eauto.
Qed.

Lemma lookup_script_none (m : gmap string testScript) (n : string) :
  m !! n = None -> m !! "default" = None ->
  lookup_script (plain m) n = if Js.inherited n then Opaque else Absent.
Proof.
  intros Hn Hd. unfold lookup_script.
  rewrite (plain_inherited m n Hn), (plain_inherited m "default" Hd).
  destruct (Js.inherited n); reflexivity.
Qed.

(** ** The whole tree *)

Section Injected.

Variable testScripts : reader.
Hypothesis Hdefault : has_default testScripts.

(** With a truthy ["default"] script, the body of [if (item.request)]
    either meets a value that is no script, and throws, or injects. *)
Lemma inject_cases (n : string) (ev : option (list event)) (next : N) :
  (testScripts n = Opaque
   /\ inject testScripts n ev next
      = (Some (List.filter not_test (default [] ev)), next, Js.Throw Js.TypeError))
  \/ (testScripts n <> Opaque
      /\ exists t,
           inject testScripts n ev next
           = (Some (List.filter not_test (default [] ev) ++ [test_event next t]),
              N.succ next, Js.Ok tt)).
Proof.
  destruct Hdefault as (d & Hd & Ht). unfold inject, lookup_script.
  destruct (testScripts n) as [t| |] eqn:En; simpl.
  - right. split; [discriminate|].
    destruct (script_truthy t) eqn:Et.
    + rewrite Et. eauto.
    + rewrite Hd, Ht. eauto.
  - left. auto.
  - right. split; [discriminate|]. rewrite Hd, Ht. eauto.
Qed.

Lemma injected_leaf n r ev sub sub' next t :
  leaf_injected (Item n (Some r) ev sub)
    (Item n (Some r) (Some (List.filter not_test (default [] ev) ++ [test_event next t])) sub').
Proof.
  unfold leaf_injected, events. simpl.
  destruct (injected_events (default [] ev) next t) as [-> ->]. auto.
Qed.

(** how the run over a node, or over a list of nodes, ends: it completes
    when every request node reads a script, and throws when one does not *)
Abbreviation item_run it next :=
  ((Forall (fun leaf => ~ opaque_at testScripts leaf) (leaves_of it)
    /\ done_of (addTestsToItem testScripts it next) = Js.Ok tt
    /\ frame_of (tree_of (addTestsToItem testScripts it next)) = frame_of it
    /\ Forall2 leaf_injected (leaves_of it)
         (leaves_of (tree_of (addTestsToItem testScripts it next))))
   \/ (Exists (opaque_at testScripts) (leaves_of it)
       /\ done_of (addTestsToItem testScripts it next) = Js.Throw Js.TypeError)).

Abbreviation items_run l next :=
  ((Forall (fun leaf => ~ opaque_at testScripts leaf) (leaves l)
    /\ done_of (addTestsToItems testScripts l next) = Js.Ok tt
    /\ frame (tree_of (addTestsToItems testScripts l next)) = frame l
    /\ Forall2 leaf_injected (leaves l)
         (leaves (tree_of (addTestsToItems testScripts l next))))
   \/ (Exists (opaque_at testScripts) (leaves l)
       /\ done_of (addTestsToItems testScripts l next) = Js.Throw Js.TypeError)).

Lemma addTestsToItems_tree :
  (forall it next, item_run it next) /\ (forall l next, items_run l next).
Proof.
  assert (Hnode : forall n r ev sub,
             (forall l, sub = Some l -> forall next, items_run l next) ->
             forall next, item_run (Item n r ev sub) next).
  { intros n r ev sub IH next. rewrite addTestsToItem_unfold, leaves_of_unfold.
    destruct r as [rq|].
    - destruct (inject_cases n ev next) as [[Hop ->]|[Hnop (t & ->)]].
      + right. split; [|reflexivity]. simpl. apply Exists_cons_hd. exact Hop.
      + cbv beta iota. destruct sub as [l|].
        * specialize (IH l eq_refl (N.succ next)).
          destruct (addTestsToItems testScripts l (N.succ next)) as [[l' n2] d2].
          unfold tree_of, done_of in *. cbn [fst snd] in IH |- *.
          destruct IH as [(Hs & Hd & Hf & Hl)|(Hex & Hd)].
          -- left. split; [constructor; [exact Hnop|exact Hs]|].
             split; [exact Hd|]. rewrite !frame_of_unfold, !leaves_of_unfold, Hf.
             split; [reflexivity|]. simpl. constructor; [apply injected_leaf|exact Hl].
          -- right. split; [apply Exists_cons_tl; exact Hex|exact Hd].
        * left. unfold tree_of, done_of. cbn [fst snd].
          split; [constructor; [exact Hnop|constructor]|].
          split; [reflexivity|]. split; [reflexivity|].
          constructor; [apply injected_leaf|constructor].
    - cbv beta iota. destruct sub as [l|].
      + specialize (IH l eq_refl next).
        destruct (addTestsToItems testScripts l next) as [[l' n2] d2].
        unfold tree_of, done_of in *. cbn [fst snd] in IH |- *.
        destruct IH as [(Hs & Hd & Hf & Hl)|(Hex & Hd)].
        * left. split; [exact Hs|]. split; [exact Hd|].
          rewrite !frame_of_unfold, !leaves_of_unfold, Hf. split; [reflexivity|].
          simpl. exact Hl.
        * right. split; [exact Hex|exact Hd].
      + left. unfold tree_of, done_of. cbn [fst snd].
        split; [constructor|]. split; [reflexivity|]. split; [reflexivity|constructor]. }
  assert (Hlist : forall it l,
             (forall next, item_run it next) -> (forall next, items_run l next) ->
             forall next, items_run (it :: l) next).
  { intros it l Hit Hl next. simpl.
    specialize (Hit next). destruct (addTestsToItem testScripts it next) as [[it' n1] d1].
    unfold tree_of, done_of in *. cbn [fst snd] in Hit.
    destruct Hit as [(Hs & -> & Hf & Hi)|(Hex & ->)].
    - specialize (Hl n1). destruct (addTestsToItems testScripts l n1) as [[l' n2] d2].
      cbn [fst snd] in Hl |- *. simpl. destruct Hl as [(Hs' & Hd' & Hf' & Hl')|(Hex' & Hd')].
      + left. split; [apply Forall_app; split; assumption|].
        split; [exact Hd'|]. rewrite Hf, Hf'. split; [reflexivity|].
        by apply Forall2_app.
      + right. split; [apply Exists_app; right; exact Hex'|exact Hd'].
    - right. simpl. split; [apply Exists_app; left; exact Hex|reflexivity]. }
  split.
  - apply (item_tree_ind (fun it => forall next, item_run it next)
             (fun l => forall next, items_run l next)).
    + intros n r e l IH. apply Hnode. intros l0 [= <-]. exact IH.
    + intros n r e. apply Hnode. intros l0 [=].
    + intros next. left. unfold tree_of, done_of. cbn [fst snd].
      split; [constructor|]. split; [reflexivity|]. split; [reflexivity|constructor].
    + exact Hlist.
  - apply (items_tree_ind (fun it => forall next, item_run it next)
             (fun l => forall next, items_run l next)).
    + intros n r e l IH. apply Hnode. intros l0 [= <-]. exact IH.
    + intros n r e. apply Hnode. intros l0 [=].
    + intros next. left. unfold tree_of, done_of. cbn [fst snd].
      split; [constructor|]. split; [reflexivity|]. split; [reflexivity|constructor].
    + exact Hlist.
Qed.

End Injected.

(** No list has both every element outside a class and one inside. *)
Lemma Forall_not_Exists {A} (P : A -> Prop) (l : list A) :
  Forall (fun x => ~ P x) l -> Exists P l -> False.
Proof.
  intros HF HE. induction HE as [x l Hx|x l _ IH].
  - inversion HF; subst. contradiction.
  - inversion HF; subst. auto.
Qed.

(** A run over a tree with a truthy default script, by the names of the
    request nodes. *)
Lemma addTestsToItems_run (testScripts : reader) (items : list item) (next : N) :
  has_default testScripts ->
  (Forall (fun leaf => ~ opaque_at testScripts leaf) (leaves items) ->
   done_of (addTestsToItems testScripts items next) = Js.Ok tt
   /\ frame (tree_of (addTestsToItems testScripts items next)) = frame items
   /\ Forall2 leaf_injected (leaves items)
        (leaves (tree_of (addTestsToItems testScripts items next))))
  /\ (Exists (opaque_at testScripts) (leaves items) ->
      done_of (addTestsToItems testScripts items next) = Js.Throw Js.TypeError).
Proof.
  intros Hdefault.
  destruct (proj2 (addTestsToItems_tree testScripts Hdefault) items next)
    as [(Hs & Hd & Hf & Hl)|(Hex & Hd)].
  - split; [auto|]. intros Hex. destruct (Forall_not_Exists _ _ Hs Hex).
  - split; [|auto]. intros Hs. destruct (Forall_not_Exists _ _ Hs Hex).
Qed.

(** Where C2 holds, and where it does not.  The script map is an object,
    read at the names of the request nodes and at ['default']; let its
    ['default'] entry be a script the injector accepts.  If no request node
    of the tree
    has a name at which the object reads a value that is no script (for an
    object literal: a name such as [constructor] or [toString], which it
    inherits, and does not own), then [addTestsToItems] returns, and every
    node carrying a request has exactly one event listening on ['test'],
    keeps its other events, the very objects and in their order, and keeps
    its name and request; and the tree is otherwise as it was: the same
    nodes in the same order and nesting, folders untouched.  If some
    request node has such a name, [addTestsToItems] throws a TypeError. *)
Theorem addTestsToItems_preserves_structure
    (items : list item) (testScripts : reader) (next : N) :
  has_default testScripts ->
  let run := addTestsToItems testScripts items next in
  (Forall (fun leaf => ~ opaque_at testScripts leaf) (leaves items) ->
   done_of run = Js.Ok tt
   /\ frame (tree_of run) = frame items
   /\ Forall2 leaf_injected (leaves items) (leaves (tree_of run)))
  /\ (Exists (opaque_at testScripts) (leaves items) ->
      done_of run = Js.Throw Js.TypeError).
Proof. intros Hdefault. cbv zeta. by apply addTestsToItems_run. Qed.

Lemma sample_default :
  has_default (plain (Lines <$> Samples.scriptsWithDefault)).
Proof. exists (Lines ["// default tests"]). split; reflexivity. Qed.

(** On the sample folder, with an object literal holding a default
    script: the leaf [X] loses its stale test event and keeps its
    pre-request hook. *)
Lemma addTestsToItems_preserves_structure_witness :
  has_default (plain (Lines <$> Samples.scriptsWithDefault))
  /\ Forall (fun leaf => ~ opaque_at (plain (Lines <$> Samples.scriptsWithDefault)) leaf)
       (leaves [Samples.tasksFolder])
  /\ done_of (addTestsToItems (plain (Lines <$> Samples.scriptsWithDefault))
                [Samples.tasksFolder] 3) = Js.Ok tt
  /\ frame (tree_of (addTestsToItems (plain (Lines <$> Samples.scriptsWithDefault))
                       [Samples.tasksFolder] 3))
     = frame [Samples.tasksFolder]
  /\ Forall2 leaf_injected (leaves [Samples.tasksFolder])
       (leaves (tree_of (addTestsToItems (plain (Lines <$> Samples.scriptsWithDefault))
                           [Samples.tasksFolder] 3))).
Proof.
  assert (Hnames : Forall (fun leaf =>
                             ~ opaque_at (plain (Lines <$> Samples.scriptsWithDefault)) leaf)
                     (leaves [Samples.tasksFolder]))
    by (repeat constructor; discriminate).
  split; [exact sample_default|]. split; [exact Hnames|].
  exact (proj1 (addTestsToItems_preserves_structure [Samples.tasksFolder]
                  (plain (Lines <$> Samples.scriptsWithDefault)) 3 sample_default) Hnames).
Defined.

(** The same run, computed: objects 3 and 4 are the two new test events. *)
Example addTestsToItems_sample :
  addTestsToItems (plain (Lines <$> Samples.scriptsWithDefault)) [Samples.tasksFolder] 3
  = ([ Item "Tasks" None None
         (Some [ Item "X" (Some Samples.getRequest)
                   (Some [ Samples.prerequestEvent;
                           test_event 3 (Lines ["// default tests"]) ]) None;
                 Item "Get a specific task" (Some Samples.getRequest)
                   (Some [ test_event 4 (Lines ["// default tests"]) ]) None ]) ],
     5%N, Js.Ok tt).
Proof. vm_compute. reflexivity. Qed.

(** C2 on an input where the code breaks it: the map is an object literal
    with a ["default"] script and nothing else, and the tree holds the leaf
    [X] and a leaf named [constructor].  The read at [constructor] yields
    the function every object inherits, where the lookup was to fall back
    on the default script; so the injector replaces the leaf's events by
    those that are no test and throws: the leaf is left without a test
    event, where the claim has exactly one. *)
Lemma inherited_name_breaks_injection :
  has_default (plain (Lines <$> Samples.scriptsWithDefault))
  /\ addTestsToItems (plain (Lines <$> Samples.scriptsWithDefault))
       [Samples.leafX; Samples.leafConstructor] 3
     = ([ Item "X" (Some Samples.getRequest)
            (Some [ Samples.prerequestEvent; test_event 3 (Lines ["// default tests"]) ])
            None;
          Item "constructor" (Some Samples.getRequest)
            (Some [ Samples.prerequestEvent ]) None ],
        4%N, Js.Throw Js.TypeError)
  /\ ~ Forall2 leaf_injected (leaves [Samples.leafX; Samples.leafConstructor])
         (leaves (tree_of (addTestsToItems (plain (Lines <$> Samples.scriptsWithDefault))
                             [Samples.leafX; Samples.leafConstructor] 3))).
Proof.
  split; [exact sample_default|]. split; [vm_compute; reflexivity|].
  intros H. vm_compute in H.
  inversion H as [|? ? ? ? _ Hrest]; subst.
  inversion Hrest as [|? ? ? ? Hleaf _]; subst.
  destruct Hleaf as [Hone _]. discriminate Hone.
Qed.

(** At a name every object inherits, such as [constructor], the read of
    an object literal that does not own the name yields a function: with no
    ["default"] entry either, the node's events are replaced by those that
    are no test, and a TypeError is thrown where the function is asked for
    its [split] method. *)
Lemma addTestsToItem_inherited_name
    (m : gmap string testScript) (n : string) (rq : request)
    (ev : option (list event)) (sub : option (list item)) (next : N) :
  m !! n = None ->
  m !! "default" = None ->
  Js.inherited n = true ->
  addTestsToItem (plain m) (Item n (Some rq) ev sub) next
  = (Item n (Some rq) (Some (List.filter is_other (default [] ev))) sub, next,
     Js.Throw Js.TypeError).
Proof.
  intros Hn Hd Hi. rewrite addTestsToItem_unfold.
  unfold inject. rewrite (lookup_script_none m n Hn Hd), Hi. reflexivity.
Qed.

(** C7, as the code has it.  A node carrying a request whose name is no
    key of the script map, own or inherited, is skipped without a word when
    the map has no ["default"] key either: the node comes back with its
    events as they were, no object is created for it, nothing is thrown for
    it, and the loop goes on into its children. *)
Theorem addTestsToItem_skips_unmatched
    (m : gmap string testScript) (n : string) (rq : request)
    (ev : option (list event)) (sub : option (list item)) (next : N) :
  m !! n = None ->
  Js.inherited n = false ->
  m !! "default" = None ->
  addTestsToItem (plain m) (Item n (Some rq) ev sub) next
  = match sub with
    | Some l => let '(l', next', done) := addTestsToItems (plain m) l next in
                (Item n (Some rq) ev (Some l'), next', done)
    | None => (Item n (Some rq) ev None, next, Js.Ok tt)
    end.
Proof.
  intros Hn Hi Hd. rewrite addTestsToItem_unfold.
  unfold inject. rewrite (lookup_script_none m n Hn Hd), Hi. reflexivity.
Qed.

(** C7 on the leaf [X] and a map that holds [Y] alone. *)
Lemma addTestsToItem_skips_unmatched_witness :
  addTestsToItem (plain Samples.scriptsWithoutDefault) Samples.leafX 3
  = (Samples.leafX, 3%N, Js.Ok tt).
Proof.
  apply (addTestsToItem_skips_unmatched Samples.scriptsWithoutDefault "X"
           Samples.getRequest (Some [Samples.prerequestEvent; Samples.staleTestEvent])
           None 3).
  - by apply lookup_singleton_ne.
  - reflexivity.
  - by apply lookup_singleton_ne.
Defined.

(** C7 as stated fails: the map has neither an entry for [X] nor a
    ["default"] entry, [X] is no name an object inherits, and the injector
    returns, handing back the leaf [X] as it was, its stale test event
    included. *)
Lemma unmatched_leaf_is_not_reported :
  Samples.scriptsWithoutDefault !! "X" = None
  /\ Samples.scriptsWithoutDefault !! "default" = None
  /\ addTestsToItems (plain Samples.scriptsWithoutDefault) [Samples.leafX] 3
     = ([Samples.leafX], 3%N, Js.Ok tt).
Proof.
  split; [by apply lookup_singleton_ne|].
  split; [by apply lookup_singleton_ne|].
  vm_compute. reflexivity.
Qed.

End InjectorFacts.


(* ===================================================================== *)
(** * Facts about the client and the orchestrator *)
(* ===================================================================== *)

Module RemoteFacts.
Import Js Remote.

Section Service.

Variable St : Type.
Variable serve : St -> call -> reply * St.

Abbreviation M := (M St).
Abbreviation bind := (bind St).
Abbreviation world := (world St).
Abbreviation answered := (answered St serve).

(** ** Sequencing *)

(** unfold the plumbing of a run and reduce what has become concrete *)
Ltac steps :=
  unfold Remote.bind, Remote.try_catch, Remote.emit, Remote.lift, Remote.ret, Remote.throw;
  cbv beta iota zeta.

Lemma bind_ok {A B} (m : M A) (f : A -> M B) w a w1 t1 :
  m w = (Ok a, w1, t1) ->
  bind m f w = (fst (fst (f a w1)), snd (fst (f a w1)), t1 ++ snd (f a w1)).
Proof.
  intros H. unfold Remote.bind. rewrite H. by destruct (f a w1) as [[r w2] t2].
Qed.

Lemma bind_throw {A B} (m : M A) (f : A -> M B) w e w1 t1 :
  m w = (Throw e, w1, t1) -> bind m f w = (Throw e, w1, t1).
Proof. intros H. unfold Remote.bind. by rewrite H. Qed.

Lemma bind_returns {A B} (m : M A) (f : A -> M B) w b w2 t :
  bind m f w = (Ok b, w2, t) ->
  exists a w1 t1 t2,
    m w = (Ok a, w1, t1) /\ f a w1 = (Ok b, w2, t2) /\ t = t1 ++ t2.
Proof.
  unfold Remote.bind. destruct (m w) as [[[a|e] w1] t1]; [|discriminate].
  destruct (f a w1) as [[r w2'] t2] eqn:E. intros [= -> -> <-].
  by exists a, w1, t1, t2.
Qed.

Lemma bind_ret {A B} (a : A) (f : A -> M B) w :
  bind (ret St a) f w = f a w.
Proof. unfold Remote.bind, ret. by destruct (f a w) as [[r w2] t2]. Qed.

(** ** One request *)

(** A request is one fetch; its outcome is read off the reply. *)
Lemma request_run (cl : client) (method endpoint : string) (body : val) (w : world) :
  let c := call_of cl method endpoint body in
  request St serve cl method endpoint body w
  = (request_outcome (fst (serve (remote w) c)), answered w c, [Fetch c]).
Proof.
  cbv zeta. unfold request, Remote.bind, fetch, Remote.answered.
  destruct (serve (remote w) (call_of cl method endpoint body)) as [r s'].
  destruct r as [|status [data|]]; try reflexivity.
  simpl. destruct (ok status); simpl; [reflexivity|].
  unfold lift. destruct (get data "error"); reflexivity.
Qed.

(** ** [uploadSpec] *)

Lemma uploadSpec_update (cl : client) (name content : string) (specId : val) (w : world) :
  truthy specId = true ->
  let c := patch_call cl specId content in
  uploadSpec St serve cl name content specId w
  = (obind (request_outcome (fst (serve (remote w) c))) (fun _ => Ok specId),
     answered w c, [Fetch c]).
Proof.
  intros Ht. cbv zeta. unfold uploadSpec.
  replace (match specId with VUndef => VNull | _ => specId end) with specId
    by (destruct specId; try reflexivity; discriminate).
  rewrite Ht. unfold Remote.bind. rewrite request_run. cbv zeta.
  fold (patch_call cl specId content).
  destruct (request_outcome _); reflexivity.
Qed.

Lemma uploadSpec_create (cl : client) (name content : string) (specId : val) (w : world) :
  truthy specId = false ->
  let c := create_call cl name content in
  uploadSpec St serve cl name content specId w
  = (obind (request_outcome (fst (serve (remote w) c))) (fun result => get result "id"),
     answered w c, [Fetch c]).
Proof.
  intros Ht. cbv zeta. unfold uploadSpec.
  replace (truthy (match specId with VUndef => VNull | _ => specId end)) with false
    by (destruct specId; try reflexivity; symmetry; exact Ht).
  unfold Remote.bind. rewrite request_run. cbv zeta.
  fold (create_call cl name content).
  destruct (request_outcome _) as [result|e]; [|reflexivity].
  unfold lift. reflexivity.
Qed.

(** ** The two poll loops *)

(** One turn of the generation poll: an error of the listing escapes, a
    match ends the wait, anything else leads to the next turn. *)
Lemma generation_turn (cl : client) (name : string) (maxAttempts k : nat) (w : world) :
  let c := list_call cl in
  let next := waitForCollectionGeneration_from St serve cl name maxAttempts k (answered w c) in
  waitForCollectionGeneration_from St serve cl name maxAttempts (S k) w
  = match obind (request_outcome (fst (serve (remote w) c)))
                (fun data => findCollection data name) with
    | Throw e => (Throw e, answered w c, [Sleep 2000; Fetch c])
    | Ok collection =>
        if truthy collection then (Ok tt, answered w c, [Sleep 2000; Fetch c])
        else (fst (fst next), snd (fst next), Sleep 2000 :: Fetch c :: snd next)
    end.
Proof.
  cbv zeta. cbn [waitForCollectionGeneration_from].
  unfold sleep, listCollections. steps. rewrite request_run. steps.
  fold (list_call cl).
  destruct (request_outcome _) as [data|e]; [|reflexivity].
  steps. cbn [obind].
  destruct (findCollection data name) as [collection|e]; [|reflexivity].
  steps. destruct (truthy collection); [reflexivity|].
  by destruct (waitForCollectionGeneration_from _ _ _ _ _ _ _) as [[r w2] t2].
Qed.

Lemma generation_exhausted (cl : client) (name : string) (maxAttempts k : nat) (w : world) :
  unlisted_for St serve cl name k (remote w) ->
  exists w',
    waitForCollectionGeneration_from St serve cl name maxAttempts k w
    = (Throw (Error (timeout_message maxAttempts)), w', turns (list_call cl) k).
Proof.
  revert w. induction k as [|k IH]; intros w H.
  - exists w. reflexivity.
  - rewrite generation_turn. cbv zeta. simpl in H.
    destruct (serve (remote w) (list_call cl)) as [r s'] eqn:E.
    destruct H as [(data & Hr & c & Hc & Hf) Hk].
    simpl fst. rewrite Hr. simpl obind. rewrite Hc, Hf.
    destruct (IH (answered w (list_call cl))) as [w' Hw'].
    { unfold Remote.answered. simpl. rewrite E. exact Hk. }
    exists w'. rewrite Hw'. reflexivity.
Qed.

(** One turn of the sync poll: whatever the fetch does, nothing escapes;
    a truthy body ends the wait, a failure is logged, and in both other
    cases the next turn follows. *)
Lemma sync_turn (cl : client) (collectionId : val) (maxAttempts i k : nat) (w : world) :
  let c := collection_call cl collectionId in
  let next := waitForCollectionSync_from St serve cl collectionId maxAttempts (S i) k
                (answered w c) in
  waitForCollectionSync_from St serve cl collectionId maxAttempts i (S k) w
  = match request_outcome (fst (serve (remote w) c)) with
    | Ok collection =>
        if truthy collection then (Ok tt, answered w c, [Sleep 2000; Fetch c])
        else (fst (fst next), snd (fst next), Sleep 2000 :: Fetch c :: snd next)
    | Throw _ =>
        (fst (fst next), snd (fst next),
         Sleep 2000 :: Fetch c :: ConsoleLog (waiting_message i maxAttempts) :: snd next)
    end.
Proof.
  cbv zeta. cbn [waitForCollectionSync_from].
  unfold sleep, getCollection. steps. rewrite request_run. steps.
  fold (collection_call cl collectionId).
  destruct (request_outcome _) as [collection|e]; steps.
  - destruct (truthy collection); [reflexivity|].
    by destruct (waitForCollectionSync_from _ _ _ _ _ _ _ _) as [[r w2] t2].
  - by destruct (waitForCollectionSync_from _ _ _ _ _ _ _ _) as [[r w2] t2].
Qed.

Lemma sync_wait_returns (cl : client) (collectionId : val) (maxAttempts i k : nat) (w : world) :
  exists w' t,
    waitForCollectionSync_from St serve cl collectionId maxAttempts i k w = (Ok tt, w', t).
Proof.
  revert i w. induction k as [|k IH]; intros i w.
  - eexists _, _. reflexivity.
  - rewrite sync_turn. cbv zeta.
    destruct (IH (S i) (answered w (collection_call cl collectionId))) as (w' & t & ->).
    destruct (request_outcome _) as [collection|e]; [destruct (truthy collection)|];
      eexists _, _; reflexivity.
Qed.

Lemma sync_wait_exhausted (cl : client) (collectionId : val) (maxAttempts i k : nat)
    (w : world) :
  unready_for St serve cl collectionId k (remote w) ->
  exists w' t,
    waitForCollectionSync_from St serve cl collectionId maxAttempts i k w
    = (Ok tt, w', t ++ [ConsoleWarn sync_warning])
    /\ fetches t = repeat (collection_call cl collectionId) k.
Proof.
  revert i w. induction k as [|k IH]; intros i w H.
  - exists w, []. split; reflexivity.
  - rewrite sync_turn. cbv zeta. simpl in H.
    destruct (serve (remote w) (collection_call cl collectionId)) as [r s'] eqn:E.
    destruct H as [Hr Hk]. simpl fst.
    destruct (IH (S i) (answered w (collection_call cl collectionId))) as (w' & t & Hw' & Ht).
    { unfold Remote.answered. simpl. rewrite E. exact Hk. }
    rewrite Hw'. destruct (request_outcome r) as [collection|e].
    + rewrite Hr. eexists w', (_ :: _ :: t). split; [reflexivity|].
      simpl. by rewrite Ht.
    + eexists w', (_ :: _ :: _ :: t). split; [reflexivity|].
      simpl. by rewrite Ht.
Qed.

(** ** [generateOrSyncCollection] *)

Notation "'do' x <- m ; k" := (Remote.bind St m (fun x => k))
  (at level 10, x name, m at level 100, k at level 200).

(** Both branches end alike: list the collections, find the name, and
    return the entry's uid or throw. *)
Lemma resolved_by_listing (cl : client) (name msg : string) (w w' : world)
    (uid : val) (t : list event) :
  (do collections <- listCollections St serve cl ;
   do collection <- lift St (findCollection collections name) ;
   if negb (truthy collection) then throw St (Error msg)
   else lift St (get collection "uid")) w = (Ok uid, w', t) ->
  exists data c,
    request_outcome (fst (serve (remote w) (list_call cl))) = Ok data
    /\ findCollection data name = Ok c
    /\ truthy c = true
    /\ get c "uid" = Ok uid
    /\ w' = answered w (list_call cl)
    /\ t = [Fetch (list_call cl)].
Proof.
  unfold listCollections. steps. rewrite request_run. steps.
  fold (list_call cl).
  destruct (request_outcome _) as [data|e] eqn:Hd; [|discriminate].
  steps. destruct (findCollection data name) as [c|e] eqn:Hc; [|discriminate].
  steps. destruct (truthy c) eqn:Ht; simpl; [|discriminate].
  intros [= Hu <- <-]. exists data, c. auto 10.
Qed.

(** A uid is only ever returned from an entry of a listing: the last call
    of the run is a listing, answered from the world [w0] the run had
    reached, and the uid is that of its entry with the name. *)
Lemma generateOrSyncCollection_confirmed (cl : client) (specId : val) (name : string)
    (options : list (string * val)) (w w' : world) (uid : val) (t : list event) :
  generateOrSyncCollection St serve cl specId name options w = (Ok uid, w', t) ->
  exists w0 data c t0,
    request_outcome (fst (serve (remote w0) (list_call cl))) = Ok data
    /\ findCollection data name = Ok c
    /\ truthy c = true
    /\ get c "uid" = Ok uid
    /\ w' = answered w0 (list_call cl)
    /\ t = t0 ++ [Fetch (list_call cl)].
Proof.
  unfold generateOrSyncCollection. intros H.
  apply bind_returns in H as (existing & w1 & t1 & t2 & _ & H & ->).
  apply bind_returns in H as (found & w2 & t3 & t4 & _ & H & ->).
  destruct (truthy found).
  - apply bind_returns in H as (id & w3 & t5 & t6 & _ & H & ->).
    apply bind_returns in H as (? & w4 & t7 & t8 & _ & H & ->).
    apply bind_returns in H as (? & w5 & t9 & t10 & _ & H & ->).
    apply bind_returns in H as (? & w6 & t11 & t12 & _ & H & ->).
    apply resolved_by_listing in H as (data & c & ? & ? & ? & ? & ? & ->).
    exists w6, data, c. eexists. repeat split; try eassumption.
    rewrite !app_assoc. reflexivity.
  - apply bind_returns in H as (? & w3 & t5 & t6 & _ & H & ->).
    apply bind_returns in H as (? & w4 & t7 & t8 & _ & H & ->).
    apply bind_returns in H as (? & w5 & t9 & t10 & _ & H & ->).
    apply resolved_by_listing in H as (data & c & ? & ? & ? & ? & ? & ->).
    exists w5, data, c. eexists. repeat split; try eassumption.
    rewrite !app_assoc. reflexivity.
Qed.

(** C3.  The generation poll, when none of its [n] listings holds the name,
    throws the timeout error after [n] turns, and [generateOrSyncCollection]
    returns a uid only as the [uid] of an entry with the requested name in a
    listing the service answered with.  The sync poll never throws: a turn
    whose fetch fails is logged and followed by the next turn, and when
    every turn fails or finds nothing the wait ends, after [n] fetches, with
    a warning and a normal return. *)
Theorem poll_loops_differ_on_exhaustion (cl : client) :
  (forall name n w,
     unlisted_for St serve cl name n (remote w) ->
     exists w',
       waitForCollectionGeneration St serve cl name n w
       = (Throw (Error (timeout_message n)), w', turns (list_call cl) n))
  /\ (forall specId name options w w' uid t,
        generateOrSyncCollection St serve cl specId name options w = (Ok uid, w', t) ->
        exists w0 data c t0,
          request_outcome (fst (serve (remote w0) (list_call cl))) = Ok data
          /\ findCollection data name = Ok c
          /\ truthy c = true
          /\ get c "uid" = Ok uid
          /\ w' = answered w0 (list_call cl)
          /\ t = t0 ++ [Fetch (list_call cl)])
  /\ (forall collectionId n w,
        exists w' t, waitForCollectionSync St serve cl collectionId n w = (Ok tt, w', t))
  /\ (forall collectionId n w,
        unready_for St serve cl collectionId n (remote w) ->
        exists w' t,
          waitForCollectionSync St serve cl collectionId n w
          = (Ok tt, w', t ++ [ConsoleWarn sync_warning])
          /\ fetches t = repeat (collection_call cl collectionId) n)
  /\ (forall collectionId maxAttempts i k w e,
        let c := collection_call cl collectionId in
        let next := waitForCollectionSync_from St serve cl collectionId maxAttempts (S i) k
                      (answered w c) in
        request_outcome (fst (serve (remote w) c)) = Throw e ->
        waitForCollectionSync_from St serve cl collectionId maxAttempts i (S k) w
        = (fst (fst next), snd (fst next),
           Sleep 2000 :: Fetch c :: ConsoleLog (waiting_message i maxAttempts) :: snd next)).
Proof.
  split; [intros name n w H; by apply generation_exhausted|].
  split; [intros *; apply generateOrSyncCollection_confirmed|].
  split; [intros id n w; apply sync_wait_returns|].
  split; [intros id n w H; by apply sync_wait_exhausted|].
  intros id maxAttempts i k w e c next H. subst c next.
  rewrite sync_turn. cbv zeta. by rewrite H.
Qed.

End Service.

Section Orchestrator.

Variable St : Type.
Variable serve : St -> call -> reply * St.
Variable parseSpec : val -> outcome OpenApi.api.
Variable readFileSync : val -> outcome string.
Variable extractEndpoints : OpenApi.api -> list OpenApi.endpoint.
Variable getResponseSchema :
  list (string * OpenApi.response) -> string -> option OpenApi.schemaInfo.
Variable getRequiredFields : val -> list string.
Variable generateCollection :
  client -> val -> string -> list (string * val) -> Remote.M St val.
Variable arrayMembers : list string.

Abbreviation world := (world St).
Abbreviation answered := (answered St serve).
Abbreviation checkExistingSpec := (checkExistingSpec St serve).
Abbreviation uploadStage := (uploadStage St serve readFileSync).
Abbreviation resolveAndUpload := (resolveAndUpload St serve readFileSync).
Abbreviation docsStage := (docsStage St generateCollection).
Abbreviation smokeStage :=
  (smokeStage St serve extractEndpoints getResponseSchema getRequiredFields generateCollection
              arrayMembers).
Abbreviation contractStage :=
  (contractStage St serve extractEndpoints getResponseSchema getRequiredFields
                 generateCollection arrayMembers).
Abbreviation testStages :=
  (testStages St serve extractEndpoints getResponseSchema getRequiredFields generateCollection
              arrayMembers).
Abbreviation scriptsForSpec :=
  (Generator.generateTestScriptsForSpec extractEndpoints getResponseSchema getRequiredFields).
Abbreviation smokeTier :=
  (smokeTier St serve extractEndpoints getResponseSchema getRequiredFields generateCollection
             arrayMembers).
Abbreviation contractTier :=
  (contractTier St serve extractEndpoints getResponseSchema getRequiredFields
                generateCollection arrayMembers).
Abbreviation sync :=
  (sync St serve parseSpec readFileSync extractEndpoints getResponseSchema
        getRequiredFields generateCollection arrayMembers).

Ltac steps :=
  unfold Remote.bind, Remote.try_catch, Remote.emit, Remote.lift, Remote.ret, Remote.throw;
  cbv beta iota zeta.

(** ** Steps 2 and 3 *)

(** The lookup of the existing spec never fails the run. *)
Lemma checkExistingSpec_returns (cl : client) (specName : string) (w : world) :
  exists specId w' t, checkExistingSpec cl specName w = (Ok specId, w', t).
Proof.
  unfold Remote.checkExistingSpec. steps.
  destruct (findSpecByName St serve cl specName w) as [[[existing|e] w1] t1].
  - destruct (truthy existing).
    + destruct (get existing "id"); eexists _, _, _; reflexivity.
    + eexists _, _, _; reflexivity.
  - eexists _, _, _; reflexivity.
Qed.


Lemma findSpecByName_run (cl : client) (specName : string) (w : world) :
  findSpecByName St serve cl specName w
  = (obind (request_outcome (fst (serve (remote w) (specs_call cl))))
       (fun result => obind (get result "specs")
          (fun specs => find_by_name (or_else specs (VArr [])) specName)),
     answered w (specs_call cl), [Fetch (specs_call cl)]).
Proof.
  unfold findSpecByName, listSpecs. steps. rewrite request_run. steps.
  fold (specs_call cl).
  destruct (request_outcome _) as [result|e]; [|reflexivity]. steps. simpl obind.
  destruct (get result "specs") as [specs|e]; [|reflexivity]. steps. simpl obind.
  destruct (find_by_name _ _); reflexivity.
Qed.

(** When the lookup finds the spec, Steps 2 and 3 are the listing and one
    PATCH of the identifier found. *)
Lemma resolveAndUpload_found (o : Options.t) (cl : client) (specName content : string)
    (w : world) (data specs existing specId : val) :
  request_outcome (fst (serve (remote w) (specs_call cl))) = Ok data ->
  get data "specs" = Ok specs ->
  find_by_name (or_else specs (VArr [])) specName = Ok existing ->
  truthy existing = true ->
  get existing "id" = Ok specId ->
  truthy specId = true ->
  readFileSync (Options.spec o) = Ok content ->
  fetches (snd (resolveAndUpload o cl specName w))
  = [specs_call cl; patch_call cl specId content].
Proof.
  intros Hd Hs Hf He Hi Ht Hc.
  unfold Remote.resolveAndUpload, Remote.checkExistingSpec, Remote.uploadStage. steps.
  rewrite findSpecByName_run, Hd. simpl obind. rewrite Hs. simpl obind. rewrite Hf.
  steps. rewrite He, Hi, Hc. steps.
  rewrite (uploadSpec_update St serve cl specName content specId _ Ht). cbv zeta.
  destruct (request_outcome
              (fst (serve (remote (answered w (specs_call cl)))
                      (patch_call cl specId content)))); reflexivity.
Qed.

(** C1, as the code has it.  With a truthy [specId] (any non-empty
    identifier) [uploadSpec] makes exactly one request, the PATCH of that
    identifier's [index.json], and, if it succeeds, returns the very
    [specId]; with a falsy one ([null], [undefined], the empty string) it
    makes exactly one request, the POST create, and returns the [id] of the
    response.  So when the lookup of [sync] finds the name with a non-empty
    identifier, Steps 2 and 3 issue the listing and then a single PATCH
    against that identifier, and no create. *)
Theorem uploadSpec_upserts (o : Options.t) (cl : client) (specName content : string)
    (specId : val) (w : world) :
  (truthy specId = true ->
     let c := patch_call cl specId content in
     uploadSpec St serve cl specName content specId w
     = (obind (request_outcome (fst (serve (remote w) c))) (fun _ => Ok specId),
        answered w c, [Fetch c]))
  /\ (truthy specId = false ->
        let c := create_call cl specName content in
        uploadSpec St serve cl specName content specId w
        = (obind (request_outcome (fst (serve (remote w) c)))
                 (fun result => get result "id"),
           answered w c, [Fetch c]))
  /\ (forall data specs existing,
        request_outcome (fst (serve (remote w) (specs_call cl))) = Ok data ->
        get data "specs" = Ok specs ->
        find_by_name (or_else specs (VArr [])) specName = Ok existing ->
        truthy existing = true ->
        get existing "id" = Ok specId ->
        truthy specId = true ->
        readFileSync (Options.spec o) = Ok content ->
        fetches (snd (resolveAndUpload o cl specName w))
        = [specs_call cl; patch_call cl specId content]).
Proof.
  split; [apply uploadSpec_update|].
  split; [apply uploadSpec_create|].
  intros data specs existing. apply resolveAndUpload_found.
Qed.

(** ** Which failures end the run *)




(** A run that is no dry run, once its options are checked and its spec is
    parsed, is Steps 2 and 3, the docs stage, and the stages after it. *)
Lemma sync_run (o : Options.t) (a : OpenApi.api) (w : world) :
  valid o ->
  Options.dryRun o = false ->
  parseSpec (Options.spec o) = Ok a ->
  let stages :=
    Remote.bind St (resolveAndUpload o (clientOf o) (specNameOf a)) (fun specId =>
    Remote.bind St (docsStage (clientOf o) (specNameOf a) specId) (fun docs =>
    testStages o a (clientOf o) (specNameOf a) specId docs)) in
  sync o w = (fst (fst (stages w)), snd (fst (stages w)), prelude o a ++ snd (stages w)).
Proof.
  intros (Hs & Hk & Hw) Hdry Hparse. cbv zeta.
  unfold Remote.sync, validateOptions, clientOf, specNameOf. steps.
  rewrite Hs, Hk, Hw, Hdry, Hparse. cbv beta iota zeta delta [negb].
  destruct (resolveAndUpload _ _ _ _) as [[[specId|e] w1] t1]; [|reflexivity].
  destruct (docsStage _ _ _ _) as [[[docs|e] w2] t2]; [|reflexivity].
  destruct (testStages _ _ _ _ _ _ _) as [[r w3] t3]. reflexivity.
Qed.


(** After Steps 2 and 3 and the docs stage, whatever the later stages do
    is what the run does. *)
Lemma sync_stages (o : Options.t) (a : OpenApi.api) (w w1 w2 : world)
    (specId : val) (docs : list generated) (t1 t2 : list event) :
  valid o ->
  Options.dryRun o = false ->
  parseSpec (Options.spec o) = Ok a ->
  resolveAndUpload o (clientOf o) (specNameOf a) w = (Ok specId, w1, t1) ->
  docsStage (clientOf o) (specNameOf a) specId w1 = (Ok docs, w2, t2) ->
  let rest := testStages o a (clientOf o) (specNameOf a) specId docs w2 in
  sync o w = (fst (fst rest), snd (fst rest), prelude o a ++ t1 ++ t2 ++ snd rest).
Proof.
  intros Hv Hdry Hparse H1 H2. rewrite (sync_run o a w Hv Hdry Hparse). cbv zeta.
  rewrite (bind_ok St _ _ _ _ _ _ H1), (bind_ok St _ _ _ _ _ _ H2).
  cbn [fst snd]. reflexivity.
Qed.


Lemma smokeStage_injection_fatal (a : OpenApi.api) (cl : client) (specName : string)
    (specId uid : val) (w w1 w2 : world) (e : exn) (t1 t2 : list event) :
  generateCollection cl specId (specName +:+ " - Smoke Tests") generationOptions w
    = (Ok uid, w1, t1) ->
  addTestScripts St serve cl uid
    (Injector.generated arrayMembers (scriptsForSpec a Generator.SMOKE)) w1
    = (Throw e, w2, t2) ->
  exists t, smokeStage a cl specName specId w = (Throw e, w2, t).
Proof.
  intros H1 H2. unfold Remote.smokeStage, sleep. steps. rewrite H1. steps.
  rewrite H2. eexists. reflexivity.
Qed.


Lemma contractStage_injection_fatal (o : Options.t) (a : OpenApi.api) (cl : client)
    (specName : string) (specId uid : val) (w w1 w2 : world) (e : exn)
    (t1 t2 : list event) :
  generateCollection cl specId (specName +:+ " - Contract Tests") generationOptions w
    = (Ok uid, w1, t1) ->
  addTestScripts St serve cl uid
    (Injector.generated arrayMembers (scriptsForSpec a Generator.CONTRACT)) w1
    = (Throw e, w2, t2) ->
  exists t, contractStage o a cl specName specId w = (Throw e, w2, t).
Proof.
  intros H1 H2. unfold Remote.contractStage, sleep. steps. rewrite H1. steps.
  rewrite H2. eexists. reflexivity.
Qed.



End Orchestrator.

(** ** The run as the sources stand *)

Section Undeclared.

Variable St : Type.
Variable serve : St -> call -> reply * St.
Variable parseSpec : val -> outcome OpenApi.api.
Variable readFileSync : val -> outcome string.
Variable extractEndpoints : OpenApi.api -> list OpenApi.endpoint.
Variable getResponseSchema :
  list (string * OpenApi.response) -> string -> option OpenApi.schemaInfo.
Variable getRequiredFields : val -> list string.
Variable arrayMembers : list string.

Abbreviation world := (world St).
Abbreviation resolveAndUpload := (resolveAndUpload St serve readFileSync).
Abbreviation docsStage := (docsStage St (generateCollection_undeclared St)).
Abbreviation testStages :=
  (testStages St serve extractEndpoints getResponseSchema getRequiredFields
              (generateCollection_undeclared St) arrayMembers).
Abbreviation sync :=
  (sync St serve parseSpec readFileSync extractEndpoints getResponseSchema
        getRequiredFields (generateCollection_undeclared St) arrayMembers).

Ltac steps :=
  unfold Remote.bind, Remote.try_catch, Remote.emit, Remote.lift, Remote.ret, Remote.throw;
  cbv beta iota zeta.

(** Step 4 calls a method the client does not have: the docs stage logs
    the TypeError and hands on no collection. *)
Lemma docsStage_undeclared (cl : client) (specName : string) (specId : val) (w : world) :
  docsStage cl specName specId w
  = (Ok [], w,
     [ LogStep "Step 4" "Generating docs collection from Spec Hub";
       LogFailure "Failed to generate docs collection: " TypeError ]).
Proof. reflexivity. Qed.

(** The stages after the docs stage: the first tier the test level selects
    calls the same method, unguarded; with no tier selected the environment
    step and the summary remain. *)
Lemma testStages_undeclared (o : Options.t) (a : OpenApi.api) (cl : client)
    (specName : string) (specId : val) (w : world) :
  testStages o a cl specName specId [] w
  = if generateSmoke o then
      (Throw TypeError, w,
       [ LogInfo "Waiting for Spec Hub..."; Sleep 3000;
         LogStep "Step 5" "Generating smoke test collection from Spec Hub" ])
    else if generateContract o then
      (Throw TypeError, w,
       [ LogInfo "Waiting for Spec Hub..."; Sleep 3000;
         LogStep "Step 5" "Generating contract test collection from Spec Hub" ])
    else
      Remote.bind St (environmentStage St serve o a cl)
        (fun _ => summary St o specName specId []) w.
Proof.
  unfold Remote.testStages, Remote.smokeTier, Remote.contractTier,
    Remote.smokeStage, Remote.contractStage, generateCollection_undeclared, sleep.
  destruct (generateSmoke o) eqn:Hs; [reflexivity|].
  destruct (generateContract o) eqn:Hc; [reflexivity|].
  steps. cbn [app]. destruct (environmentStage St serve o a cl w) as [[[u|e] w1] t1]; [|reflexivity].
  destruct (summary St o specName specId [] w1) as [[r w2] t2]. reflexivity.
Qed.

(** The run as the sources stand, once Steps 2 and 3 are done: the docs
    stage logs the TypeError of the undeclared method; the first tier the
    test level selects calls the same method outside any guard and ends the
    run with that TypeError; with no tier selected the run carries out the
    environment step and the summary. *)
Lemma sync_undeclared (o : Options.t) (a : OpenApi.api) (w : world) :
  valid o ->
  Options.dryRun o = false ->
  parseSpec (Options.spec o) = Ok a ->
  let cl := clientOf o in
  let specName := specNameOf a in
  let docsLog :=
    [ LogStep "Step 4" "Generating docs collection from Spec Hub";
      LogFailure "Failed to generate docs collection: " TypeError ] in
  let waiting := [ LogInfo "Waiting for Spec Hub..."; Sleep 3000 ] in
  (forall specId w1 t1,
     resolveAndUpload o cl specName w = (Ok specId, w1, t1) ->
     sync o w
     = if generateSmoke o then
         (Throw TypeError, w1,
          prelude o a ++ t1 ++ docsLog ++ waiting
          ++ [LogStep "Step 5" "Generating smoke test collection from Spec Hub"])
       else if generateContract o then
         (Throw TypeError, w1,
          prelude o a ++ t1 ++ docsLog ++ waiting
          ++ [LogStep "Step 5" "Generating contract test collection from Spec Hub"])
       else
         let rest :=
           Remote.bind St (environmentStage St serve o a cl)
             (fun _ => summary St o specName specId []) w1 in
         (fst (fst rest), snd (fst rest), prelude o a ++ t1 ++ docsLog ++ snd rest))
  /\ (forall specId w1 t1 e w2 t2,
        resolveAndUpload o cl specName w = (Ok specId, w1, t1) ->
        generateSmoke o = false ->
        generateContract o = false ->
        environmentStage St serve o a cl w1 = (Throw e, w2, t2) ->
        sync o w = (Throw e, w2, prelude o a ++ t1 ++ docsLog ++ t2)).
Proof.
  intros Hv Hdry Hparse. cbv zeta.
  assert (Hrun : forall specId w1 t1,
             resolveAndUpload o (clientOf o) (specNameOf a) w = (Ok specId, w1, t1) ->
             let rest := testStages o a (clientOf o) (specNameOf a) specId [] w1 in
             sync o w
             = (fst (fst rest), snd (fst rest),
                prelude o a ++ t1
                ++ [ LogStep "Step 4" "Generating docs collection from Spec Hub";
                     LogFailure "Failed to generate docs collection: " TypeError ]
                ++ snd rest)).
  { intros specId w1 t1 H1.
    exact (sync_stages St serve parseSpec readFileSync extractEndpoints getResponseSchema
             getRequiredFields (generateCollection_undeclared St) arrayMembers
             o a w w1 w1 specId [] t1 _ Hv Hdry Hparse H1
             (docsStage_undeclared (clientOf o) (specNameOf a) specId w1)). }
  split.
  - intros specId w1 t1 H1. rewrite (Hrun specId w1 t1 H1). cbv zeta.
    rewrite testStages_undeclared.
    destruct (generateSmoke o); [reflexivity|].
    destruct (generateContract o); reflexivity.
  - intros specId w1 t1 e w2 t2 H1 Hs Hc He. rewrite (Hrun specId w1 t1 H1). cbv zeta.
    rewrite testStages_undeclared, Hs, Hc.
    rewrite (bind_throw St _ _ _ _ _ _ He). reflexivity.
Qed.

End Undeclared.

(** C3 on two services: one whose listings stay empty, one that answers
    nothing. *)
Lemma poll_loops_differ_on_exhaustion_witness :
  (exists w',
     waitForCollectionGeneration unit Samples.emptyHub Samples.taskClient
       "Task API - Docs" 10 Samples.unitWorld
     = (Throw (Error "Collection generation timed out after 20 seconds"), w',
        turns (list_call Samples.taskClient) 10))
  /\ (exists w' t,
        waitForCollectionSync unit Samples.deadHub Samples.taskClient
          (VStr "id:Task API - Docs") 10 Samples.unitWorld
        = (Ok tt, w', t ++ [ConsoleWarn sync_warning])
        /\ fetches t
           = repeat (collection_call Samples.taskClient (VStr "id:Task API - Docs")) 10).
Proof.
  destruct (poll_loops_differ_on_exhaustion unit Samples.emptyHub Samples.taskClient)
    as (Hgen & _).
  destruct (poll_loops_differ_on_exhaustion unit Samples.deadHub Samples.taskClient)
    as (_ & _ & _ & Hsync & _).
  split.
  - apply (Hgen "Task API - Docs" 10%nat Samples.unitWorld).
    simpl. repeat split; eauto.
  - apply (Hsync (VStr "id:Task API - Docs") 10%nat Samples.unitWorld).
    simpl. tauto.
Defined.

(** C1 on the small Spec Hub, which holds [Task API] as [spec-1]: Steps 2
    and 3 of [sync] are the listing and one PATCH of [spec-1]. *)
Lemma uploadSpec_upserts_witness :
  uploadSpec (list string) Samples.hub Samples.taskClient "Task API" "openapi: 3.0.3"
    (VStr "spec-1") Samples.hubWorld
  = (Ok (VStr "spec-1"), Samples.hubWorld,
     [Fetch (patch_call Samples.taskClient (VStr "spec-1") "openapi: 3.0.3")])
  /\ fetches (snd (resolveAndUpload (list string) Samples.hub Samples.readFileSync
                     Samples.allOptions Samples.taskClient "Task API" Samples.hubWorld))
     = [ specs_call Samples.taskClient;
         patch_call Samples.taskClient (VStr "spec-1") "openapi: 3.0.3" ].
Proof.
  destruct (uploadSpec_upserts (list string) Samples.hub Samples.readFileSync
              Samples.allOptions Samples.taskClient "Task API" "openapi: 3.0.3"
              (VStr "spec-1") Samples.hubWorld) as (Hupdate & _ & Hfound).
  split.
  - exact (Hupdate eq_refl).
  - eapply Hfound; reflexivity.
Defined.

(** C1 as stated fails for the empty identifier: it is not [null], yet
    [uploadSpec] creates a spec and returns the new identifier. *)
Lemma uploadSpec_empty_id_creates :
  VStr "" <> VNull
  /\ uploadSpec (list string) Samples.hub Samples.taskClient "Task API" "openapi: 3.0.3"
       (VStr "") Samples.hubWorld
     = (Ok (VStr "spec-2"), Samples.hubWorld,
        [Fetch (create_call Samples.taskClient "Task API" "openapi: 3.0.3")]).
Proof. split; [discriminate|]. vm_compute. reflexivity. Qed.


Lemma typoOptions_valid : valid Samples.typoOptions.
Proof. repeat split. Qed.



End RemoteFacts.

(* ===================================================================== *)
(** * Where [validateTag] keeps its contract *)
(* ===================================================================== *)

Module TagContract.
Import Js Tag TagFacts.

Lemma toLowerCase_length s : String.length (toLowerCase s) = String.length s.
Proof. induction s as [|c r IH]; [reflexivity|]. simpl. by rewrite IH. Qed.

Lemma replace_invalid_length b s :
  String.length (replace_invalid b s) <= String.length s.
Proof.
  revert b. induction s as [|c r IH]; intros b; [reflexivity|]. simpl.
  destruct (tag_char c); [|destruct b]; simpl;
    [specialize (IH false)|specialize (IH true)|specialize (IH true)]; lia.
Qed.

Lemma strip_leading_length s : String.length (strip_leading s) <= String.length s.
Proof.
  induction s as [|c r IH]; [reflexivity|]. simpl.
  destruct (is_hyphen c); simpl; lia.
Qed.

(** what is left of the input once it is lowered, cleaned and trimmed *)
Lemma cleaned (s : string) :
  let c0 := trim_hyphens (replace_invalid false (toLowerCase s)) in
  all_chars tag_char c0 = true
  /\ String.length c0 <= String.length s
  /\ (c0 = EmptyString \/ ends_with_alnum c0 = true).
Proof.
  cbv zeta. unfold trim_hyphens.
  set (x := strip_leading (replace_invalid false (toLowerCase s))).
  assert (Hx : all_chars tag_char x = true)
    by apply strip_leading_chars, replace_invalid_chars.
  split; [by apply strip_trailing_chars|]. split.
  - etransitivity; [apply strip_trailing_length|]. subst x.
    etransitivity; [apply strip_leading_length|].
    etransitivity; [apply replace_invalid_length|]. by rewrite toLowerCase_length.
  - pose proof (strip_trailing_last x) as Hlast. unfold ends_with_alnum.
    destruct (last_char (strip_trailing x)) as [l|] eqn:El; [right|by left].
    apply tag_char_alnum; [|exact Hlast].
    exact (all_chars_last _ _ _ (strip_trailing_chars _ _ Hx) El).
Qed.

(** Cutting at 64 characters keeps the first two when the second is no
    hyphen. *)
Lemma cut_keeps_two (a b : ascii) (r : string) :
  is_hyphen b = false ->
  2 <= String.length (strip_trailing (take_chars 64 (String a (String b r)))).
Proof.
  intros Hb.
  change (take_chars 64 (String a (String b r)))
    with (String a (String b (take_chars 62 r))).
  destruct (strip_trailing_head b (take_chars 62 r) Hb) as [r' Hr'].
  change (strip_trailing (String a (String b (take_chars 62 r))))
    with (match strip_trailing (String b (take_chars 62 r)) with
          | EmptyString => if is_hyphen a then EmptyString else String a EmptyString
          | r' => String a r'
          end).
  rewrite Hr'. simpl. lia.
Qed.

(** The last stage of [validateTag] on a repaired tag that is either short
    enough or has no hyphen in second place. *)
Lemma length_stage (c3 : string) :
  tag_shape c3 = true ->
  2 <= String.length c3 ->
  (64 < String.length c3 ->
   exists a b r, c3 = String a (String b r) /\ is_hyphen b = false) ->
  tag_ok (if (64 <? String.length c3)%nat then
            let clean := strip_trailing (take_chars 64 c3) in
            if negb (ends_with_alnum clean) then take_chars 63 clean +:+ "0" else clean
          else c3) = true.
Proof.
  intros Hs H2 Hlong. destruct (64 <? String.length c3)%nat eqn:L.
  - apply Nat.ltb_lt in L. destruct (Hlong L) as (a & b & r & -> & Hb).
    destruct (truncated_shape _ Hs) as [Ht Hl]. cbv zeta in Ht, Hl |- *.
    pose proof (cut_keeps_two a b r Hb) as Htwo.
    assert (E : ends_with_alnum (strip_trailing (take_chars 64 (String a (String b r)))) = true).
    { unfold tag_shape in Ht. by apply andb_true_iff in Ht as [[_ E]%andb_true_iff _]. }
    rewrite E. cbn [negb]. unfold tag_ok. rewrite Ht. cbn [andb].
    apply andb_true_iff. split; apply Nat.leb_le; lia.
  - apply Nat.ltb_ge in L. unfold tag_ok. rewrite Hs. cbn [andb].
    apply andb_true_iff. split; apply Nat.leb_le; lia.
Qed.

Lemma validate_string_up_to_64 (s : string) :
  String.length s <= 64 -> tag_ok (validate_string s) = true.
Proof.
  intros Hlen. unfold validate_string.
  destruct (cleaned s) as (H0 & L0 & E0). cbv zeta in H0, L0, E0.
  set (c0 := trim_hyphens (replace_invalid false (toLowerCase s))) in *.
  destruct (repaired_ends c0 H0) as [Hs H2]. cbv zeta in Hs, H2.
  set (c1 := if negb (starts_with_letter c0) then "tag-" +:+ c0 else c0) in *.
  set (c2 := if negb (ends_with_alnum c1) then c1 +:+ "0" else c1) in *.
  set (c3 := if (String.length c2 <? 2)%nat then "tag-" +:+ c2 else c2) in *.
  apply (length_stage c3 Hs H2). intros Hlong.
  destruct (starts_with_letter c0) eqn:S0.
  - (* a letter first: nothing is added but the prefix of a one-letter tag *)
    exfalso. assert (c1 = c0) as Hc1 by reflexivity.
    assert (c2 = c0) as Hc2.
    { subst c2. rewrite Hc1.
      destruct E0 as [E0|E0]; [rewrite E0 in S0; discriminate|by rewrite E0]. }
    subst c3. rewrite Hc2 in Hlong.
    destruct (String.length c0 <? 2)%nat eqn:L2.
    + apply Nat.ltb_lt in L2. rewrite append_length in Hlong. simpl in Hlong. lia.
    + lia.
  - (* the prefix [tag-] comes first *)
    assert (Hc1 : c1 = String "t" (String "a" ("g-" +:+ c0))) by reflexivity.
    assert (Hc2 : exists r, c2 = String "t" (String "a" r)).
    { subst c2. rewrite Hc1.
      destruct (ends_with_alnum (String "t" (String "a" ("g-" +:+ c0))));
        simpl; eexists; reflexivity. }
    destruct Hc2 as [r Hr]. exists "t"%char, "a"%char, r. split; [|reflexivity].
    subst c3. rewrite Hr. reflexivity.
Qed.

(** X1.  On every non-empty input of at most 64 ASCII characters
    [validateTag] returns a tag that meets the documented contract (a
    letter first, a letter or digit last, lowercase letters, digits and
    hyphens throughout, 2 to 64 characters), and validating that tag again
    returns it unchanged.  The input is ASCII because that is where
    [toLowerCase] is modelled to the letter: beyond it the method can
    change the length of a string. *)
Theorem validateTag_contract_up_to_64 (s : string) :
  s <> EmptyString ->
  ascii_only s = true ->
  String.length s <= 64 ->
  exists t, validateTag (VStr s) = Ok t
            /\ tag_ok t = true
            /\ validateTag (VStr t) = Ok t.
Proof.
  intros Hne _ Hlen. exists (validate_string s).
  assert (Hrun : validateTag (VStr s) = Ok (validate_string s)).
  { unfold validateTag. simpl. destruct (String.eqb_spec s ""); [contradiction|reflexivity]. }
  pose proof (validate_string_up_to_64 s Hlen) as Hok.
  split; [exact Hrun|]. split; [exact Hok|].
  destruct (validateTag_idempotent_from_two s _ Hrun) as (_ & _ & Hfix).
  apply Hfix. unfold tag_ok in Hok.
  apply andb_true_iff in Hok as [[_ L2]%andb_true_iff _]. by apply Nat.leb_le.
Qed.

Lemma validateTag_contract_up_to_64_witness :
  exists t, validateTag (VStr "Smoke Tests!") = Ok t
            /\ tag_ok t = true
            /\ validateTag (VStr t) = Ok t.
Proof.
  apply (validateTag_contract_up_to_64 "Smoke Tests!");
    [discriminate|reflexivity|simpl; lia].
Defined.

(** X2.  [validateTag] throws exactly on what is not a non-empty string,
    and always the same error; whatever it returns starts with a letter,
    ends with a letter or digit, holds lowercase letters, digits and
    hyphens only, and has between 1 and 64 characters. *)
Theorem validateTag_rejects_or_shapes (tag : val) :
  match validateTag tag with
  | Ok t =>
      (exists s, tag = VStr s /\ s <> EmptyString)
      /\ tag_shape t = true
      /\ 1 <= String.length t <= 64
  | Throw e =>
      e = Error "Tag must be a non-empty string"
      /\ forall s, tag = VStr s -> s = EmptyString
  end.
Proof.
  destruct tag as [| |b|n|s|l|props|items]; simpl;
    try (split; [reflexivity|discriminate]).
  destruct (String.eqb_spec s "") as [->|Hne]; simpl.
  - split; [reflexivity|]. by intros s' [= <-].
  - split; [by exists s|]. apply validate_string_shape.
Qed.

(** X3.  A tag that already meets the contract passes through
    [validateTag] unchanged. *)
Theorem validateTag_keeps_valid (t : string) :
  tag_ok t = true -> validateTag (VStr t) = Ok t.
Proof.
  intros Hok. unfold validateTag. rewrite (validate_string_fixed t Hok).
  destruct t as [|c r]; [discriminate Hok|reflexivity].
Qed.

Lemma validateTag_keeps_valid_witness :
  validateTag (VStr "contract-v2") = Ok "contract-v2".
Proof. apply validateTag_keeps_valid. reflexivity. Defined.

End TagContract.

(* ===================================================================== *)
(** * When an environment is generated *)
(* ===================================================================== *)

Module EnvironmentFacts.
Import Js OpenApi Env.

(** X4.  [generateEnvironment] throws for one kind of document only, the
    one whose [servers] array is present and empty.  For every other
    document it returns the environment named after the title (["API"]
    without one), scoped ["environment"], with the three variables
    [baseUrl] (the url of the first server, the placeholder when the
    document has no [servers] member), [RESPONSE_TIME_THRESHOLD] (2000) and
    [auth_token] (empty, of type secret), all enabled. *)
Theorem generateEnvironment_fails_only_on_empty_servers (a : api) :
  match generateEnvironment a with
  | Throw e => e = TypeError /\ servers a = Some []
  | Ok e =>
      servers a <> Some []
      /\ env_name e = to_string (or_else (title a) (VStr "API")) +:+ " Environment"
      /\ values e
         = [ {| key := "baseUrl";
                value := match servers a with
                         | Some (first :: _) => url first
                         | _ => "https://api.example.com"
                         end;
                var_type := "default"; enabled := true |};
             {| key := "RESPONSE_TIME_THRESHOLD"; value := "2000";
                var_type := "default"; enabled := true |};
             {| key := "auth_token"; value := "";
                var_type := "secret"; enabled := true |} ]
      /\ _postman_variable_scope e = "environment"
  end.
Proof.
  unfold generateEnvironment.
  destruct (servers a) as [[|first rest]|]; simpl; repeat split; discriminate.
Qed.

End EnvironmentFacts.

(* ===================================================================== *)
(** * The keys of a generated script map *)
(* ===================================================================== *)

Module ScriptFacts.
Import Js OpenApi Generator.

Section WithParser.

Variable extractEndpoints : api -> list endpoint.
Variable getResponseSchema : list (string * response) -> string -> option schemaInfo.
Variable getRequiredFields : val -> list string.

Abbreviation scriptFor := (generateTestScript getResponseSchema getRequiredFields).
Abbreviation scriptsForSpec :=
  (generateTestScriptsForSpec extractEndpoints getResponseSchema getRequiredFields).

Lemma dom_assign_loop (level : string) (es : list endpoint) (o0 : scriptObject) :
  dom (own (fold_left (fun (o : scriptObject) e =>
                         assign_script (testName e) (scriptFor e level) o) es o0))
  = (list_to_set (map displayName es) ∖ {["__proto__"]}) ∪ dom (own o0).
Proof.
  revert o0. induction es as [|e rest IH]; intros o0; simpl.
  - set_solver.
  - rewrite IH. unfold assign_script.
    rewrite <- (GeneratorFacts.testName_displayName e).
    destruct (String.eqb_spec (testName e) "__proto__") as [Hp|Hp]; simpl.
    + rewrite Hp. set_solver.
    + rewrite dom_insert_L. set_solver.
Qed.

(** X5.  The keys of the object [generateTestScriptsForSpec] returns are
    ["default"] and the display names of the endpoints (the name of each,
    or its method and path when it has none), [__proto__] excepted, which
    never becomes a key; so the number the orchestrator logs as generated
    scripts, the number of keys less one, is the number of distinct display
    names other than ["default"] and [__proto__]: endpoints sharing a name
    count once, an endpoint named ["default"] or [__proto__] not at all. *)
Theorem generated_script_count (a : api) (level : string) :
  let names : gset string := list_to_set (map displayName (extractEndpoints a)) in
  dom (own (scriptsForSpec a level)) = {["default"]} ∪ (names ∖ {["__proto__"]})
  /\ (Z.of_nat (keyCount (scriptsForSpec a level)) - 1)%Z
     = Z.of_nat (size (names ∖ {["default"; "__proto__"]})).
Proof.
  cbv zeta.
  assert (Hdom : dom (own (scriptsForSpec a level))
                 = {["default"]}
                   ∪ (list_to_set (map displayName (extractEndpoints a)) ∖ {["__proto__"]})).
  { unfold generateTestScriptsForSpec, assign_script at 1.
    change (String.eqb "default" "__proto__") with false. cbv iota. simpl own.
    rewrite dom_insert_L, dom_assign_loop. simpl own. rewrite dom_empty_L. set_solver. }
  split; [exact Hdom|].
  unfold keyCount. rewrite <- size_dom, Hdom.
  replace ({["default"]}
           ∪ (list_to_set (map displayName (extractEndpoints a)) ∖ {["__proto__"]})
           : gset string)
    with ({["default"]}
          ∪ (list_to_set (map displayName (extractEndpoints a)) ∖ {["default"; "__proto__"]})
            : gset string).
  - rewrite size_union by set_solver. rewrite size_singleton. lia.
  - apply set_eq. intros x. destruct (decide (x = "default")); set_solver.
Qed.

End WithParser.

(** X5 on sample endpoints: four endpoints, two sharing a name, one named
    ["default"], one named [__proto__]: two keys, one script counted. *)
Example generated_script_count_sample :
  let o := generateTestScriptsForSpec
             (fun _ => [Samples.namedDefault; Samples.getTask; Samples.namedProto;
                        Samples.listTasks])
             Samples.getResponseSchema Samples.getRequiredFields
             Samples.taskApi SMOKE in
  (Z.of_nat (keyCount o) - 1)%Z = 1%Z.
Proof. vm_compute. reflexivity. Qed.

End ScriptFacts.

(* ===================================================================== *)
(** * Injecting twice *)
(* ===================================================================== *)

Module ReinjectionFacts.
Import Collection Injector InjectorFacts.

Lemma stored_of_unfold n r ev sub :
  stored_of (Item n r ev sub)
  = Item n r (option_map (map stored_event) ev) (option_map stored sub).
Proof. destruct sub; reflexivity. Qed.

Lemma not_test_test_event r t : not_test (test_event r t) = false.
Proof. reflexivity. Qed.

(** the node's own part of one turn of the loop *)
Abbreviation node_step testScripts n r ev next :=
  (match r with
   | Some _ => inject testScripts n ev next
   | None => (ev, next%N, Js.Ok tt)
   end).

(** Where the body of [if (item.request)] has completed, it completes
    again on the events it left, and replaces the test event by one that
    says the same. *)
Lemma step_twice (testScripts : reader) (n : string) (r : option request)
    (ev ev1 : option (list event)) (next next' n1 : N) :
  node_step testScripts n r ev next = (ev1, n1, Js.Ok tt) ->
  exists ev2 n2,
    node_step testScripts n r ev1 next' = (ev2, n2, Js.Ok tt)
    /\ option_map (map stored_event) ev2 = option_map (map stored_event) ev1.
Proof.
  destruct r as [rq|].
  - unfold inject. destruct (lookup_script testScripts n) as [t| |].
    + destruct (script_truthy t).
      * intros [= <- <-]. eexists _, _. split; [reflexivity|]. simpl.
        rewrite List.filter_app, filter_others_twice. simpl. rewrite app_nil_r.
        by rewrite !map_app.
      * intros [= <- <-]. eexists _, _. split; reflexivity.
    + intros [=].
    + intros [= <- <-]. eexists _, _. split; reflexivity.
  - intros [= <- <-]. eexists _, _. split; reflexivity.
Qed.

Lemma addTestsToItems_again (testScripts : reader) :
  (forall it next next',
     done_of (addTestsToItem testScripts it next) = Js.Ok tt ->
     done_of (addTestsToItem testScripts
                (tree_of (addTestsToItem testScripts it next)) next') = Js.Ok tt
     /\ stored_of (tree_of (addTestsToItem testScripts
                              (tree_of (addTestsToItem testScripts it next)) next'))
        = stored_of (tree_of (addTestsToItem testScripts it next)))
  /\ (forall l next next',
        done_of (addTestsToItems testScripts l next) = Js.Ok tt ->
        done_of (addTestsToItems testScripts
                   (tree_of (addTestsToItems testScripts l next)) next') = Js.Ok tt
        /\ stored (tree_of (addTestsToItems testScripts
                              (tree_of (addTestsToItems testScripts l next)) next'))
           = stored (tree_of (addTestsToItems testScripts l next))).
Proof.
  set (P := fun it => forall next next',
     done_of (addTestsToItem testScripts it next) = Js.Ok tt ->
     done_of (addTestsToItem testScripts
                (tree_of (addTestsToItem testScripts it next)) next') = Js.Ok tt
     /\ stored_of (tree_of (addTestsToItem testScripts
                              (tree_of (addTestsToItem testScripts it next)) next'))
        = stored_of (tree_of (addTestsToItem testScripts it next))).
  set (Q := fun l => forall next next',
        done_of (addTestsToItems testScripts l next) = Js.Ok tt ->
        done_of (addTestsToItems testScripts
                   (tree_of (addTestsToItems testScripts l next)) next') = Js.Ok tt
        /\ stored (tree_of (addTestsToItems testScripts
                              (tree_of (addTestsToItems testScripts l next)) next'))
           = stored (tree_of (addTestsToItems testScripts l next))).
  assert (Hfolder : forall n r e l, Q l -> P (Item n r e (Some l))).
  { intros n r e l IH next next'. rewrite (addTestsToItem_unfold testScripts n r e (Some l) next).
    destruct (node_step testScripts n r e next) as [[ev1 n1] d1] eqn:E1.
    destruct d1 as [[]|e1]; [|discriminate].
    destruct (addTestsToItems testScripts l n1) as [[l1 n2] d2] eqn:E2.
    unfold tree_of, done_of. cbn [fst snd]. intros ->.
    rewrite addTestsToItem_unfold.
    destruct (step_twice testScripts n r e ev1 next next' n1 E1) as (ev2 & n3 & E3 & Hev).
    rewrite E3.
    specialize (IH n1 n3). unfold tree_of, done_of in IH. rewrite E2 in IH.
    cbn [fst snd] in IH. specialize (IH eq_refl).
    destruct (addTestsToItems testScripts l1 n3) as [[l2 n4] d4].
    cbn [fst snd] in IH |- *. destruct IH as [-> Hst]. split; [reflexivity|].
    rewrite !stored_of_unfold. cbn [option_map]. by rewrite Hev, Hst. }
  assert (Hleaf : forall n r e, P (Item n r e None)).
  { intros n r e next next'. rewrite (addTestsToItem_unfold testScripts n r e None next).
    destruct (node_step testScripts n r e next) as [[ev1 n1] d1] eqn:E1.
    destruct d1 as [[]|e1]; [|discriminate].
    unfold tree_of, done_of. cbn [fst snd]. intros _.
    rewrite addTestsToItem_unfold.
    destruct (step_twice testScripts n r e ev1 next next' n1 E1) as (ev2 & n3 & E3 & Hev).
    rewrite E3. cbn [fst snd]. split; [reflexivity|].
    rewrite !stored_of_unfold. cbn [option_map]. by rewrite Hev. }
  assert (Hnil : Q []).
  { intros next next' _. split; reflexivity. }
  assert (Hcons : forall it l, P it -> Q l -> Q (it :: l)).
  { intros it l Hit Hl next next'. simpl.
    specialize (Hit next next'). unfold tree_of, done_of in *.
    destruct (addTestsToItem testScripts it next) as [[it1 n1] d1].
    cbn [fst snd] in Hit. destruct d1 as [[]|e1]; [|discriminate].
    specialize (Hit eq_refl).
    specialize (Hl n1). 
    destruct (addTestsToItems testScripts l n1) as [[l1 n2] d2].
    cbn [fst snd] in Hl |- *. intros ->. simpl.
    destruct (addTestsToItem testScripts it1 next') as [[it2 n3] d3].
    cbn [fst snd] in Hit. destruct Hit as [-> Hst1].
    specialize (Hl n3 eq_refl).
    destruct (addTestsToItems testScripts l1 n3) as [[l2 n4] d4].
    cbn [fst snd] in Hl |- *. destruct Hl as [-> Hst2]. simpl.
    split; [reflexivity|]. by rewrite Hst1, Hst2. }
  split.
  - exact (item_tree_ind P Q Hfolder Hleaf Hnil Hcons).
  - exact (items_tree_ind P Q Hfolder Hleaf Hnil Hcons).
Qed.

Lemma injected_once (before after : list item) :
  Forall2 leaf_injected before after ->
  Forall (fun leaf => length (List.filter is_test (events leaf)) = 1%nat) after.
Proof.
  induction 1 as [|x y l l' [Hone _] _ IH]; constructor; assumption.
Qed.

(** X6.  Where injecting the scripts into a tree has returned, injecting
    the same scripts into the tree it left returns too, and changes
    nothing the service stores: every node keeps its name, request,
    children and events, the one test event of a request node being
    replaced by a new object with the same script.  No test event
    accumulates: with a truthy ["default"] script, every request node
    has exactly one test event after the second run as after the first.
    (A run throws when a request node is named after a property the map
    inherits and does not own.) *)
Theorem addTestsToItems_twice (testScripts : reader) (items : list item)
    (next next' : N) :
  done_of (addTestsToItems testScripts items next) = Js.Ok tt ->
  done_of (addTestsToItems testScripts
             (tree_of (addTestsToItems testScripts items next)) next') = Js.Ok tt
  /\ stored (tree_of (addTestsToItems testScripts
                        (tree_of (addTestsToItems testScripts items next)) next'))
     = stored (tree_of (addTestsToItems testScripts items next))
  /\ (has_default testScripts ->
      Forall (fun leaf => length (List.filter is_test (events leaf)) = 1%nat)
        (leaves (tree_of (addTestsToItems testScripts
                            (tree_of (addTestsToItems testScripts items next)) next')))).
Proof.
  intros Hfirst.
  destruct (proj2 (addTestsToItems_again testScripts) items next next' Hfirst)
    as [Hsecond Hstored].
  split; [exact Hsecond|]. split; [exact Hstored|].
  intros Hdefault.
  destruct (proj2 (addTestsToItems_tree testScripts Hdefault)
              (tree_of (addTestsToItems testScripts items next)) next')
    as [(_ & _ & _ & Hleaves)|(_ & Hthrow)].
  - exact (injected_once _ _ Hleaves).
  - rewrite Hthrow in Hsecond. discriminate.
Qed.

(** X6 on the sample folder: the second run stores what the first did. *)
Lemma addTestsToItems_twice_witness :
  done_of (addTestsToItems (plain (Lines <$> Samples.scriptsWithDefault))
             [Samples.tasksFolder] 3) = Js.Ok tt
  /\ stored (tree_of (addTestsToItems (plain (Lines <$> Samples.scriptsWithDefault))
                        (tree_of (addTestsToItems
                                    (plain (Lines <$> Samples.scriptsWithDefault))
                                    [Samples.tasksFolder] 3)) 5))
     = stored (tree_of (addTestsToItems (plain (Lines <$> Samples.scriptsWithDefault))
                          [Samples.tasksFolder] 3)).
Proof.
  split; [reflexivity|].
  apply (addTestsToItems_twice (plain (Lines <$> Samples.scriptsWithDefault))
           [Samples.tasksFolder] 3 5).
  reflexivity.
Defined.

End ReinjectionFacts.

(* ===================================================================== *)
(** * Facts about the other methods of the client *)
(* ===================================================================== *)

Module ClientFacts.
Import Js Remote Routes RemoteFacts.

Lemma fetches_app (t1 t2 : list event) : fetches (t1 ++ t2) = fetches t1 ++ fetches t2.
Proof.
  induction t1 as [|e t1 IH]; [reflexivity|]. destruct e; simpl; by rewrite ?IH.
Qed.

(** ** The generation payload *)

Lemma assoc_set_prop (k k' : string) (v : val) (props : list (string * val)) :
  assoc k (set_prop k' v props) = if String.eqb k k' then Some v else assoc k props.
Proof.
  induction props as [|[k0 v0] r IH]; simpl.
  - destruct (String.eqb k k'); reflexivity.
  - destruct (String.eqb_spec k' k0) as [->|Hne]; simpl.
    + destruct (String.eqb k k0); reflexivity.
    + rewrite IH. destruct (String.eqb_spec k k0) as [->|]; [|reflexivity].
      destruct (String.eqb_spec k0 k'); [congruence|reflexivity].
Qed.

Lemma assoc_absent {A} (k : string) (l : list (string * A)) :
  ~ In k (map fst l) -> assoc k l = None.
Proof.
  induction l as [|[k0 v0] r IH]; [reflexivity|]. simpl. intros H.
  destruct (String.eqb_spec k k0) as [->|]; [tauto|]. apply IH. tauto.
Qed.

(** Spreading an object over another: its properties win. *)
Lemma assoc_spread (k : string) (base options : list (string * val)) :
  NoDup (map fst options) ->
  assoc k (spread base options)
  = match assoc k options with
    | Some v => Some v
    | None => assoc k base
    end.
Proof.
  unfold spread. revert base.
  induction options as [|[k1 v1] rest IH]; intros base Hnd; [reflexivity|].
  simpl in *. apply NoDup_cons in Hnd as [Hk1 Hnd]. rewrite (IH _ Hnd).
  rewrite assoc_set_prop.
  destruct (String.eqb_spec k k1) as [->|Hne]; [|reflexivity].
  rewrite assoc_absent; [reflexivity|]. by rewrite <- list_elem_of_In.
Qed.

(** X7.  In the payload of a generation request the caller's options win
    over the two defaults, property by property: a property the caller
    passes is sent as passed (a falsy [folderStrategy] and a null
    [enableOptionalParameters] included), and only a property the caller
    leaves out is sent with its default, [true] and ['Tags']. *)
Theorem generation_options_override (options : list (string * val)) (k : string) :
  NoDup (map fst options) ->
  assoc k (generation_options options)
  = match assoc k options with
    | Some v => Some v
    | None => assoc k generation_defaults
    end.
Proof.
  intros Hnd. unfold generation_options. rewrite (assoc_spread _ _ _ Hnd).
  destruct (assoc k options) as [v|] eqn:E; [reflexivity|].
  simpl. destruct (String.eqb_spec k "enableOptionalParameters") as [->|_].
  { by rewrite E. }
  destruct (String.eqb_spec k "folderStrategy") as [->|_]; [|reflexivity].
  by rewrite E.
Qed.

Lemma generation_options_override_witness :
  assoc "folderStrategy"
    (generation_options [ ("folderStrategy", VStr ""); ("requestNameSource", VStr "URL") ])
  = Some (VStr "").
Proof.
  apply (generation_options_override
           [ ("folderStrategy", VStr ""); ("requestNameSource", VStr "URL") ]
           "folderStrategy").
  repeat constructor; set_solver.
Defined.

Section Service.

Variable St : Type.
Variable serve : St -> call -> reply * St.

Abbreviation world := (world St).
Abbreviation answered := (answered St serve).

Ltac steps :=
  unfold Remote.bind, Remote.try_catch, Remote.emit, Remote.lift, Remote.ret, Remote.throw;
  cbv beta iota zeta.

(** ** [getSpecGeneratedCollections] *)

Lemma getSpecGeneratedCollections_run (cl : client) (specId : val) (w : world) :
  let c := generations_call cl specId in
  getSpecGeneratedCollections St serve cl specId w
  = (Ok (generated_of (fst (serve (remote w) c))), answered w c, [Fetch c]).
Proof.
  cbv zeta. unfold getSpecGeneratedCollections, generated_of. steps.
  rewrite request_run. cbv zeta. fold (generations_call cl specId).
  destruct (request_outcome _) as [result|e]; [|reflexivity]. simpl obind.
  destruct (get result "collections"); reflexivity.
Qed.

(** X8.  [getSpecGeneratedCollections] never throws: it makes one GET and
    returns the [collections] member of the answer, or an empty array when
    the request fails in any way, the answer has no such member, or the
    member is falsy. *)
Theorem getSpecGeneratedCollections_never_throws (cl : client) (specId : val) (w : world) :
  let c := generations_call cl specId in
  getSpecGeneratedCollections St serve cl specId w
  = (Ok match obind (request_outcome (fst (serve (remote w) c)))
                    (fun result => get result "collections") with
        | Ok collections => or_else collections (VArr [])
        | Throw _ => VArr []
        end,
     answered w c, [Fetch c]).
Proof. apply getSpecGeneratedCollections_run. Qed.

(** ** [generateOrSyncCollection] *)

(** The sync poll only ever fetches the collection. *)
Lemma sync_wait_fetches (cl : client) (collectionId : val) (maxAttempts i k : nat)
    (w : world) :
  Forall (fun c => c = collection_call cl collectionId)
    (fetches (snd (waitForCollectionSync_from St serve cl collectionId maxAttempts i k w))).
Proof.
  revert i w. induction k as [|k IH]; intros i w; [constructor|].
  rewrite sync_turn. cbv zeta.
  specialize (IH (S i) (answered w (collection_call cl collectionId))).
  destruct (request_outcome _) as [collection|e]; [destruct (truthy collection)|];
    simpl; repeat constructor; exact IH.
Qed.

(** When the spec already has a generated collection of the name, it is
    synchronised: the lookup, the PUT, and then reads only. *)
Lemma sync_branch (cl : client) (specId : val) (name : string)
    (options : list (string * val)) (w : world) (existing id : val) :
  find_by_name (generated_of (fst (serve (remote w) (generations_call cl specId)))) name
    = Ok existing ->
  truthy existing = true ->
  get existing "id" = Ok id ->
  exists rest,
    fetches (snd (generateOrSyncCollection St serve cl specId name options w))
    = generations_call cl specId :: synchronization_call cl id specId :: rest
    /\ Forall (fun c => call_method c = "GET") rest.
Proof.
  intros Hf Ht Hid. unfold generateOrSyncCollection. steps.
  rewrite getSpecGeneratedCollections_run. cbv zeta. rewrite Hf. steps.
  rewrite Ht, Hid. steps.
  unfold syncCollectionWithSpec. rewrite request_run. cbv zeta.
  fold (synchronization_call cl id specId).
  set (w1 := answered (answered w (generations_call cl specId))
                      (synchronization_call cl id specId)).
  destruct (request_outcome _) as [v|e].
  - unfold waitForCollectionSync.
    pose proof (sync_wait_fetches cl id 10 0 10 w1) as Hw.
    destruct (sync_wait_returns St serve cl id 10 0 10 w1) as (w2 & t & Hrun).
    rewrite Hrun in Hw |- *. simpl in Hw.
    unfold listCollections. rewrite request_run. cbv zeta. fold (list_call cl).
    exists (fetches t ++ [list_call cl]). split.
    + destruct (request_outcome _) as [collections|e]; simpl.
      * destruct (findCollection collections name) as [collection|e]; simpl.
        -- destruct (truthy collection); simpl;
             [destruct (get collection "uid")|]; simpl;
             rewrite ?fetches_app; simpl; rewrite ?app_nil_r; reflexivity.
        -- rewrite ?fetches_app. simpl. by rewrite ?app_nil_r.
      * rewrite ?fetches_app. reflexivity.
    + apply Forall_app. split; [|by repeat constructor].
      eapply Forall_impl; [exact Hw|]. by intros c ->.
  - exists []. split; [reflexivity|constructor].
Qed.

(** Otherwise a new collection is requested. *)
Lemma generation_branch (cl : client) (specId : val) (name : string)
    (options : list (string * val)) (w : world) (existing : val) :
  find_by_name (generated_of (fst (serve (remote w) (generations_call cl specId)))) name
    = Ok existing ->
  truthy existing = false ->
  exists rest,
    fetches (snd (generateOrSyncCollection St serve cl specId name options w))
    = generations_call cl specId :: generation_call cl specId name options :: rest.
Proof.
  intros Hf Ht. unfold generateOrSyncCollection. steps.
  rewrite getSpecGeneratedCollections_run. cbv zeta. rewrite Hf. steps.
  rewrite Ht. steps. rewrite request_run. cbv zeta.
  fold (generation_options options). fold (generation_call cl specId name options).
  destruct (request_outcome _) as [v|e]; [|by exists []].
  destruct (waitForCollectionGeneration St serve cl name 10 _) as [[[u|e] w2] t2];
    [|eexists; simpl; rewrite ?fetches_app; reflexivity].
  destruct (listCollections St serve cl w2) as [[[collections|e] w3] t3];
    [|eexists; simpl; rewrite ?fetches_app; reflexivity].
  destruct (findCollection collections name) as [collection|e];
    [|eexists; simpl; rewrite ?fetches_app; reflexivity].
  simpl. destruct (truthy collection); simpl; [destruct (get collection "uid")|];
    eexists; simpl; rewrite ?fetches_app; reflexivity.
Qed.

(** X9.  When the spec's generated collections hold one of the requested
    name, [generateOrSyncCollection] synchronises it and generates
    nothing: after the lookup it sends the PUT that synchronises the
    collection found, and every later call of the run is a GET. *)
Theorem generateOrSyncCollection_syncs_existing (cl : client) (specId : val)
    (name : string) (options : list (string * val)) (w : world)
    (result collections existing id : val) :
  request_outcome (fst (serve (remote w) (generations_call cl specId))) = Ok result ->
  get result "collections" = Ok collections ->
  find_by_name (or_else collections (VArr [])) name = Ok existing ->
  truthy existing = true ->
  get existing "id" = Ok id ->
  exists rest,
    fetches (snd (generateOrSyncCollection St serve cl specId name options w))
    = generations_call cl specId :: synchronization_call cl id specId :: rest
    /\ Forall (fun c => call_method c = "GET") rest.
Proof.
  intros Hr Hc Hf Ht Hid. apply (sync_branch cl specId name options w existing id); auto.
  unfold generated_of. rewrite Hr. simpl. by rewrite Hc.
Qed.

(** X10.  When the lookup of the spec's generated collections fails, the
    failure is taken for an empty list, and so, as when the list holds no
    collection of the name, a new collection is requested: the second call
    of the run is the POST of the generation payload. *)
Theorem generateOrSyncCollection_generates_when_unlisted (cl : client) (specId : val)
    (name : string) (options : list (string * val)) (w : world) :
  let t := snd (generateOrSyncCollection St serve cl specId name options w) in
  (forall e,
     request_outcome (fst (serve (remote w) (generations_call cl specId))) = Throw e ->
     exists rest,
       fetches t = generations_call cl specId :: generation_call cl specId name options :: rest)
  /\ (forall result collections existing,
        request_outcome (fst (serve (remote w) (generations_call cl specId))) = Ok result ->
        get result "collections" = Ok collections ->
        find_by_name (or_else collections (VArr [])) name = Ok existing ->
        truthy existing = false ->
        exists rest,
          fetches t
          = generations_call cl specId :: generation_call cl specId name options :: rest).
Proof.
  cbv zeta. split.
  - intros e He. apply (generation_branch cl specId name options w VUndef); [|reflexivity].
    unfold generated_of. by rewrite He.
  - intros result collections existing Hr Hc Hf Ht.
    apply (generation_branch cl specId name options w existing); [|exact Ht].
    unfold generated_of. rewrite Hr. simpl. by rewrite Hc.
Qed.

(** ** [addTestScripts] *)

Lemma set_prop_others (k : string) (v : val) (props : list (string * val)) (k' : string) :
  k' <> k -> assoc k' (set_prop k v props) = assoc k' props.
Proof.
  intros Hne. rewrite assoc_set_prop.
  destruct (String.eqb_spec k' k); [contradiction|reflexivity].
Qed.

(** The run of [addTestScripts] on a collection document whose [item]
    member is a tree: the GET, the injection, and, if the injection
    returns, the PUT. *)
Lemma addTestScripts_run (cl : client) (uid : val)
    (scripts : Injector.reader) (w : world)
    (data : val) (props : list (string * val)) (l : list Collection.item) :
  request_outcome (fst (serve (remote w) (collection_call cl uid))) = Ok data ->
  get data "collection" = Ok (VObj props) ->
  assoc "item" props = Some (VItems l) ->
  let injected := Injector.addTestsToItems scripts l (next_ref w) in
  let document := VObj (set_prop "item" (VItems (Injector.tree_of injected)) props) in
  let w1 := answered w (collection_call cl uid) in
  addTestScripts St serve cl uid scripts w
  = match Injector.done_of injected with
    | Ok _ =>
        (obind (request_outcome (fst (serve (remote w1) (update_call cl uid document))))
               (fun _ => Ok document),
         {| remote := snd (serve (remote w1) (update_call cl uid document));
            next_ref := snd (fst injected) |},
         [ Fetch (collection_call cl uid); Fetch (update_call cl uid document) ])
    | Throw e =>
        (Throw e, {| remote := remote w1; next_ref := snd (fst injected) |},
         [ Fetch (collection_call cl uid) ])
    end.
Proof.
  intros Hd Hc Hi. cbv zeta. unfold addTestScripts, getCollection. steps.
  rewrite request_run. cbv zeta. fold (collection_call cl uid). rewrite Hd. steps.
  rewrite Hc. steps. simpl get. rewrite Hi. simpl. unfold injecting.
  unfold Remote.answered at 1. cbn [next_ref remote].
  unfold Injector.tree_of, Injector.done_of.
  destruct (Injector.addTestsToItems scripts l (next_ref w)) as [[l' n'] done] eqn:E.
  cbn [fst snd]. destruct done as [[]|e]; [|reflexivity]. simpl obind. cbv iota beta.
  unfold updateCollection. rewrite request_run. cbv zeta.
  fold (update_call cl uid (VObj (set_prop "item" (VItems l') props))).
  unfold Remote.answered. cbn [remote next_ref]. clear Hd.
  destruct (request_outcome _); reflexivity.
Qed.

(** X11.  [addTestScripts] reads the collection and injects.  With a
    truthy ["default"] script, and no request node named after a property
    the script map only inherits, it then writes back the document it read
    with its [item] tree replaced, every other property as it was: the tree
    written has the structure of the tree read and exactly one test event
    on each request node, its other events kept; the run is the GET and the
    PUT of that document, and returns the document when the PUT succeeds.
    With a request node so named, the injection throws a TypeError and so
    does [addTestScripts], after the GET and without a PUT. *)
Theorem addTestScripts_uploads_injected (cl : client) (uid : val)
    (scripts : Injector.reader) (w : world)
    (data : val) (props : list (string * val)) (l : list Collection.item) :
  Injector.has_default scripts ->
  request_outcome (fst (serve (remote w) (collection_call cl uid))) = Ok data ->
  get data "collection" = Ok (VObj props) ->
  assoc "item" props = Some (VItems l) ->
  let l' := Injector.tree_of (Injector.addTestsToItems scripts l (next_ref w)) in
  let document := VObj (set_prop "item" (VItems l') props) in
  let w1 := answered w (collection_call cl uid) in
  (Forall (fun leaf => ~ Injector.opaque_at scripts leaf) (Injector.leaves l) ->
   (Injector.frame l' = Injector.frame l
    /\ Forall2 Injector.leaf_injected (Injector.leaves l) (Injector.leaves l'))
   /\ (forall k, k <> "item" -> assoc k (set_prop "item" (VItems l') props) = assoc k props)
   /\ fetches (snd (addTestScripts St serve cl uid scripts w))
      = [ collection_call cl uid; update_call cl uid document ]
   /\ fst (fst (addTestScripts St serve cl uid scripts w))
      = obind (request_outcome (fst (serve (remote w1) (update_call cl uid document))))
              (fun _ => Ok document))
  /\ (Exists (Injector.opaque_at scripts) (Injector.leaves l) ->
      fst (fst (addTestScripts St serve cl uid scripts w)) = Throw TypeError
      /\ fetches (snd (addTestScripts St serve cl uid scripts w))
         = [ collection_call cl uid ]).
Proof.
  intros Hdef Hd Hc Hi. cbv zeta.
  pose proof (InjectorFacts.addTestsToItems_run scripts l (next_ref w) Hdef) as [Hok Hthrow].
  rewrite (addTestScripts_run cl uid scripts w data props l Hd Hc Hi). cbv zeta.
  split.
  - intros Hnames. destruct (Hok Hnames) as (Hdone & Hframe & Hleaves). rewrite Hdone.
    split; [split; assumption|].
    split; [intros k Hk; by apply set_prop_others|].
    split; reflexivity.
  - intros Hname. rewrite (Hthrow Hname). split; reflexivity.
Qed.

(** X12.  [addTestScripts] writes nothing it could not read: when the GET
    of the collection fails, or its answer has no [collection] member, or
    that document has no [item] member, it throws after that one call,
    without a PUT. *)
Theorem addTestScripts_writes_nothing_unread (cl : client) (uid : val)
    (scripts : Injector.reader) (w : world) :
  let c := collection_call cl uid in
  let run := addTestScripts St serve cl uid scripts w in
  (forall e, request_outcome (fst (serve (remote w) c)) = Throw e ->
     run = (Throw e, answered w c, [Fetch c]))
  /\ (forall data collection,
        request_outcome (fst (serve (remote w) c)) = Ok data ->
        get data "collection" = Ok collection ->
        truthy collection = false \/ get collection "item" = Ok VUndef
        \/ get collection "item" = Ok VNull ->
        run = (Throw TypeError, answered w c, [Fetch c])).
Proof.
  cbv zeta. unfold addTestScripts, getCollection. steps.
  rewrite request_run. cbv zeta. fold (collection_call cl uid). split.
  - intros e ->. reflexivity.
  - intros data collection -> Hc Hcases. steps. rewrite Hc. steps.
    destruct Hcases as [Hf|[Hi|Hi]].
    + destruct collection as [| |[|]|n|s|l|props|items]; try discriminate Hf;
        reflexivity.
    + rewrite Hi. by destruct collection.
    + rewrite Hi. by destruct collection.
Qed.

(** ** Tags *)

Lemma formatTags_strings (names : list string) :
  Forall (fun s => s <> EmptyString) names ->
  formatTags (map VStr names) = Ok (map slug_val (map Tag.validate_string names)).
Proof.
  induction 1 as [|s names Hs _ IH]; [reflexivity|]. simpl.
  destruct (String.eqb_spec s ""); [contradiction|]. simpl.
  change (formatTags (map VStr names)) with (formatTags (map VStr names)).
  by rewrite IH.
Qed.

Lemma formatTags_rejects (tags : list val) :
  Exists (fun t => forall s, t = VStr s -> s = EmptyString) tags ->
  formatTags tags = Throw (Error "Tag must be a non-empty string").
Proof.
  assert (Herr : forall t e, Tag.validateTag t = Throw e ->
                          e = Error "Tag must be a non-empty string").
  { intros t e. unfold Tag.validateTag.
    destruct t; try (by intros [= <-]). destruct (negb _); by intros [= <-]. }
  induction 1 as [t tags Ht|t tags _ IH]; simpl.
  - destruct (Tag.validateTag t) as [slug|e] eqn:E; simpl; [|by rewrite (Herr t e E)].
    unfold Tag.validateTag in E. destruct t; try discriminate E.
    rewrite (Ht s eq_refl) in E. discriminate E.
  - destruct (Tag.validateTag t) as [slug|e] eqn:E; simpl; [by rewrite IH|].
    by rewrite (Herr t e E).
Qed.

(** X13.  [updateCollectionTags] formats every tag before it sends
    anything.  When all tags are non-empty strings it makes one PUT whose
    body holds, in order, one slug per tag, each the validated tag: a
    letter first, a letter or digit last, lowercase letters, digits and
    hyphens, at most 64 characters.  When some tag is not a non-empty
    string it throws and sends nothing. *)
Theorem updateCollectionTags_all_or_nothing (cl : client) (uid : val) (tags : list val)
    (w : world) :
  (forall names,
     tags = map VStr names ->
     Forall (fun s => s <> EmptyString) names ->
     let slugs := map Tag.validate_string names in
     let c := tags_call cl uid slugs in
     updateCollectionTags St serve cl uid tags w
     = (request_outcome (fst (serve (remote w) c)), answered w c, [Fetch c])
     /\ Forall (fun s => Tag.tag_shape s = true /\ 1 <= String.length s <= 64) slugs)
  /\ (Exists (fun t => forall s, t = VStr s -> s = EmptyString) tags ->
      updateCollectionTags St serve cl uid tags w
      = (Throw (Error "Tag must be a non-empty string"), w, [])).
Proof.
  split.
  - intros names -> Hne. cbv zeta. split.
    + unfold updateCollectionTags. steps. rewrite (formatTags_strings names Hne).
      rewrite request_run. cbv zeta. reflexivity.
    + apply Forall_map, Forall_forall. intros s _. apply TagFacts.validate_string_shape.
  - intros Hbad. unfold updateCollectionTags. steps.
    by rewrite (formatTags_rejects tags Hbad).
Qed.

Lemma fixed_tags (kind : string) :
  In kind ["docs"; "smoke"; "contract"] ->
  formatTags [VStr "generated"; VStr kind] = Ok [slug_val "generated"; slug_val kind].
Proof.
  intros [<-|[<-|[<-|[]]]]; vm_compute; reflexivity.
Qed.

(** X14.  [applyCollectionTags] sends tags of a fixed vocabulary only.
    For the types [main], [smoke] and [contract] it makes one PUT with the
    two tags [generated] and, in turn, [docs], [smoke], [contract], sent as
    they are written; for every other type it throws and makes no call,
    and the error names the type unless the type is the name of a property
    every object inherits. *)
Theorem applyCollectionTags_vocabulary (cl : client) (uid : val) (type : string)
    (w : world) :
  (exists kind,
     In (type, kind) tag_kinds
     /\ let c := tags_call cl uid ["generated"; kind] in
        applyCollectionTags St serve cl uid type w
        = (request_outcome (fst (serve (remote w) c)), answered w c, [Fetch c]))
  \/ (~ In type (map fst tag_kinds)
      /\ exists e,
           applyCollectionTags St serve cl uid type w = (Throw e, w, [])
           /\ (~ In type inherited_names -> e = Error (unknown_type_message type))).
Proof.
  assert (Hsend : forall kind, In kind ["docs"; "smoke"; "contract"] ->
            updateCollectionTags St serve cl uid [VStr "generated"; VStr kind] w
            = (request_outcome (fst (serve (remote w) (tags_call cl uid ["generated"; kind]))),
               answered w (tags_call cl uid ["generated"; kind]),
               [Fetch (tags_call cl uid ["generated"; kind])])).
  { intros kind Hk. unfold updateCollectionTags. steps. rewrite (fixed_tags kind Hk).
    rewrite request_run. cbv zeta. reflexivity. }
  unfold applyCollectionTags.
  destruct (String.eqb_spec type "main") as [->|Hm].
  { left. exists "docs". split; [simpl; auto|]. apply Hsend. simpl. auto. }
  destruct (String.eqb_spec type "smoke") as [->|Hs].
  { left. exists "smoke". split; [simpl; auto|]. apply Hsend. simpl. auto. }
  destruct (String.eqb_spec type "contract") as [->|Hc].
  { left. exists "contract". split; [simpl; auto|]. apply Hsend. simpl. auto. }
  right. split; [simpl; intuition congruence|].
  destruct (existsb (String.eqb type) inherited_names) eqn:E.
  - exists TypeError. split; [reflexivity|]. intros Hin. exfalso. apply Hin.
    apply existsb_exists in E as (x & Hx & Heq). by apply String.eqb_eq in Heq as ->.
  - eexists. split; reflexivity.
Qed.

End Service.

(** X9 on a service whose spec already has the docs collection. *)
Lemma generateOrSyncCollection_syncs_existing_witness :
  exists rest,
    fetches (snd (generateOrSyncCollection unit Samples.syncedHub Samples.taskClient
                    (VStr "spec-1") "Task API - Docs" [] Samples.unitWorld))
    = generations_call Samples.taskClient (VStr "spec-1")
      :: synchronization_call Samples.taskClient (VStr "id:Task API - Docs") (VStr "spec-1")
      :: rest
    /\ Forall (fun c => call_method c = "GET") rest.
Proof.
  apply (generateOrSyncCollection_syncs_existing unit Samples.syncedHub Samples.taskClient
           (VStr "spec-1") "Task API - Docs" [] Samples.unitWorld
           (VObj [ ("collections", VArr [ Samples.listed "Task API - Docs" ]) ])
           (VArr [ Samples.listed "Task API - Docs" ])
           (Samples.listed "Task API - Docs") (VStr "id:Task API - Docs"));
    reflexivity.
Defined.

(** X11 on the small Spec Hub and the sample folder. *)
Lemma addTestScripts_uploads_injected_witness :
  let scripts := Injector.plain (Injector.Lines <$> Samples.scriptsWithDefault) in
  let l' := Injector.tree_of (Injector.addTestsToItems scripts [Samples.tasksFolder] 3) in
  Injector.frame l' = Injector.frame [Samples.tasksFolder]
  /\ fetches (snd (addTestScripts (list string) Samples.hub Samples.taskClient
                     (VStr "uid:Task API - Smoke Tests") scripts Samples.hubWorld))
     = [ collection_call Samples.taskClient (VStr "uid:Task API - Smoke Tests");
         update_call Samples.taskClient (VStr "uid:Task API - Smoke Tests")
           (VObj [ ("info", VObj [ ("name", VStr "generated") ]); ("item", VItems l') ]) ].
Proof.
  cbv zeta.
  destruct (proj1 (addTestScripts_uploads_injected (list string) Samples.hub
              Samples.taskClient (VStr "uid:Task API - Smoke Tests")
              (Injector.plain (Injector.Lines <$> Samples.scriptsWithDefault))
              Samples.hubWorld
              (VObj [ ("collection",
                       VObj [ ("info", VObj [ ("name", VStr "generated") ]);
                              ("item", VItems [ Samples.tasksFolder ]) ]) ])
              [ ("info", VObj [ ("name", VStr "generated") ]);
                ("item", VItems [ Samples.tasksFolder ]) ]
              [ Samples.tasksFolder ] InjectorFacts.sample_default eq_refl eq_refl eq_refl)
             ltac:(repeat constructor; discriminate))
    as ((Hframe & _) & _ & Hfetches & _).
  split; [exact Hframe|exact Hfetches].
Defined.

(** X10 on the small Spec Hub, whose spec has no generated collection. *)
Lemma generateOrSyncCollection_generates_when_unlisted_witness :
  exists rest,
    fetches (snd (generateOrSyncCollection (list string) Samples.hub Samples.taskClient
                    (VStr "spec-1") "Task API - Smoke Tests" generationOptions
                    Samples.hubWorld))
    = generations_call Samples.taskClient (VStr "spec-1")
      :: generation_call Samples.taskClient (VStr "spec-1") "Task API - Smoke Tests"
           generationOptions
      :: rest.
Proof.
  apply (proj2 (generateOrSyncCollection_generates_when_unlisted (list string) Samples.hub
                  Samples.taskClient (VStr "spec-1") "Task API - Smoke Tests"
                  generationOptions Samples.hubWorld)
           (VObj [ ("collections", VArr []) ]) (VArr []) VUndef);
    reflexivity.
Defined.

(** X12 on a service that answers nothing. *)
Lemma addTestScripts_writes_nothing_unread_witness :
  addTestScripts unit Samples.deadHub Samples.taskClient (VStr "uid-1")
    (Injector.plain Samples.scriptsWithoutDefault) Samples.unitWorld
  = (Throw FetchFailed, Samples.unitWorld,
     [ Fetch (collection_call Samples.taskClient (VStr "uid-1")) ]).
Proof.
  apply (proj1 (addTestScripts_writes_nothing_unread unit Samples.deadHub Samples.taskClient
                  (VStr "uid-1") (Injector.plain Samples.scriptsWithoutDefault)
                  Samples.unitWorld)
           FetchFailed).
  reflexivity.
Defined.

(** X13 on two tags, one in need of repair, and on a list with an empty
    tag. *)
Lemma updateCollectionTags_all_or_nothing_witness :
  fetches (snd (updateCollectionTags unit Samples.emptyHub Samples.taskClient (VStr "uid-1")
                  [ VStr "Smoke Tests"; VStr "v2" ] Samples.unitWorld))
  = [ tags_call Samples.taskClient (VStr "uid-1") [ "smoke-tests"; "v2" ] ]
  /\ updateCollectionTags unit Samples.emptyHub Samples.taskClient (VStr "uid-1")
       [ VStr "smoke"; VStr "" ] Samples.unitWorld
     = (Throw (Error "Tag must be a non-empty string"), Samples.unitWorld, []).
Proof.
  split.
  - destruct (proj1 (updateCollectionTags_all_or_nothing unit Samples.emptyHub
                       Samples.taskClient (VStr "uid-1")
                       [ VStr "Smoke Tests"; VStr "v2" ] Samples.unitWorld)
                [ "Smoke Tests"; "v2" ] eq_refl) as [Hrun _].
    + repeat constructor; discriminate.
    + rewrite Hrun. reflexivity.
  - apply (proj2 (updateCollectionTags_all_or_nothing unit Samples.emptyHub
                    Samples.taskClient (VStr "uid-1")
                    [ VStr "smoke"; VStr "" ] Samples.unitWorld)).
    apply Exists_cons_tl, Exists_cons_hd. by intros s [= <-].
Defined.

End ClientFacts.

(* ===================================================================== *)
(** * Facts about the rest of [sync] *)
(* ===================================================================== *)

Module SyncFacts.
Import Js Remote Routes RemoteFacts ClientFacts.

Section Orchestrator.

Variable St : Type.
Variable serve : St -> call -> reply * St.
Variable parseSpec : val -> outcome OpenApi.api.
Variable readFileSync : val -> outcome string.
Variable extractEndpoints : OpenApi.api -> list OpenApi.endpoint.
Variable getResponseSchema :
  list (string * OpenApi.response) -> string -> option OpenApi.schemaInfo.
Variable getRequiredFields : val -> list string.
Variable generateCollection :
  client -> val -> string -> list (string * val) -> Remote.M St val.
Variable arrayMembers : list string.

Abbreviation world := (world St).
Abbreviation answered := (answered St serve).
Abbreviation environmentStage := (environmentStage St serve).
Abbreviation summary := (summary St).
Abbreviation testStages :=
  (testStages St serve extractEndpoints getResponseSchema getRequiredFields
              generateCollection arrayMembers).
Abbreviation sync :=
  (sync St serve parseSpec readFileSync extractEndpoints getResponseSchema
        getRequiredFields generateCollection arrayMembers).

Ltac steps :=
  unfold Remote.bind, Remote.try_catch, Remote.emit, Remote.lift, Remote.ret, Remote.throw;
  cbv beta iota zeta.

(** X15.  A dry run stays offline.  With [dryRun] set, [sync] makes no
    call and leaves the service and the heap as they were, whatever the
    other options: it ends the process with code 1 when one of the three
    required options is missing, throws what the parser throws, and
    otherwise returns once the spec is parsed. *)
Theorem sync_dry_run_is_offline (o : Options.t) (w : world) :
  Options.dryRun o = true ->
  snd (fst (sync o w)) = w
  /\ fetches (snd (sync o w)) = []
  /\ fst (fst (sync o w))
     = if truthy (Options.spec o) && truthy (Options.apiKey o)
          && truthy (Options.workspaceId o)
       then obind (parseSpec (Options.spec o)) (fun _ => Ok tt)
       else Throw (ProcessExit 1).
Proof.
  intros Hdry. unfold Remote.sync, validateOptions. steps. rewrite Hdry.
  destruct (truthy (Options.spec o)); simpl; [|auto].
  destruct (truthy (Options.apiKey o)); simpl; [|auto].
  destruct (truthy (Options.workspaceId o)); simpl; [|auto].
  destruct (parseSpec (Options.spec o)); simpl; auto.
Qed.

(** ** The environment stage *)

(** The stage on an environment and a listing it could read. *)
Lemma environmentStage_found (o : Options.t) (a : OpenApi.api) (cl : client) (w : world)
    (e : Env.environment) (environments existing : val) :
  Env.generateEnvironment a = Ok e ->
  request_outcome (fst (serve (remote w) (environments_call o cl))) = Ok environments ->
  findEnvironment environments (Env.env_name e) = Ok existing ->
  fetches (snd (environmentStage o a cl w))
  = environments_call o cl
    :: if truthy existing then
         match get existing "uid" with
         | Ok uid => [ environment_update_call cl uid e ]
         | Throw _ => []
         end
       else [ environment_create_call o cl e ].
Proof.
  intros He Hl Hf. unfold Remote.environmentStage. steps. rewrite He. steps.
  rewrite request_run. cbv zeta. fold (environments_call o cl). rewrite Hl. steps.
  clear Hl. unfold findEnvironment in Hf. rewrite Hf. steps.
  destruct (truthy existing).
  - destruct (get existing "uid") as [uid|err]; [|reflexivity]. steps.
    rewrite request_run. cbv zeta. fold (environment_update_call cl uid e).
    destruct (request_outcome _); reflexivity.
  - rewrite request_run. cbv zeta. fold (environment_create_call o cl e).
    destruct (request_outcome _) as [envResult|err]; [|reflexivity]. steps.
    destruct (get envResult "environment") as [env|err]; [|reflexivity]. steps.
    destruct (get_opt env "uid"); reflexivity.
Qed.

(** X16.  The environment is upserted by name.  Once the environment is
    generated and the workspace's environments are listed, the stage makes
    exactly one more call: when the listing holds an environment of the
    generated name, the PUT of the generated document under that
    environment's uid, and no create; when it holds none, the POST that
    creates it. *)
Theorem environmentStage_upserts (o : Options.t) (a : OpenApi.api) (cl : client)
    (w : world) (e : Env.environment) (environments : val) :
  Env.generateEnvironment a = Ok e ->
  request_outcome (fst (serve (remote w) (environments_call o cl))) = Ok environments ->
  (forall existing uid,
     findEnvironment environments (Env.env_name e) = Ok existing ->
     truthy existing = true ->
     get existing "uid" = Ok uid ->
     fetches (snd (environmentStage o a cl w))
     = [ environments_call o cl; environment_update_call cl uid e ])
  /\ (forall existing,
        findEnvironment environments (Env.env_name e) = Ok existing ->
        truthy existing = false ->
        fetches (snd (environmentStage o a cl w))
        = [ environments_call o cl; environment_create_call o cl e ]).
Proof.
  intros He Hl. split.
  - intros existing uid Hf Ht Hu.
    rewrite (environmentStage_found o a cl w e environments existing He Hl Hf).
    by rewrite Ht, Hu.
  - intros existing Hf Ht.
    rewrite (environmentStage_found o a cl w e environments existing He Hl Hf).
    by rewrite Ht.
Qed.

(** ** A test level that selects nothing *)

Lemma summariseCollections_run (l : list generated) (w : world) :
  exists t, summariseCollections St l w = (Ok tt, w, t) /\ fetches t = [].
Proof.
  induction l as [|coll rest IH]; [by exists []|].
  destruct IH as (t & Ht & Hf). simpl. steps. rewrite Ht.
  eexists. split; [reflexivity|]. simpl. exact Hf.
Qed.

Lemma summary_run (o : Options.t) (specName : string) (specId : val)
    (l : list generated) (w : world) :
  exists t, summary o specName specId l w = (Ok tt, w, t) /\ fetches t = [].
Proof.
  unfold Remote.summary. steps.
  destruct (summariseCollections_run l w) as (t & -> & Hf).
  destruct (generateSmoke o), (generateContract o);
    (eexists; split; [reflexivity|]); simpl; rewrite fetches_app, Hf; reflexivity.
Qed.

(** every call of the environment stage goes to the environments *)
Lemma environmentStage_calls (o : Options.t) (a : OpenApi.api) (cl : client) (w : world) :
  Forall to_environments (fetches (snd (environmentStage o a cl w))).
Proof.
  assert (Hlist : to_environments (environments_call o cl)) by (eexists; reflexivity).
  assert (Hput : forall uid e, to_environments (environment_update_call cl uid e))
    by (intros; eexists; reflexivity).
  assert (Hpost : forall e, to_environments (environment_create_call o cl e))
    by (intros; eexists; reflexivity).
  unfold Remote.environmentStage. steps.
  destruct (Env.generateEnvironment a) as [e|err]; [|constructor]. steps.
  rewrite request_run. cbv zeta. fold (environments_call o cl).
  destruct (request_outcome _) as [environments|err]; [|by repeat constructor]. steps.
  destruct (obind _ _) as [existing|err]; [|by repeat constructor]. steps.
  destruct (truthy existing).
  - destruct (get existing "uid") as [uid|err]; [|by repeat constructor]. steps.
    rewrite request_run. cbv zeta. fold (environment_update_call cl uid e).
    destruct (request_outcome _); by repeat constructor.
  - rewrite request_run. cbv zeta. fold (environment_create_call o cl e).
    destruct (request_outcome _) as [envResult|err]; [|by repeat constructor]. steps.
    destruct (get envResult "environment") as [env|err]; [|by repeat constructor]. steps.
    destruct (get_opt env "uid"); by repeat constructor.
Qed.

(** X17.  A test level other than [all], [smoke] and [contract] selects no
    tier, and nothing says so: after the docs stage the run is the
    environment stage, numbered Step 5, and the summary of the docs
    collection alone; it generates no test collection, and all its calls go
    to the environments of the workspace. *)
Theorem sync_unknown_level_skips_tests (o : Options.t) (a : OpenApi.api) (cl : client)
    (specName : string) (specId : val) (docs : list generated) (w : world) :
  (forall level, In level ["all"; "smoke"; "contract"] -> Options.testLevel o <> VStr level) ->
  testStages o a cl specName specId docs w
  = Remote.bind St (environmentStage o a cl) (fun _ => summary o specName specId docs) w
  /\ Forall to_environments (fetches (snd (testStages o a cl specName specId docs w)))
  /\ exists t, snd (environmentStage o a cl w) = LogStep "Step 5" "Creating environment" :: t.
Proof.
  intros Hlevel.
  assert (Hnot : forall level, In level ["all"; "smoke"; "contract"] ->
                   is_str (Options.testLevel o) level = false).
  { intros level Hin. specialize (Hlevel level Hin). unfold is_str.
    destruct (Options.testLevel o) as [| | | |s| | |]; try reflexivity.
    destruct (String.eqb_spec s level); congruence. }
  assert (Hs : generateSmoke o = false).
  { unfold generateSmoke. rewrite !Hnot; simpl; auto. }
  assert (Hc : generateContract o = false).
  { unfold generateContract. rewrite !Hnot; simpl; auto. }
  assert (Heq : testStages o a cl specName specId docs w
                = Remote.bind St (environmentStage o a cl)
                    (fun _ => summary o specName specId docs) w).
  { unfold Remote.testStages, smokeTier, contractTier. rewrite Hs, Hc.
    rewrite !bind_ret. by rewrite app_nil_r. }
  split; [exact Heq|]. split.
  - rewrite Heq. unfold Remote.bind.
    pose proof (environmentStage_calls o a cl w) as Hcalls.
    destruct (environmentStage o a cl w) as [[[u|err] w1] t1]; [|exact Hcalls].
    destruct (summary_run o specName specId docs w1) as (t2 & -> & Hf).
    simpl in *. by rewrite fetches_app, Hf, app_nil_r.
  - unfold Remote.environmentStage. rewrite Hs, Hc. steps.
    destruct (match Env.generateEnvironment a with Ok _ => _ | Throw _ => _ end)
      as [[r w1] t1].
    by eexists.
Qed.

End Orchestrator.

(** X15 on a dry run against the small Spec Hub. *)
Lemma sync_dry_run_is_offline_witness :
  snd (fst (sync (list string) Samples.hub Samples.parseSpec Samples.readFileSync
              Samples.extractEndpoints Samples.getResponseSchema Samples.getRequiredFields
              (generateCollection_undeclared (list string)) Samples.arrayMembers
              Samples.dryOptions Samples.hubWorld))
  = Samples.hubWorld
  /\ fetches (snd (sync (list string) Samples.hub Samples.parseSpec Samples.readFileSync
                     Samples.extractEndpoints Samples.getResponseSchema
                     Samples.getRequiredFields
                     (generateCollection_undeclared (list string)) Samples.arrayMembers
                     Samples.dryOptions Samples.hubWorld))
     = [].
Proof.
  destruct (sync_dry_run_is_offline (list string) Samples.hub Samples.parseSpec
              Samples.readFileSync Samples.extractEndpoints Samples.getResponseSchema
              Samples.getRequiredFields (generateCollection_undeclared (list string))
              Samples.arrayMembers
              Samples.dryOptions Samples.hubWorld eq_refl) as (Hw & Hf & _).
  split; [exact Hw|exact Hf].
Defined.

(** X16 on the small Spec Hub, whose workspace has no environment yet. *)
Lemma environmentStage_upserts_witness :
  exists e,
    Env.generateEnvironment Samples.taskApi = Ok e
    /\ fetches (snd (environmentStage (list string) Samples.hub Samples.allOptions
                       Samples.taskApi Samples.taskClient Samples.hubWorld))
       = [ environments_call Samples.allOptions Samples.taskClient;
           environment_create_call Samples.allOptions Samples.taskClient e ].
Proof.
  eexists. split; [reflexivity|].
  eapply (proj2 (environmentStage_upserts (list string) Samples.hub Samples.allOptions
                   Samples.taskApi Samples.taskClient Samples.hubWorld _
                   (VObj [ ("environments", VArr []) ]) eq_refl eq_refl) VUndef);
    reflexivity.
Defined.

(** X17 on the test level [full]. *)
Lemma sync_unknown_level_skips_tests_witness :
  Forall to_environments
    (fetches (snd (testStages (list string) Samples.hub Samples.extractEndpoints
                     Samples.getResponseSchema Samples.getRequiredFields
                     (generateCollection_undeclared (list string)) Samples.arrayMembers
                     Samples.typoOptions Samples.taskApi Samples.taskClient
                     "Task API" (VStr "spec-1") [] Samples.hubWorld))).
Proof.
  apply (sync_unknown_level_skips_tests (list string) Samples.hub Samples.extractEndpoints
           Samples.getResponseSchema Samples.getRequiredFields
           (generateCollection_undeclared (list string)) Samples.arrayMembers
           Samples.typoOptions Samples.taskApi Samples.taskClient
           "Task API" (VStr "spec-1") [] Samples.hubWorld).
  intros level [<-|[<-|[<-|[]]]]; discriminate.
Defined.

End SyncFacts.

(* ===================================================================== *)
(** * When the poll loops return *)
(* ===================================================================== *)

Module PollFacts.
Import Js Remote RemoteFacts ClientFacts Polls.

Section Service.

Variable St : Type.
Variable serve : St -> call -> reply * St.

Abbreviation world := (world St).
Abbreviation answered := (answered St serve).

Lemma generation_found (cl : client) (name : string) (maxAttempts k remaining : nat)
    (w : world) :
  listed_at St serve cl name k (remote w) ->
  k < remaining ->
  exists w',
    waitForCollectionGeneration_from St serve cl name maxAttempts remaining w
    = (Ok tt, w', turns (list_call cl) (S k)).
Proof.
  revert remaining w. induction k as [|k IH]; intros remaining w H Hlt;
    (destruct remaining as [|remaining]; [lia|]); rewrite generation_turn; cbv zeta.
  - destruct H as (data & c & -> & Hc & Ht). simpl obind. rewrite Hc, Ht. by eexists.
  - simpl in H. destruct (serve (remote w) (list_call cl)) as [r s'] eqn:E.
    destruct H as [(data & Hr & c & Hc & Hf) Hk]. simpl fst. rewrite Hr. simpl obind.
    rewrite Hc, Hf.
    destruct (IH remaining (answered w (list_call cl))) as [w' Hw']; [|lia|].
    { unfold Remote.answered. simpl. rewrite E. exact Hk. }
    exists w'. rewrite Hw'. reflexivity.
Qed.

(** X18.  The generation poll returns at the first listing that holds the
    name: when the service's first [k] listings lack the collection and
    the next one holds it, and [k] is below the attempt cap, the wait ends
    normally after [k + 1] turns, each a sleep of two seconds and one
    listing, and no further call. *)
Theorem waitForCollectionGeneration_returns_when_listed (cl : client) (name : string)
    (maxAttempts k : nat) (w : world) :
  listed_at St serve cl name k (remote w) ->
  k < maxAttempts ->
  exists w',
    waitForCollectionGeneration St serve cl name maxAttempts w
    = (Ok tt, w', turns (list_call cl) (S k)).
Proof. intros H Hlt. by apply generation_found. Qed.

Lemma sync_found (cl : client) (collectionId : val) (maxAttempts i k remaining : nat)
    (w : world) :
  ready_at St serve cl collectionId k (remote w) ->
  k < remaining ->
  exists w' t,
    waitForCollectionSync_from St serve cl collectionId maxAttempts i remaining w
    = (Ok tt, w', t)
    /\ fetches t = repeat (collection_call cl collectionId) (S k)
    /\ ~ In (ConsoleWarn sync_warning) t.
Proof.
  revert i remaining w. induction k as [|k IH]; intros i remaining w H Hlt;
    (destruct remaining as [|remaining]; [lia|]); rewrite sync_turn; cbv zeta.
  - destruct H as (collection & -> & Ht). rewrite Ht.
    eexists _, _. split; [reflexivity|]. split; [reflexivity|].
    simpl. intros [H|[H|[]]]; discriminate H.
  - simpl in H. destruct (serve (remote w) (collection_call cl collectionId)) as [r s'] eqn:E.
    destruct H as [Hr Hk]. simpl fst.
    destruct (IH (S i) remaining (answered w (collection_call cl collectionId)))
      as (w' & t & Hw' & Hf & Hwarn); [|lia|].
    { unfold Remote.answered. simpl. rewrite E. exact Hk. }
    rewrite Hw'. destruct (request_outcome r) as [collection|e].
    + rewrite Hr. eexists _, _. split; [reflexivity|]. split; [simpl; by rewrite Hf|].
      simpl. intros [H|[H|H]]; [discriminate H|discriminate H|by apply Hwarn].
    + eexists _, _. split; [reflexivity|]. split; [simpl; by rewrite Hf|].
      simpl. intros [H|[H|[H|H]]]; [discriminate H|discriminate H|discriminate H|].
      by apply Hwarn.
Qed.

(** X19.  The sync poll returns at the first fetch that yields the
    collection: when the service fails or answers with a falsy body [k]
    times and then answers with the collection, and [k] is below the
    attempt cap, the wait ends normally after [k + 1] fetches of the
    collection, without the time-out warning. *)
Theorem waitForCollectionSync_returns_when_ready (cl : client) (collectionId : val)
    (maxAttempts k : nat) (w : world) :
  ready_at St serve cl collectionId k (remote w) ->
  k < maxAttempts ->
  exists w' t,
    waitForCollectionSync St serve cl collectionId maxAttempts w = (Ok tt, w', t)
    /\ fetches t = repeat (collection_call cl collectionId) (S k)
    /\ ~ In (ConsoleWarn sync_warning) t.
Proof. intros H Hlt. by apply sync_found. Qed.

End Service.

(** X18 on a service that lists the collection from its third listing on. *)
Lemma waitForCollectionGeneration_returns_when_listed_witness :
  exists w',
    waitForCollectionGeneration nat Samples.slowHub Samples.taskClient "Task API - Docs" 10
      {| remote := 0; next_ref := 0%N |}
    = (Ok tt, w', turns (list_call Samples.taskClient) 3).
Proof.
  apply (waitForCollectionGeneration_returns_when_listed nat Samples.slowHub
           Samples.taskClient "Task API - Docs" 10 2 {| remote := 0; next_ref := 0%N |});
    [|lia].
  simpl. repeat split; eauto 10.
Defined.

(** X19 on the small Spec Hub, which has every collection at once. *)
Lemma waitForCollectionSync_returns_when_ready_witness :
  exists w' t,
    waitForCollectionSync (list string) Samples.hub Samples.taskClient (VStr "uid-1") 10
      Samples.hubWorld
    = (Ok tt, w', t)
    /\ fetches t = [ collection_call Samples.taskClient (VStr "uid-1") ]
    /\ ~ In (ConsoleWarn sync_warning) t.
Proof.
  apply (waitForCollectionSync_returns_when_ready (list string) Samples.hub
           Samples.taskClient (VStr "uid-1") 10 0 Samples.hubWorld); [|lia].
  simpl. eexists. split; reflexivity.
Defined.

End PollFacts.

(* ===================================================================== *)
(** * Facts about pre-request scripts *)
(* ===================================================================== *)

Module PreRequestFacts.
Import Js OpenApi PreRequest.

Lemma append_assoc (s1 s2 s3 : string) : (s1 +:+ s2) +:+ s3 = s1 +:+ (s2 +:+ s3).
Proof.
  induction s1 as [|c r IH]; [reflexivity|].
  change ((String c r +:+ s2) +:+ s3) with (String c ((r +:+ s2) +:+ s3)).
  by rewrite IH.
Qed.

Lemma append_empty (s : string) : s +:+ EmptyString = s.
Proof.
  induction s as [|c r IH]; [reflexivity|].
  change (String c r +:+ EmptyString) with (String c (r +:+ EmptyString)).
  by rewrite IH.
Qed.

Lemma brace_free_chars (c : ascii) (r : string) :
  brace_free (String c r) = true ->
  is_open c = false /\ is_close c = false /\ brace_free r = true.
Proof.
  unfold brace_free. simpl. intros [Hc Hr]%andb_true_iff.
  apply negb_true_iff, orb_false_iff in Hc as [Ho Hcl]. auto.
Qed.

(** ** The matches of the pattern *)

(** the characters a match covers are passed over *)
Lemma matches_skip (s1 s2 : string) :
  matches (String.length s1) (s1 +:+ s2) = matches 0 s2.
Proof. induction s1 as [|c r IH]; [reflexivity|]. exact IH. Qed.

(** text without braces holds no match *)
Lemma matches_literal (literal s : string) :
  brace_free literal = true -> matches 0 (literal +:+ s) = matches 0 s.
Proof.
  induction literal as [|c r IH]; [reflexivity|].
  intros (Ho & _ & Hr)%brace_free_chars.
  change (String c r +:+ s) with (String c (r +:+ s)).
  cbn [matches match_here]. rewrite Ho. by apply IH.
Qed.

Lemma before_close_name (name rest : string) :
  brace_free name = true -> before_close (name +:+ "}" +:+ rest) = Some name.
Proof.
  induction name as [|c r IH]; [reflexivity|].
  intros (_ & Hc & Hr)%brace_free_chars.
  change (String c r +:+ "}" +:+ rest) with (String c (r +:+ "}" +:+ rest)).
  cbn [before_close]. rewrite Hc, (IH Hr). reflexivity.
Qed.

(** a parameter written in braces is matched whole, and the search goes on
    behind it *)
Lemma matches_param (name rest : string) :
  brace_free name = true ->
  name <> EmptyString ->
  matches 0 ("{" +:+ name +:+ "}" +:+ rest) = ("{" +:+ name +:+ "}") :: matches 0 rest.
Proof.
  intros Hfree Hne.
  change ("{" +:+ name +:+ "}" +:+ rest) with (String "{" (name +:+ "}" +:+ rest)).
  cbn [matches match_here].
  change (is_open "{") with true. cbv iota.
  rewrite (before_close_name name rest Hfree).
  destruct name as [|a inner]; [contradiction|].
  f_equal. rewrite <- (matches_skip (String a inner +:+ "}") rest).
  rewrite append_assoc. reflexivity.
Qed.

Lemma strip_braces_free (s : string) : brace_free s = true -> strip_braces s = s.
Proof.
  induction s as [|c r IH]; [reflexivity|].
  intros (Ho & Hc & Hr)%brace_free_chars. simpl. by rewrite Ho, Hc, (IH Hr).
Qed.

Lemma strip_braces_append (s1 s2 : string) :
  strip_braces (s1 +:+ s2) = strip_braces s1 +:+ strip_braces s2.
Proof.
  induction s1 as [|c r IH]; [reflexivity|]. simpl.
  destruct (is_open c || is_close c); simpl; by rewrite IH.
Qed.

Lemma strip_braces_param (name : string) :
  brace_free name = true -> strip_braces ("{" +:+ name +:+ "}") = name.
Proof.
  intros Hfree.
  change ("{" +:+ name +:+ "}") with (String "{" (name +:+ "}")).
  cbn [strip_braces]. change (is_open "{" || is_close "{") with true. cbv iota.
  rewrite strip_braces_append, (strip_braces_free name Hfree).
  apply append_empty.
Qed.

Lemma pathParams_template (parts : list (string * string)) (tail : string) :
  Forall plain_part parts ->
  brace_free tail = true ->
  pathParams (template parts tail) = map (fun p => "{" +:+ snd p +:+ "}") parts.
Proof.
  unfold pathParams. intros Hparts Htail.
  induction Hparts as [|[literal name] rest (Hl & Hn & Hne) _ IH]; simpl in *.
  - rewrite <- (append_empty tail) at 1.
    by rewrite (matches_literal tail EmptyString Htail).
  - rewrite (matches_literal literal _ Hl), (matches_param name _ Hn Hne), IH.
    reflexivity.
Qed.

(** ** The lines of a script *)

Lemma setters_of_parameters (params : list string) :
  List.filter is_setter (flat_map parameter_lines params)
  = map (fun param => setter_line (strip_braces param)) params.
Proof.
  induction params as [|p rest IH]; [reflexivity|].
  change (flat_map parameter_lines (p :: rest))
    with (parameter_lines p ++ flat_map parameter_lines rest).
  rewrite List.filter_app, IH. reflexivity.
Qed.

Lemma setters_of_script (e : endpoint) (security : option (list val)) :
  List.filter is_setter (generatePreRequestScript e security)
  = map (fun param => setter_line (strip_braces param)) (pathParams (path e)).
Proof.
  unfold generatePreRequestScript.
  assert (Hbody :
    List.filter is_setter
      (if (0 <? length (pathParams (path e)))%nat then
         [ "// Pre-request script for: " +:+ method e +:+ " " +:+ path e; "" ]
           ++ [ "// Set path parameters if not defined" ]
           ++ flat_map parameter_lines (pathParams (path e)) ++ [ "" ]
       else [ "// Pre-request script for: " +:+ method e +:+ " " +:+ path e; "" ])
    = map (fun param => setter_line (strip_braces param)) (pathParams (path e))).
  { destruct (pathParams (path e)) as [|p rest] eqn:E; [reflexivity|].
    change (0 <? length (p :: rest))%nat with true. cbv iota.
    rewrite !List.filter_app, setters_of_parameters. simpl. by rewrite app_nil_r. }
  destruct security as [[|requirement others]|]; try exact Hbody.
  rewrite List.filter_app, Hbody. simpl. by rewrite app_nil_r.
Qed.

(** X20.  For a path template written from literal text and parameter
    names in braces (text and names without braces, no name empty), the
    pre-request script sets a default for every parameter, once and in the
    order of the path: its setter lines are, name by name,
    [pm.variables.set("name", "test-name-001")]. *)
Theorem generatePreRequestScript_sets_every_parameter
    (e : endpoint) (security : option (list val))
    (parts : list (string * string)) (tail : string) :
  path e = template parts tail ->
  Forall plain_part parts ->
  brace_free tail = true ->
  pathParams (path e) = map (fun p => "{" +:+ snd p +:+ "}") parts
  /\ List.filter is_setter (generatePreRequestScript e security)
     = map (fun p => setter_line (snd p)) parts.
Proof.
  intros Hpath Hparts Htail.
  assert (Hparams : pathParams (path e) = map (fun p => "{" +:+ snd p +:+ "}") parts)
    by (rewrite Hpath; by apply pathParams_template).
  split; [exact Hparams|].
  rewrite setters_of_script, Hparams, map_map.
  apply map_ext_in. intros [literal name] Hin. cbn [snd].
  rewrite List.Forall_forall in Hparts. destruct (Hparts _ Hin) as (_ & Hn & _).
  by rewrite (strip_braces_param name Hn).
Qed.

(** X21.  A path without an opening brace has no parameter: when the
    operation also declares no security requirement (no [security] member,
    or an empty one), the script is its header and an empty line. *)
Theorem generatePreRequestScript_minimal (e : endpoint) (security : option (list val)) :
  Tag.all_chars (fun c => negb (is_open c)) (path e) = true ->
  security = None \/ security = Some [] ->
  generatePreRequestScript e security
  = [ "// Pre-request script for: " +:+ method e +:+ " " +:+ path e; "" ].
Proof.
  intros Hpath Hsec. unfold generatePreRequestScript.
  assert (Hnone : pathParams (path e) = []).
  { unfold pathParams. induction (path e) as [|c r IH]; [reflexivity|].
    simpl in Hpath. apply andb_true_iff in Hpath as [Hc Hr].
    apply negb_true_iff in Hc. cbn [matches match_here]. rewrite Hc. by apply IH. }
  rewrite Hnone. by destruct Hsec as [-> | ->].
Qed.

Lemma before_close_chars (s inner : string) :
  before_close s = Some inner ->
  Tag.all_chars (fun c => negb (is_close c)) inner = true.
Proof.
  revert inner. induction s as [|c r IH]; [discriminate|]. simpl. intros inner.
  destruct (is_close c) eqn:Hc; [by intros [= <-]|].
  destruct (before_close r) as [i|]; [|discriminate]. intros [= <-].
  simpl. by rewrite Hc, (IH i eq_refl).
Qed.

Lemma match_here_well (s m : string) : match_here s = Some m -> well_matched m.
Proof.
  destruct s as [|c r]; [discriminate|]. simpl.
  destruct (is_open c) eqn:Ho; [|discriminate].
  destruct (before_close r) as [[|a inner]|] eqn:Hb; try discriminate.
  intros [= <-]. exists a, inner. split.
  - unfold is_open in Ho. by apply Ascii.eqb_eq in Ho as ->.
  - exact (before_close_chars r _ Hb).
Qed.

Lemma strip_braces_is_free (s : string) : brace_free (strip_braces s) = true.
Proof.
  unfold brace_free. induction s as [|c r IH]; [reflexivity|]. simpl.
  destruct (is_open c || is_close c) eqn:E; [exact IH|]. simpl. by rewrite E, IH.
Qed.

(** X22.  Whatever the path, every parameter the script generator finds
    in it is a pair of braces around at least one character, none of them
    a closing brace (so [{}] is no parameter), and the name it writes
    into the script for it holds no brace. *)
Theorem pathParams_are_braced (path : string) :
  Forall (fun m => well_matched m /\ brace_free (strip_braces m) = true) (pathParams path).
Proof.
  unfold pathParams. generalize 0 as skip.
  induction path as [|c r IH]; intros skip; [constructor|].
  cbn [matches]. destruct skip as [|k]; [|apply IH].
  destruct (match_here (String c r)) as [m|] eqn:E; [|apply IH].
  constructor; [|apply IH].
  split; [exact (match_here_well _ _ E)|apply strip_braces_is_free].
Qed.

(** X20 on [/projects/{projectId}/tasks/{taskId}]. *)
Lemma generatePreRequestScript_sets_every_parameter_witness :
  pathParams "/projects/{projectId}/tasks/{taskId}" = [ "{projectId}"; "{taskId}" ]
  /\ List.filter is_setter
       (generatePreRequestScript Samples.getProjectTask (Some [ VObj [] ]))
     = [ setter_line "projectId"; setter_line "taskId" ].
Proof.
  apply (generatePreRequestScript_sets_every_parameter Samples.getProjectTask
           (Some [ VObj [] ])
           [ ("/projects/", "projectId"); ("/tasks/", "taskId") ] "").
  - reflexivity.
  - repeat constructor; discriminate.
  - reflexivity.
Defined.

(** X21 on [GET /tasks]. *)
Lemma generatePreRequestScript_minimal_witness :
  generatePreRequestScript Samples.listTasks None
  = [ "// Pre-request script for: GET /tasks"; "" ].
Proof.
  apply (generatePreRequestScript_minimal Samples.listTasks None); [reflexivity|by left].
Defined.

End PreRequestFacts.

(* ===================================================================== *)
(** * Facts about the command line *)
(* ===================================================================== *)

Module CliFacts.
Import Js Remote Cli.

(** ** One argument at a time *)

(** the labels are twelve strings *)
Lemma is_label_cases (arg : string) :
  is_label arg = false ->
  is_spec arg = false /\ is_workspace arg = false /\ is_api_key arg = false
  /\ is_test_level arg = false /\ is_dry_run arg = false /\ is_help arg = false.
Proof.
  unfold is_label, takes_value. intros H.
  repeat match goal with
         | H : _ || _ = false |- _ => apply orb_false_iff in H as [? ?]
         end.
  auto 10.
Qed.

(** what one setting's arguments do, whatever follows them *)
Lemma parse_setting (s : setting) (rest : list string) (o : Options.t) :
  well_formed s ->
  parseArgs_from (tokens s ++ rest) o = parseArgs_from rest (assign o s).
Proof.
  destruct s as [[|] v|[|] v|[|] v|[|] v|[|]|[|]|arg]; try reflexivity.
  simpl. intros (Hs & Hw & Hk & Ht & Hd & Hh)%is_label_cases.
  by rewrite Hs, Hw, Hk, Ht, Hd, Hh.
Qed.

(** X23.  [parseArgs] reads a command line left to right, one setting
    at a time: a label that takes a value takes the next argument as it
    is, whatever it looks like; the two labels without value switch their
    option on; an argument that is no label is passed over; the long and
    the short label of an option do the same.  So the options returned are
    the defaults with the settings assigned in order, a later one
    overwriting an earlier one. *)
Theorem parseArgs_reads_settings (e : env) (settings : list setting) :
  Forall well_formed settings ->
  parseArgs e (flat_map tokens settings) = fold_left assign settings (defaults e).
Proof.
  unfold parseArgs. generalize (defaults e) as o.
  induction settings as [|s rest IH]; intros o Hwf; [reflexivity|].
  apply Forall_cons in Hwf as [Hs Hrest].
  change (flat_map tokens (s :: rest)) with (tokens s ++ flat_map tokens rest).
  rewrite (parse_setting s _ o Hs). by apply IH.
Qed.

Lemma parseArgs_reads_settings_witness :
  parseArgs {| POSTMAN_WORKSPACE_ID := VStr "ws"; POSTMAN_API_KEY := VUndef |}
    [ "-s"; "--dry-run"; "verbose"; "--spec"; "specs/api.yaml"; "-k"; "key"; "-d" ]
  = {| Options.spec := VStr "specs/api.yaml"; Options.workspaceId := VStr "ws";
       Options.apiKey := VStr "key"; Options.dryRun := true;
       Options.testLevel := VStr "all"; Options.help := false |}.
Proof.
  apply (parseArgs_reads_settings
           {| POSTMAN_WORKSPACE_ID := VStr "ws"; POSTMAN_API_KEY := VUndef |}
           [ Spec true "--dry-run"; Other "verbose"; Spec false "specs/api.yaml";
             ApiKey true "key"; DryRun true ]).
  repeat constructor.
Defined.

(** ** Options no argument names *)

(** Induction over the arguments as the loop consumes them: one or two at
    a time. *)
Lemma by_arguments (P : list string -> Prop) :
  P [] ->
  (forall arg, P [arg]) ->
  (forall arg rest, P rest -> (forall v rest', rest = v :: rest' -> P rest') -> P (arg :: rest)) ->
  forall args, P args.
Proof.
  intros Hnil Hone Hstep.
  assert (H : forall args, P args /\ forall v, P (v :: args)).
  { induction args as [|a args [IH1 IH2]].
    - split; [exact Hnil|exact Hone].
    - split; [apply IH2|]. intros v. apply Hstep; [apply IH2|].
      intros v' rest' [= <- <-]. exact IH1. }
  intros args. apply H.
Qed.

(** An option keeps its value over arguments none of which is a label
    that assigns it. *)
Lemma kept_without_label {A} (field : Options.t -> A) (label : string -> bool) :
  ((forall arg, is_spec arg = true -> label arg = true)
   \/ forall v o, field (with_spec v o) = field o) ->
  ((forall arg, is_workspace arg = true -> label arg = true)
   \/ forall v o, field (with_workspaceId v o) = field o) ->
  ((forall arg, is_api_key arg = true -> label arg = true)
   \/ forall v o, field (with_apiKey v o) = field o) ->
  ((forall arg, is_test_level arg = true -> label arg = true)
   \/ forall v o, field (with_testLevel v o) = field o) ->
  ((forall arg, is_dry_run arg = true -> label arg = true)
   \/ forall o, field (with_dryRun o) = field o) ->
  ((forall arg, is_help arg = true -> label arg = true)
   \/ forall o, field (with_help o) = field o) ->
  forall args o,
    (forall arg, In arg args -> label arg = false) ->
    field (parseArgs_from args o) = field o.
Proof.
  intros Hs Hw Hk Ht Hd Hh args.
  assert (Hkeep : forall (test : string -> bool) arg,
            (forall arg, test arg = true -> label arg = true) ->
            label arg = false -> test arg = true -> False).
  { intros test arg Himp Hl Htest. rewrite (Himp arg Htest) in Hl. discriminate. }
  induction args as [| arg | arg rest IHrest IHskip] using by_arguments; intros o Hno;
    [reflexivity| |].
  - assert (Hl : label arg = false) by (apply Hno; simpl; auto).
    simpl.
    destruct (is_spec arg) eqn:E1;
      [destruct Hs as [Hs|Hs]; [destruct (Hkeep _ _ Hs Hl E1)|apply Hs]|].
    destruct (is_workspace arg) eqn:E2;
      [destruct Hw as [Hw|Hw]; [destruct (Hkeep _ _ Hw Hl E2)|apply Hw]|].
    destruct (is_api_key arg) eqn:E3;
      [destruct Hk as [Hk|Hk]; [destruct (Hkeep _ _ Hk Hl E3)|apply Hk]|].
    destruct (is_test_level arg) eqn:E4;
      [destruct Ht as [Ht|Ht]; [destruct (Hkeep _ _ Ht Hl E4)|apply Ht]|].
    destruct (is_dry_run arg) eqn:E5;
      [destruct Hd as [Hd|Hd]; [destruct (Hkeep _ _ Hd Hl E5)|apply Hd]|].
    destruct (is_help arg) eqn:E6;
      [destruct Hh as [Hh|Hh]; [destruct (Hkeep _ _ Hh Hl E6)|apply Hh]|].
    reflexivity.
  - assert (Hl : label arg = false) by (apply Hno; simpl; auto).
    assert (Hrest : forall a, In a rest -> label a = false)
      by (intros a Ha; apply Hno; simpl; auto).
    assert (Hvalue : forall (assign : val -> Options.t -> Options.t),
              (forall v o, field (assign v o) = field o) ->
              field (match rest with
                     | v :: rest' => parseArgs_from rest' (assign (VStr v) o)
                     | [] => assign VUndef o
                     end) = field o).
    { intros assign Hassign. destruct rest as [|v rest']; [apply Hassign|].
      rewrite (IHskip v rest' eq_refl); [apply Hassign|].
      intros a Ha. apply Hrest. simpl. auto. }
    cbn [parseArgs_from].
    destruct (is_spec arg) eqn:E1;
      [destruct Hs as [Hs|Hs]; [destruct (Hkeep _ _ Hs Hl E1)|by apply Hvalue]|].
    destruct (is_workspace arg) eqn:E2;
      [destruct Hw as [Hw|Hw]; [destruct (Hkeep _ _ Hw Hl E2)|by apply Hvalue]|].
    destruct (is_api_key arg) eqn:E3;
      [destruct Hk as [Hk|Hk]; [destruct (Hkeep _ _ Hk Hl E3)|by apply Hvalue]|].
    destruct (is_test_level arg) eqn:E4;
      [destruct Ht as [Ht|Ht]; [destruct (Hkeep _ _ Ht Hl E4)|by apply Hvalue]|].
    destruct (is_dry_run arg) eqn:E5;
      [destruct Hd as [Hd|Hd];
         [destruct (Hkeep _ _ Hd Hl E5)|rewrite (IHrest _ Hrest); apply Hd]|].
    destruct (is_help arg) eqn:E6;
      [destruct Hh as [Hh|Hh];
         [destruct (Hkeep _ _ Hh Hl E6)|rewrite (IHrest _ Hrest); apply Hh]|].
    by apply IHrest.
Qed.

Lemma spec_kept (args : list string) (o : Options.t) :
  (forall arg, In arg args -> is_spec arg = false) ->
  Options.spec (parseArgs_from args o) = Options.spec o.
Proof. apply kept_without_label; auto. Qed.

Lemma workspaceId_kept (args : list string) (o : Options.t) :
  (forall arg, In arg args -> is_workspace arg = false) ->
  Options.workspaceId (parseArgs_from args o) = Options.workspaceId o.
Proof. apply kept_without_label; auto. Qed.

Lemma apiKey_kept (args : list string) (o : Options.t) :
  (forall arg, In arg args -> is_api_key arg = false) ->
  Options.apiKey (parseArgs_from args o) = Options.apiKey o.
Proof. apply kept_without_label; auto. Qed.

Lemma testLevel_kept (args : list string) (o : Options.t) :
  (forall arg, In arg args -> is_test_level arg = false) ->
  Options.testLevel (parseArgs_from args o) = Options.testLevel o.
Proof. apply kept_without_label; auto. Qed.

Lemma dryRun_kept (args : list string) (o : Options.t) :
  (forall arg, In arg args -> is_dry_run arg = false) ->
  Options.dryRun (parseArgs_from args o) = Options.dryRun o.
Proof. apply kept_without_label; auto. Qed.

Lemma help_kept (args : list string) (o : Options.t) :
  (forall arg, In arg args -> is_help arg = false) ->
  Options.help (parseArgs_from args o) = Options.help o.
Proof. apply kept_without_label; auto. Qed.

(** X24.  An option is assigned only by an argument that is one of its two
    labels.  On a command line that holds neither, the spec path is [null],
    the workspace and the API key are the values of the environment
    variables ([undefined] when unset), the test level is [all], and
    neither the dry run nor the help is switched on. *)
Theorem parseArgs_keeps_defaults (e : env) (argv : list string) :
  ((forall arg, In arg argv -> is_spec arg = false) ->
     Options.spec (parseArgs e argv) = VNull)
  /\ ((forall arg, In arg argv -> is_workspace arg = false) ->
        Options.workspaceId (parseArgs e argv) = POSTMAN_WORKSPACE_ID e)
  /\ ((forall arg, In arg argv -> is_api_key arg = false) ->
        Options.apiKey (parseArgs e argv) = POSTMAN_API_KEY e)
  /\ ((forall arg, In arg argv -> is_test_level arg = false) ->
        Options.testLevel (parseArgs e argv) = VStr "all")
  /\ ((forall arg, In arg argv -> is_dry_run arg = false) ->
        Options.dryRun (parseArgs e argv) = false)
  /\ ((forall arg, In arg argv -> is_help arg = false) ->
        Options.help (parseArgs e argv) = false).
Proof.
  unfold parseArgs.
  split; [intros H; by rewrite spec_kept|].
  split; [intros H; by rewrite workspaceId_kept|].
  split; [intros H; by rewrite apiKey_kept|].
  split; [intros H; by rewrite testLevel_kept|].
  split; [intros H; by rewrite dryRun_kept|].
  intros H; by rewrite help_kept.
Qed.

(** ** The run *)

Lemma no_spec_no_help (e : env) (argv : list string) :
  (forall arg, In arg argv -> is_spec arg = false) ->
  (forall arg, In arg argv -> is_help arg = false) ->
  Options.spec (parseArgs e argv) = VNull /\ Options.help (parseArgs e argv) = false.
Proof.
  intros Hs Hh. unfold parseArgs. by rewrite spec_kept, help_kept.
Qed.

(** the help, once asked for, stays asked for *)
Lemma help_stays (args : list string) (o : Options.t) :
  Options.help o = true -> Options.help (parseArgs_from args o) = true.
Proof.
  revert o.
  induction args as [| arg | arg rest IHrest IHskip] using by_arguments; intros o Ho;
    [exact Ho| |].
  - simpl.
    destruct (is_spec arg); [exact Ho|]. destruct (is_workspace arg); [exact Ho|].
    destruct (is_api_key arg); [exact Ho|]. destruct (is_test_level arg); [exact Ho|].
    destruct (is_dry_run arg); [exact Ho|]. destruct (is_help arg); [reflexivity|exact Ho].
  - cbn [parseArgs_from].
    assert (Hvalue : forall (assign : val -> Options.t -> Options.t),
              (forall v o, Options.help (assign v o) = Options.help o) ->
              Options.help (match rest with
                            | v :: rest' => parseArgs_from rest' (assign (VStr v) o)
                            | [] => assign VUndef o
                            end) = true).
    { intros assign Hassign. destruct rest as [|v rest']; [by rewrite Hassign|].
      apply (IHskip v rest' eq_refl). by rewrite Hassign. }
    destruct (is_spec arg); [by apply Hvalue|].
    destruct (is_workspace arg); [by apply Hvalue|].
    destruct (is_api_key arg); [by apply Hvalue|].
    destruct (is_test_level arg); [by apply Hvalue|].
    destruct (is_dry_run arg); [by apply IHrest|].
    destruct (is_help arg); [by apply IHrest|].
    by apply IHrest.
Qed.

(** arguments that take no value are read one by one *)
Lemma parse_singles (pre rest : list string) (o : Options.t) :
  Forall (fun arg => takes_value arg = false) pre ->
  exists o', parseArgs_from (pre ++ rest) o = parseArgs_from rest o'.
Proof.
  intros Hpre. revert o. induction Hpre as [|arg pre Harg _ IH]; intros o; [by exists o|].
  unfold takes_value in Harg.
  repeat match goal with
         | H : _ || _ = false |- _ => apply orb_false_iff in H as [? ?]
         end.
  change ((arg :: pre) ++ rest) with (arg :: (pre ++ rest)). cbn [parseArgs_from].
  repeat match goal with H : _ arg = false |- _ => rewrite H; clear H end.
  destruct (is_dry_run arg); [apply IH|]. destruct (is_help arg); apply IH.
Qed.

Lemma is_help_only (arg : string) :
  is_help arg = true -> takes_value arg = false /\ is_dry_run arg = false.
Proof.
  unfold is_help. intros [H|H]%orb_true_iff; apply String.eqb_eq in H as ->;
    split; reflexivity.
Qed.

Section Program.

Variable St : Type.
Variable serve : St -> call -> reply * St.
Variable parseSpec : val -> outcome OpenApi.api.
Variable readFileSync : val -> outcome string.
Variable extractEndpoints : OpenApi.api -> list OpenApi.endpoint.
Variable getResponseSchema :
  list (string * OpenApi.response) -> string -> option OpenApi.schemaInfo.
Variable getRequiredFields : val -> list string.
Variable generateCollection :
  client -> val -> string -> list (string * val) -> Remote.M St val.
Variable arrayMembers : list string.

Abbreviation main :=
  (main St serve parseSpec readFileSync extractEndpoints getResponseSchema
        getRequiredFields generateCollection arrayMembers).

(** X25.  Asked for help, the program prints the help text and exits
    with code 0 without doing anything else, whatever else the command
    line says and even when it names no spec: it is enough that [--help]
    or [-h] stands where a label is read, that is, behind arguments none of
    which takes a value. *)
Theorem main_help_only_prints (e : env) (pre post : list string) (h : string)
    (w : world St) :
  Forall (fun arg => takes_value arg = false) pre ->
  is_help h = true ->
  main e (pre ++ h :: post) w
  = {| exit_code := 0; final := w; stdout := [ConsoleLog helpText]; stderr := [] |}.
Proof.
  intros Hpre Hh. unfold Cli.main, parseArgs.
  destruct (parse_singles pre (h :: post) (defaults e) Hpre) as [o' ->].
  destruct (is_help_only h Hh) as [Hv Hd]. unfold takes_value in Hv.
  repeat match goal with
         | H : _ || _ = false |- _ => apply orb_false_iff in H as [? ?]
         end.
  cbn [parseArgs_from].
  repeat match goal with H : _ h = false |- _ => rewrite H; clear H end.
  rewrite Hh. by rewrite (help_stays post (with_help o')).
Qed.

(** X26.  Without a spec the program stops before it does anything: on a
    command line that holds none of [--spec], [-s], [--help] and [-h] it
    logs its banner and the complaint that the spec file path is required,
    and exits with code 1 - no call is made, whatever the other arguments
    and the environment say. *)
Theorem main_requires_spec (e : env) (argv : list string) (w : world St) :
  (forall arg, In arg argv -> is_spec arg = false) ->
  (forall arg, In arg argv -> is_help arg = false) ->
  main e argv w
  = {| exit_code := 1; final := w;
       stdout := [ Log (nl +:+ rule); Log "  Spec Hub Sync"; Log (rule +:+ nl);
                   LogError "Spec file path is required (--spec)" ];
       stderr := [] |}.
Proof.
  intros Hspec Hhelp.
  destruct (no_spec_no_help e argv Hspec Hhelp) as [Hs Hh].
  unfold Cli.main. rewrite Hh.
  unfold sync, validateOptions, Remote.bind, Remote.emit, Remote.throw, Remote.ret.
  rewrite Hs. reflexivity.
Qed.

End Program.

Lemma main_help_only_prints_witness :
  Cli.main (list string) Samples.hub Samples.parseSpec Samples.readFileSync
    Samples.extractEndpoints Samples.getResponseSchema Samples.getRequiredFields
    (generateCollection_undeclared (list string)) Samples.arrayMembers
    {| POSTMAN_WORKSPACE_ID := VUndef; POSTMAN_API_KEY := VUndef |}
    [ "--dry-run"; "-h"; "--spec" ] Samples.hubWorld
  = {| exit_code := 0; final := Samples.hubWorld;
       stdout := [ConsoleLog helpText]; stderr := [] |}.
Proof.
  apply (main_help_only_prints (list string) Samples.hub Samples.parseSpec
           Samples.readFileSync Samples.extractEndpoints Samples.getResponseSchema
           Samples.getRequiredFields (generateCollection_undeclared (list string))
           Samples.arrayMembers
           {| POSTMAN_WORKSPACE_ID := VUndef; POSTMAN_API_KEY := VUndef |}
           [ "--dry-run" ] [ "--spec" ] "-h" Samples.hubWorld);
    [repeat constructor|reflexivity].
Defined.

Lemma main_requires_spec_witness :
  Cli.exit_code
    (Cli.main (list string) Samples.hub Samples.parseSpec Samples.readFileSync
       Samples.extractEndpoints Samples.getResponseSchema Samples.getRequiredFields
       (generateCollection_undeclared (list string)) Samples.arrayMembers
       {| POSTMAN_WORKSPACE_ID := VStr "ws"; POSTMAN_API_KEY := VStr "key" |}
       [ "--test-level"; "smoke"; "specs/api.yaml" ] Samples.hubWorld)
  = 1.
Proof.
  rewrite (main_requires_spec (list string) Samples.hub Samples.parseSpec
             Samples.readFileSync Samples.extractEndpoints Samples.getResponseSchema
             Samples.getRequiredFields (generateCollection_undeclared (list string))
             Samples.arrayMembers
             {| POSTMAN_WORKSPACE_ID := VStr "ws"; POSTMAN_API_KEY := VStr "key" |}
             [ "--test-level"; "smoke"; "specs/api.yaml" ] Samples.hubWorld).
  - reflexivity.
  - intros arg [<-|[<-|[<-|[]]]]; reflexivity.
  - intros arg [<-|[<-|[<-|[]]]]; reflexivity.
Defined.

(** X24 on a command line that names neither the spec nor the key. *)
Lemma parseArgs_keeps_defaults_witness :
  Options.spec (parseArgs {| POSTMAN_WORKSPACE_ID := VStr "ws"; POSTMAN_API_KEY := VStr "key" |}
                  [ "--dry-run"; "-w"; "other" ])
  = VNull
  /\ Options.apiKey
       (parseArgs {| POSTMAN_WORKSPACE_ID := VStr "ws"; POSTMAN_API_KEY := VStr "key" |}
          [ "--dry-run"; "-w"; "other" ])
     = VStr "key".
Proof.
  destruct (parseArgs_keeps_defaults
              {| POSTMAN_WORKSPACE_ID := VStr "ws"; POSTMAN_API_KEY := VStr "key" |}
              [ "--dry-run"; "-w"; "other" ]) as (Hspec & _ & Hkey & _).
  split.
  - apply Hspec. intros arg [<-|[<-|[<-|[]]]]; reflexivity.
  - apply Hkey. intros arg [<-|[<-|[<-|[]]]]; reflexivity.
Defined.

End CliFacts.

(* ===================================================================== *)
(** * Facts about the cleanup script *)
(* ===================================================================== *)

Module CleanupFacts.
Import Js Remote Cleanup ClientFacts.

Lemma readable_uid (c : val) : readable c -> get c "uid" = Ok (uid_of c).
Proof.
  unfold uid_of. intros [Hu Hn]. destruct c; try reflexivity; contradiction.
Qed.

Lemma readable_name (c : val) : readable c -> exists name, get c "name" = Ok name.
Proof. intros [Hu Hn]. destruct c; try (eexists; reflexivity); contradiction. Qed.

(** The first loop sorts the members it can read into those kept and the
    others, each in the order of the listing. *)
Lemma categorise_readable (members : list val) :
  Forall readable members ->
  categorise members
  = Ok (List.filter (fun c => kept (uid_of c)) members, orphans members).
Proof.
  induction 1 as [|c rest Hc _ IH]; [reflexivity|]. simpl.
  rewrite (readable_uid c Hc), IH. simpl. unfold orphans. simpl.
  destruct (kept (uid_of c)); reflexivity.
Qed.

Lemma readable_filter (f : val -> bool) (members : list val) :
  Forall readable members -> Forall readable (List.filter f members).
Proof.
  induction 1 as [|c rest Hc _ IH]; [constructor|]. simpl.
  destruct (f c); [by constructor|exact IH].
Qed.

Section Script.

Variable St : Type.
Variable serve : St -> call -> reply * St.
Variable message : exn -> string.
Variable POSTMAN_API_KEY : val.
Variable POSTMAN_WORKSPACE_ID : val.

Abbreviation world := (world St).
Abbreviation answered := (answered St serve).
Abbreviation api_call := (api_call POSTMAN_API_KEY).
Abbreviation apiRequest := (apiRequest St serve POSTMAN_API_KEY).
Abbreviation listing_call := (listing_call POSTMAN_API_KEY POSTMAN_WORKSPACE_ID).
Abbreviation delete_call := (delete_call POSTMAN_API_KEY).
Abbreviation describe := (describe St).
Abbreviation deleteEach := (deleteEach St serve message POSTMAN_API_KEY).
Abbreviation main := (main St serve message POSTMAN_API_KEY POSTMAN_WORKSPACE_ID).
Abbreviation program := (program St serve message POSTMAN_API_KEY POSTMAN_WORKSPACE_ID).

Ltac steps :=
  unfold Remote.bind, Remote.try_catch, Remote.emit, Remote.lift, Remote.ret, Remote.throw;
  cbv beta iota zeta.

(** ** One request *)

Lemma apiRequest_run (method endpoint : string) (w : world) :
  let c := api_call method endpoint in
  apiRequest method endpoint w
  = (apiRequest_outcome (fst (serve (remote w) c)), answered w c, [Fetch c]).
Proof.
  cbv zeta. unfold Cleanup.apiRequest, Remote.bind, fetch, Remote.answered.
  destruct (serve (remote w) (api_call method endpoint)) as [r s'].
  destruct r as [|status body]; [reflexivity|]. simpl.
  destruct (status =? 404)%nat eqn:E404.
  - apply Nat.eqb_eq in E404 as ->. reflexivity.
  - rewrite andb_true_r. destruct (ok status); simpl.
    + destruct body; reflexivity.
    + destruct body as [data|]; [|reflexivity].
      unfold Remote.lift. destruct (get data "error"); reflexivity.
Qed.

(** X27.  The request of the cleanup script takes status 404 for an
    absent resource, not for an error: it returns [null] without reading
    the body, so also when the body is no JSON.  Every other status outside
    200-299 throws an error made of the status and the body's [error]
    member, or the body itself when that member is falsy; a status inside
    returns the body. *)
Theorem apiRequest_takes_404_for_absent (method endpoint : string) (w : world) :
  let c := api_call method endpoint in
  (forall body,
     fst (serve (remote w) c) = Reply 404 body ->
     apiRequest method endpoint w = (Ok VNull, answered w c, [Fetch c]))
  /\ (forall status data detail,
        fst (serve (remote w) c) = Reply status (Some data) ->
        ok status = false ->
        status <> 404 ->
        get data "error" = Ok detail ->
        apiRequest method endpoint w
        = (Throw (ApiError status (or_else detail data)), answered w c, [Fetch c]))
  /\ (forall status data,
        fst (serve (remote w) c) = Reply status (Some data) ->
        ok status = true ->
        apiRequest method endpoint w = (Ok data, answered w c, [Fetch c])).
Proof.
  cbv zeta. repeat split.
  - intros body Hr. rewrite apiRequest_run. cbv zeta. by rewrite Hr.
  - intros status data detail Hr Hok Hne Hd. rewrite apiRequest_run. cbv zeta.
    rewrite Hr. simpl. apply Nat.eqb_neq in Hne. by rewrite Hne, Hok, Hd.
  - intros status data Hr Hok. rewrite apiRequest_run. cbv zeta. rewrite Hr. simpl.
    destruct (status =? 404)%nat eqn:E; [|by rewrite Hok].
    apply Nat.eqb_eq in E as ->. discriminate Hok.
Qed.

(** ** The loops *)

Lemma describe_run (l : list val) (w : world) :
  Forall readable l ->
  exists t, describe l w = (Ok tt, w, t) /\ fetches t = [].
Proof.
  induction 1 as [|c rest Hc _ IH]; [by exists []|].
  destruct IH as (t & Ht & Hf). destruct (readable_name c Hc) as [name Hname].
  simpl. steps. rewrite Hname, (readable_uid c Hc), Ht.
  eexists. split; [reflexivity|exact Hf].
Qed.

(** Every member gets its deletion, whatever became of the ones before. *)
Lemma deleteEach_run (l : list val) (w : world) :
  Forall readable l ->
  exists w' t,
    deleteEach l w = (Ok tt, w', t)
    /\ fetches t = map (fun c => delete_call (uid_of c)) l.
Proof.
  intros Hl. revert w. induction Hl as [|c rest Hc _ IH]; intros w; [by exists w, []|].
  destruct (readable_name c Hc) as [name Hname].
  simpl. steps. rewrite (readable_uid c Hc). rewrite apiRequest_run. cbv zeta.
  fold (delete_call (uid_of c)). rewrite Hname.
  destruct (apiRequest_outcome _) as [v|e];
    destruct (IH (answered w (delete_call (uid_of c)))) as (w' & t & -> & Hf);
    eexists _, _; (split; [reflexivity|]); simpl; by rewrite Hf.
Qed.

(** The run of [main] on a listing it can read. *)
Lemma main_run (w : world) (result listed : val) (members : list val) :
  apiRequest_outcome (fst (serve (remote w) listing_call)) = Ok result ->
  get result "collections" = Ok listed ->
  iterate (or_else listed (VArr [])) = Ok members ->
  Forall readable members ->
  exists w' t,
    main w = (Ok tt, w', t)
    /\ fetches t = listing_call :: map (fun c => delete_call (uid_of c)) (orphans members).
Proof.
  intros Hr Hl Hi Hm. unfold Cleanup.main. steps.
  rewrite apiRequest_run. cbv zeta. fold listing_call. rewrite Hr. steps.
  rewrite Hl. steps. rewrite Hi. steps. rewrite (categorise_readable members Hm). steps.
  destruct (describe_run (List.filter (fun c => kept (uid_of c)) members)
              (answered w listing_call)) as (t1 & -> & Hf1); [by apply readable_filter|].
  destruct (describe_run (orphans members) (answered w listing_call))
    as (t2 & -> & Hf2); [by apply readable_filter|].
  destruct (deleteEach_run (orphans members) (answered w listing_call))
    as (w' & t3 & -> & Hf3); [by apply readable_filter|].
  eexists _, _. split; [reflexivity|]. simpl.
  rewrite !fetches_app, Hf1. simpl. rewrite !fetches_app, Hf2. simpl.
  rewrite !fetches_app, Hf3. simpl. by rewrite app_nil_r.
Qed.

(** X28.  Once the listing is read, the cleanup deletes every listed
    collection whose uid is not one of the four kept uids, and nothing
    else: after the listing it sends one DELETE per such collection, in
    the order of the listing, whatever the service answers to the ones
    before (a failed deletion is logged and the sweep goes on), and the
    program ends with exit code 0. *)
Theorem main_sweeps_orphans (w : world) (result listed : val) (members : list val) :
  apiRequest_outcome (fst (serve (remote w) listing_call)) = Ok result ->
  get result "collections" = Ok listed ->
  iterate (or_else listed (VArr [])) = Ok members ->
  Forall readable members ->
  fst (fst (main w)) = Ok tt
  /\ fetches (snd (main w))
     = listing_call :: map (fun c => delete_call (uid_of c)) (orphans members)
  /\ Cli.exit_code (program w) = 0.
Proof.
  intros Hr Hl Hi Hm.
  destruct (main_run w result listed members Hr Hl Hi Hm) as (w' & t & Hrun & Hf).
  unfold Cleanup.program. rewrite Hrun. auto.
Qed.

(** X29.  No kept collection is ever deleted: when every listed
    collection has a string for uid, no call of the run is a DELETE of one
    of the four kept uids. *)
Theorem main_spares_kept (w : world) (result listed : val) (members : list val) :
  apiRequest_outcome (fst (serve (remote w) listing_call)) = Ok result ->
  get result "collections" = Ok listed ->
  iterate (or_else listed (VArr [])) = Ok members ->
  Forall (fun c => exists uid, get c "uid" = Ok (VStr uid)) members ->
  forall k, In k KEEP_COLLECTIONS -> ~ In (delete_call (VStr k)) (fetches (snd (main w))).
Proof.
  intros Hr Hl Hi Huids k Hk.
  assert (Hm : Forall readable members).
  { eapply Forall_impl; [exact Huids|]. intros c [uid Hu]. split; intros ->; discriminate. }
  destruct (main_run w result listed members Hr Hl Hi Hm) as (w' & t & Hrun & Hf).
  rewrite Hrun. simpl. rewrite Hf. intros [Hin|Hin]; [discriminate Hin|].
  apply in_map_iff in Hin as (c & Hc & Hin). unfold orphans in Hin.
  apply filter_In in Hin as [Hin Hkept]. rewrite List.Forall_forall in Huids.
  destruct (Huids c Hin) as [uid Hu]. unfold uid_of in *. rewrite Hu in *.
  injection Hc as Hc. change (uid = k) in Hc. subst uid.
  apply negb_true_iff in Hkept. simpl in Hkept.
  assert (Hex : existsb (String.eqb k) KEEP_COLLECTIONS = true).
  { apply existsb_exists. exists k. split; [exact Hk|apply String.eqb_refl]. }
  simpl in Hex. congruence.
Qed.

(** X30.  A listing that cannot be read ends the program with exit code
    1 before any deletion: the listing is the only call, and the error is
    reported on the error stream.  A status 404 for the listing is such a
    case, since the [null] it is taken for has no [collections]. *)
Theorem program_stops_unlisted (w : world) :
  (forall e,
     apiRequest_outcome (fst (serve (remote w) listing_call)) = Throw e ->
     program w
     = {| Cli.exit_code := 1; Cli.final := answered w listing_call;
          Cli.stdout := [ ConsoleLog ("🔍 Fetching collections from workspace..." +:+ nl);
                          Fetch listing_call ];
          Cli.stderr := [ "Error: " +:+ message e ] |})
  /\ (forall body,
        fst (serve (remote w) listing_call) = Reply 404 body ->
        program w
        = {| Cli.exit_code := 1; Cli.final := answered w listing_call;
             Cli.stdout := [ ConsoleLog ("🔍 Fetching collections from workspace..." +:+ nl);
                             Fetch listing_call ];
             Cli.stderr := [ "Error: " +:+ message TypeError ] |}).
Proof.
  split.
  - intros e He. unfold Cleanup.program, Cleanup.main. steps.
    rewrite apiRequest_run. cbv zeta. fold listing_call. by rewrite He.
  - intros body Hb. unfold Cleanup.program, Cleanup.main. steps.
    rewrite apiRequest_run. cbv zeta. fold listing_call. by rewrite Hb.
Qed.

End Script.

(** X28 on the sample workspace: both orphans get their DELETE, the
    second although the first was refused. *)
Lemma main_sweeps_orphans_witness :
  fetches (snd (Cleanup.main unit Samples.workspace Samples.message (VStr "key") VUndef
                  Samples.unitWorld))
  = [ Cleanup.listing_call (VStr "key") VUndef;
      Cleanup.delete_call (VStr "key") (VStr "17929829-a");
      Cleanup.delete_call (VStr "key") (VStr "17929829-b") ]
  /\ Cli.exit_code (Cleanup.program unit Samples.workspace Samples.message (VStr "key")
                      VUndef Samples.unitWorld)
     = 0.
Proof.
  destruct (main_sweeps_orphans unit Samples.workspace Samples.message (VStr "key") VUndef
              Samples.unitWorld
              (VObj [ ("collections",
                       VArr [ Samples.orphanEntry "a"; Samples.keptEntry;
                              Samples.orphanEntry "b" ]) ])
              (VArr [ Samples.orphanEntry "a"; Samples.keptEntry; Samples.orphanEntry "b" ])
              [ Samples.orphanEntry "a"; Samples.keptEntry; Samples.orphanEntry "b" ]
              eq_refl eq_refl eq_refl) as (_ & Hfetches & Hexit).
  - repeat constructor; discriminate.
  - split; [exact Hfetches|exact Hexit].
Defined.

(** X29 on the sample workspace. *)
Lemma main_spares_kept_witness :
  ~ In (Cleanup.delete_call (VStr "key")
          (VStr "17929829-be7ebff7-004e-4119-a147-6366aff706ce"))
       (fetches (snd (Cleanup.main unit Samples.workspace Samples.message (VStr "key")
                        VUndef Samples.unitWorld))).
Proof.
  apply (main_spares_kept unit Samples.workspace Samples.message (VStr "key") VUndef
           Samples.unitWorld
           (VObj [ ("collections",
                    VArr [ Samples.orphanEntry "a"; Samples.keptEntry;
                           Samples.orphanEntry "b" ]) ])
           (VArr [ Samples.orphanEntry "a"; Samples.keptEntry; Samples.orphanEntry "b" ])
           [ Samples.orphanEntry "a"; Samples.keptEntry; Samples.orphanEntry "b" ]
           eq_refl eq_refl eq_refl).
  - repeat constructor; eexists; reflexivity.
  - simpl. auto.
Defined.

(** X30 on a service that answers nothing. *)
Lemma program_stops_unlisted_witness :
  Cli.exit_code (Cleanup.program unit Samples.deadHub Samples.message (VStr "key") VUndef
                   Samples.unitWorld) = 1
  /\ fetches (Cli.stdout (Cleanup.program unit Samples.deadHub Samples.message (VStr "key")
                            VUndef Samples.unitWorld))
     = [ Cleanup.listing_call (VStr "key") VUndef ].
Proof.
  destruct (program_stops_unlisted unit Samples.deadHub Samples.message (VStr "key") VUndef
              Samples.unitWorld) as [Hfail _].
  rewrite (Hfail FetchFailed eq_refl). split; reflexivity.
Defined.

(** X27 on the small Spec Hub, which knows no such resource. *)
Lemma apiRequest_takes_404_for_absent_witness :
  Cleanup.apiRequest (list string) Samples.hub (VStr "key") "DELETE" "/workspaces/gone"
    Samples.hubWorld
  = (Ok VNull, Samples.hubWorld,
     [ Fetch (Cleanup.api_call (VStr "key") "DELETE" "/workspaces/gone") ]).
Proof.
  apply (proj1 (apiRequest_takes_404_for_absent (list string) Samples.hub (VStr "key")
                  "DELETE" "/workspaces/gone" Samples.hubWorld)
           (Some (VObj []))).
  reflexivity.
Defined.

End CleanupFacts.
